(** * automail-ai: orchestration, aggregation and persistence of extracted email data

    A shallow embedding of the Python services under [backend/services]
    (email_finance, email_reminders, email_analytics, email_orchestrator,
    auto_reply_draft, email_tagging) and of the routes under [backend/routes]
    that call them, the theorems that settle what the specification says
    about them, and further properties read off the code.

    Conventions of the embedding.
    - A Python [float] is an IEEE 754 binary64 number: Rocq's primitive [float].
    - A Python [str] is the sequence of its code points; the model keeps the
      code points below 256, one [ascii] each.
    - A value decoded by [json.loads] is a [value]; a JSON object is a Python
      [dict] with [str] keys, kept as an association list in insertion order.
    - A Python exception is an [exn]; code that can raise returns a [result].
    - The classifier (the language model), the mail provider, the database and
      the clock are outside the repository: their answers are oracles, and
      every theorem holds for all of them. *)

From Stdlib Require Import ZArith List String Ascii Bool Lia Floats.
From Stdlib Require Import Permutation Sorted OrderedTypeEx.
Import ListNotations.

Set Implicit Arguments.
Set Warnings "-register-all".

(** ** The Python fragment the services use *)
Module Py.

(** Exceptions, all of them subclasses of [Exception]. *)
Inductive exn : Type :=
| TypeError
| ValueError
| AttributeError
| KeyError
| IndexError
| NameError
| OverflowError
| JSONDecodeError
| ExternalError (what : string).

Inductive result (A : Type) : Type :=
| Ok (a : A)
| Raise (e : exn).

Arguments Ok {A} a.
Arguments Raise {A} e.

Definition bind {A B : Type} (c : result A) (k : A -> result B) : result B :=
  match c with
  | Ok a => k a
  | Raise e => Raise e
  end.

Declare Scope py_scope.
Delimit Scope py_scope with py.
Notation "x <- c ;; k" := (bind c (fun x => k))
  (at level 61, c at next level, right associativity) : py_scope.
Local Open Scope py_scope.

(** [for x in xs: acc = step(acc, x)], where an iteration may raise. *)
Fixpoint for_each {A S : Type} (step : S -> A -> result S) (xs : list A) (acc : S)
  : result S :=
  match xs with
  | [] => Ok acc
  | x :: rest => acc' <- step acc x ;; for_each step rest acc'
  end.

Fixpoint map_m {A B : Type} (f : A -> result B) (xs : list A) : result (list B) :=
  match xs with
  | [] => Ok []
  | x :: rest => y <- f x ;; ys <- map_m f rest ;; Ok (y :: ys)
  end.

(** Values as [json.loads] builds them. *)
Inductive value : Type :=
| VNone
| VBool (b : bool)
| VInt (z : Z)
| VFloat (f : float)
| VStr (s : string)
| VList (l : list value)
| VDict (d : list (string * value)).

(** A [dict] with [str] keys: at most one entry per key, insertion order kept. *)
Definition dict : Type := list (string * value).

Fixpoint dict_get (d : dict) (k : string) : option value :=
  match d with
  | [] => None
  | (k', v) :: rest => if String.eqb k' k then Some v else dict_get rest k
  end.

(** [k in d] *)
Definition dict_has (d : dict) (k : string) : bool :=
  match dict_get d k with Some _ => true | None => false end.

(** [d.get(k, default)] *)
Definition get_or (d : dict) (k : string) (default : value) : value :=
  match dict_get d k with Some v => v | None => default end.

(** [d[k] = v]: an existing key keeps its place, a new one goes last. *)
Fixpoint dict_set (d : dict) (k : string) (v : value) : dict :=
  match d with
  | [] => [(k, v)]
  | (k', v') :: rest =>
      if String.eqb k' k then (k', v) :: rest else (k', v') :: dict_set rest k v
  end.

(** [x[k] = v] for an arbitrary value [x]: only a dict accepts a [str] key. *)
Definition set_item (x : value) (k : string) (v : value) : result value :=
  match x with
  | VDict d => Ok (VDict (dict_set d k v))
  | _ => Raise TypeError
  end.

(** *** Strings *)

Definition code (c : ascii) : N := N_of_ascii c.

(** [str.lower] on one code point: A-Z, and the upper-case letters of
    Latin-1 (U+00C0-U+00DE but the multiplication sign U+00D7). *)
Definition lower_char (c : ascii) : ascii :=
  let n := code c in
  if ((65 <=? n) && (n <=? 90))%N
     || ((192 <=? n) && (n <=? 222) && negb (n =? 215))%N
  then ascii_of_N (n + 32)
  else c.

Fixpoint lower (s : string) : string :=
  match s with
  | EmptyString => EmptyString
  | String c rest => String (lower_char c) (lower rest)
  end.

(** [str.isspace] on one code point. *)
Definition is_space (c : ascii) : bool :=
  let n := code c in
  (((9 <=? n) && (n <=? 13)) || ((28 <=? n) && (n <=? 32))
   || (n =? 133) || (n =? 160))%N.

Fixpoint lstrip (s : string) : string :=
  match s with
  | EmptyString => EmptyString
  | String c rest => if is_space c then lstrip rest else s
  end.

(** [rstrip]: a character is dropped when it is a space and all that
    follows it was dropped. *)
Fixpoint rstrip (s : string) : string :=
  match s with
  | EmptyString => EmptyString
  | String c rest =>
      match rstrip rest with
      | EmptyString => if is_space c then EmptyString else String c EmptyString
      | kept => String c kept
      end
  end.

(** [s.strip()] *)
Definition strip (s : string) : string := rstrip (lstrip s).

(** [s.startswith(p)] *)
Definition startswith (s p : string) : bool := String.prefix p s.

(** [p in s] for two strings. *)
Fixpoint contains (s p : string) : bool :=
  String.prefix p s
  || match s with
     | EmptyString => false
     | String _ rest => contains rest p
     end.

(** [\d] of the [re] module on code points below 256. *)
Definition is_digit (c : ascii) : bool :=
  let n := code c in ((48 <=? n) && (n <=? 57))%N.

(** [re.match(r'^\d{4}-\d{2}-\d{2}$', s)]: ten characters in the shape
    dddd-dd-dd, then the end of the string, which [$] also finds just before
    one final newline. *)
Definition matches_iso_date (s : string) : bool :=
  match s with
  | String y1 (String y2 (String y3 (String y4 (String h1
      (String m1 (String m2 (String h2 (String d1 (String d2 tail))))))))) =>
      is_digit y1 && is_digit y2 && is_digit y3 && is_digit y4
      && Ascii.eqb h1 "-" && is_digit m1 && is_digit m2
      && Ascii.eqb h2 "-" && is_digit d1 && is_digit d2
      && match tail with
         | EmptyString => true
         | String nl EmptyString => Ascii.eqb nl "010"
         | _ => false
         end
  | _ => false
  end.

(** [x.lower()] for an arbitrary value: only a [str] has the method. *)
Definition py_lower (x : value) : result string :=
  match x with
  | VStr s => Ok (lower s)
  | _ => Raise AttributeError
  end.

(** *** Numbers *)

Local Open Scope float_scope.

(** [float(z)] for an [int]: the nearest binary64, ties to even;
    [OverflowError] when that is not finite. *)
Definition float_of_int (z : Z) : result float :=
  match binary_normalize prec emax z 0 false with
  | S754_infinity _ => Raise OverflowError
  | sf => Ok (SF2Prim sf)
  end.

(** The integer a float equals, if any. *)
Definition integral (sf : spec_float) : option Z :=
  match sf with
  | S754_zero _ => Some 0%Z
  | S754_finite s m e =>
      let v := if s then Zneg m else Zpos m in
      if (0 <=? e)%Z then Some (v * 2 ^ e)%Z
      else if (Zpos m mod 2 ^ (- e) =? 0)%Z then Some (v / 2 ^ (- e))%Z
      else None
  | _ => None
  end.

(** [z ? f], exactly (Python compares an [int] with a [float] by value). *)
Definition compare_int_float (z : Z) (f : float) : option comparison :=
  match Prim2SF f with
  | S754_nan => None
  | S754_infinity s => Some (if s then Gt else Lt)
  | S754_zero _ => Some (z ?= 0)%Z
  | S754_finite s m e =>
      let v := if s then Zneg m else Zpos m in
      Some (if (0 <=? e)%Z then (z ?= v * 2 ^ e)%Z else (z * 2 ^ (- e) ?= v)%Z)
  end.

Definition float_cmp (a b : float) : option comparison :=
  match PrimFloat.compare a b with
  | FEq => Some Eq
  | FLt => Some Lt
  | FGt => Some Gt
  | FNotComparable => None
  end.

Inductive number : Type :=
| NInt (z : Z)
| NFloat (f : float).

(** [bool] is a subclass of [int]. *)
Definition as_number (x : value) : option number :=
  match x with
  | VBool b => Some (NInt (Z.b2z b))
  | VInt z => Some (NInt z)
  | VFloat f => Some (NFloat f)
  | _ => None
  end.

(** Numeric comparison; [None] when a NaN makes the two unordered. *)
Definition number_cmp (a b : number) : option comparison :=
  match a, b with
  | NInt x, NInt y => Some (x ?= y)%Z
  | NFloat x, NFloat y => float_cmp x y
  | NInt x, NFloat y => compare_int_float x y
  | NFloat x, NInt y => option_map CompOpp (compare_int_float y x)
  end.

(** [bool(x)] *)
Definition truthy (x : value) : bool :=
  match x with
  | VNone => false
  | VBool b => b
  | VInt z => negb (z =? 0)%Z
  | VFloat f => negb (PrimFloat.eqb f 0)
  | VStr s => negb (String.eqb s "")
  | VList l => match l with [] => false | _ => true end
  | VDict d => match d with [] => false | _ => true end
  end.

(** *** Equality, order and sorting *)

(** [a == b] as a container tests its items ([x in xs], the items of two
    tuples or lists): the same object or an equal one; the NaN of
    [json.loads] is one object, so it is found equal to itself. *)
Fixpoint py_eq (a b : value) {struct a} : bool :=
  match a, b with
  | VNone, VNone => true
  | VStr s, VStr t => String.eqb s t
  | VList l, VList m =>
      (fix all2 (l m : list value) {struct l} : bool :=
         match l, m with
         | [], [] => true
         | x :: l', y :: m' => py_eq x y && all2 l' m'
         | _, _ => false
         end) l m
  | VDict d, VDict e =>
      Nat.eqb (List.length d) (List.length e)
      && (fix sub (d : list (string * value)) {struct d} : bool :=
            match d with
            | [] => true
            | (k, v) :: d' =>
                match dict_get e k with
                | Some v' => py_eq v v'
                | None => false
                end && sub d'
            end) d
  | VBool _, _ | VInt _, _ | VFloat _, _ =>
      match as_number a, as_number b with
      | Some x, Some y =>
          match number_cmp x y with
          | Some Eq => true
          | Some _ => false
          | None =>
              match x, y with
              | NFloat f, NFloat g => PrimFloat.is_nan f && PrimFloat.is_nan g
              | _, _ => false
              end
          end
      | _, _ => false
      end
  | _, _ => false
  end.

(** [a < b]; [TypeError] between values Python does not order. *)
Fixpoint py_lt (a b : value) {struct a} : result bool :=
  match a, b with
  | VStr s, VStr t => Ok (String.ltb s t)
  | VList l, VList m =>
      (fix first_difference (l m : list value) {struct l} : result bool :=
         match l, m with
         | [], [] => Ok false
         | [], _ :: _ => Ok true
         | _ :: _, [] => Ok false
         | x :: l', y :: m' =>
             if py_eq x y then first_difference l' m' else py_lt x y
         end) l m
  | _, _ =>
      match as_number a, as_number b with
      | Some x, Some y =>
          Ok (match number_cmp x y with Some Lt => true | _ => false end)
      | _, _ => Raise TypeError
      end
  end.

(** [xs.sort(key=key)]: the keys are computed first, item by item; the
    items are then ordered by [<] on their keys, equal keys keeping their
    order. On keys that Python orders (any two of them comparable, no NaN
    among them) every stable sort returns the same list, and the model is
    exact there; elsewhere CPython's choice of comparisons decides whether
    and where it raises, and the model raises at the first comparison of an
    insertion sort that does. *)
Section Sort.
Variables A K : Type.
Variable key : A -> result K.
Variable lt : K -> K -> result bool.

Fixpoint insert (x : K * A) (sorted : list (K * A)) : result (list (K * A)) :=
  match sorted with
  | [] => Ok [x]
  | y :: rest =>
      smaller <- lt (fst x) (fst y) ;;
      if smaller then Ok (x :: y :: rest)
      else rest' <- insert x rest ;; Ok (y :: rest')
  end.

Definition py_sort (xs : list A) : result (list A) :=
  keyed <- map_m (fun x => k <- key x ;; Ok (k, x)) xs ;;
  sorted <- for_each (fun acc x => insert x acc) keyed [] ;;
  Ok (map snd sorted).

End Sort.

(** *** Subscripts, iteration, membership *)

(** [x[k]] for a [str] [k]. *)
Definition get_item (x : value) (k : string) : result value :=
  match x with
  | VDict d =>
      match dict_get d k with
      | Some v => Ok v
      | None => Raise KeyError
      end
  | _ => Raise TypeError
  end.

Fixpoint chars (s : string) : list value :=
  match s with
  | EmptyString => []
  | String c rest => VStr (String c EmptyString) :: chars rest
  end.

(** The items [for x in xs] visits. *)
Definition py_iter (xs : value) : result (list value) :=
  match xs with
  | VList l => Ok l
  | VDict d => Ok (map (fun kv => VStr (fst kv)) d)
  | VStr s => Ok (chars s)
  | _ => Raise TypeError
  end.

(** [x[0]] *)
Definition first_item (x : value) : result value :=
  match x with
  | VList (v :: _) => Ok v
  | VList [] => Raise IndexError
  | VStr (String c _) => Ok (VStr (String c EmptyString))
  | VStr EmptyString => Raise IndexError
  | VDict _ => Raise KeyError
  | _ => Raise TypeError
  end.

(** [k in x] for a [str] [k]. *)
Definition has_member (x : value) (k : string) : result bool :=
  match x with
  | VDict d => Ok (dict_has d k)
  | VList l => Ok (existsb (py_eq (VStr k)) l)
  | VStr s => Ok (contains s k)
  | _ => Raise TypeError
  end.

(** *** Keys of a dict

    A dict accepts the hashable values as keys and finds a key by equality:
    [True], [1] and [1.0] are one key; a list or a dict is no key. A float
    that equals no integer is kept as its sign, mantissa and exponent
    ([json.loads] has one NaN object, so NaN is one key as well). *)
Inductive hkey : Type :=
| KNone
| KInt (z : Z)
| KFloat (sf : spec_float)
| KStr (s : string).

Definition hash_key (x : value) : result hkey :=
  match x with
  | VNone => Ok KNone
  | VBool b => Ok (KInt (Z.b2z b))
  | VInt z => Ok (KInt z)
  | VFloat f =>
      Ok (match integral (Prim2SF f) with
          | Some z => KInt z
          | None => KFloat (Prim2SF f)
          end)
  | VStr s => Ok (KStr s)
  | VList _ | VDict _ => Raise TypeError
  end.

Definition sf_eqb (a b : spec_float) : bool :=
  match a, b with
  | S754_zero s, S754_zero t => Bool.eqb s t
  | S754_infinity s, S754_infinity t => Bool.eqb s t
  | S754_nan, S754_nan => true
  | S754_finite s m e, S754_finite t n f =>
      Bool.eqb s t && (m =? n)%positive && (e =? f)%Z
  | _, _ => false
  end.

Definition hkey_eqb (a b : hkey) : bool :=
  match a, b with
  | KNone, KNone => true
  | KInt x, KInt y => (x =? y)%Z
  | KFloat x, KFloat y => sf_eqb x y
  | KStr x, KStr y => String.eqb x y
  | _, _ => false
  end.

(** [a != b] for two keys: the NaN key differs from itself. *)
Definition key_ne (a b : hkey) : bool :=
  negb (hkey_eqb a b)
  || match a with
     | KFloat S754_nan => true
     | _ => false
     end.

(** A dict with hashable keys, in insertion order. *)
Section KeyedDict.
Variable V : Type.

Definition kdict : Type := list (hkey * V).

Fixpoint lookup (m : kdict) (k : hkey) : option V :=
  match m with
  | [] => None
  | (k', v) :: rest => if hkey_eqb k' k then Some v else lookup rest k
  end.

(** [m[k] = f(m[k])] for a key the dict has. *)
Fixpoint update (m : kdict) (k : hkey) (f : V -> V) : kdict :=
  match m with
  | [] => []
  | (k', v) :: rest =>
      if hkey_eqb k' k then (k', f v) :: rest else (k', v) :: update rest k f
  end.

(** [if k not in m: m[k] = v] *)
Definition init_key (m : kdict) (k : hkey) (v : V) : kdict :=
  match lookup m k with
  | Some _ => m
  | None => m ++ [(k, v)]
  end.

End KeyedDict.

End Py.

(** ** The world outside the repository *)
Module Env.
Import Py.

Inductive level : Type := INFO | WARNING | ERROR.

(** A request to the classifier: the call site, and the fields its prompt
    is formatted from. *)
Inductive prompt : Type :=
| AskServices (subject body sender : value)
| AskTransactions (subject body sender : value)
| AskReminders (subject body : value)
| AskMeetings (subject body : value)
| AskShouldReply (subject body : value)
| AskReply (subject body : value).

(** [client.messages.create(...)] followed by [message.content[0].text]:
    the text of the answer, or the exception one of the two raises. The
    line before them, [anthropic.Anthropic(api_key=CLAUDE_API_KEY)], stands
    outside the [try] of every caller; it stores the key and sends nothing,
    and is taken to return. *)
Inductive reply : Type :=
| Raises (e : exn)
| Text (t : string).

(** The credentials [get_gmail_service] inspects. *)
Record creds : Type := mk_creds {
  valid : bool;
  expired : bool;
  refresh_token : bool
}.

(** The parameters of the INSERT into [email_transactions]; [raw_text] is
    "Subject: ", the source subject, a newline and the body if there is one:
    kept as its two parts. *)
Record transaction_row : Type := mk_transaction_row {
  tr_id : string;
  tr_email_id : value;
  tr_date : string;
  tr_description : value;
  tr_amount : float;
  tr_currency : value;
  tr_type : string;
  tr_category : value;
  tr_source : value;
  tr_raw_subject : value;
  tr_raw_body : option string
}.

(** The parameters of the INSERT into [reminders]; a deadline [None] is NULL. *)
Record reminder_row : Type := mk_reminder_row {
  rm_id : string;
  rm_email_id : value;
  rm_email_thread_id : value;
  rm_sender : value;
  rm_subject : value;
  rm_task : value;
  rm_context : value;
  rm_deadline : option string;
  rm_priority : value;
  rm_extracted_at : value;
  rm_created_at : string;
  rm_completed : bool
}.

Inductive row : Type :=
| TransactionRow (r : transaction_row)
| ReminderRow (r : reminder_row).

(** The arguments of [create_reply_draft]: the message is addressed to
    [d_to], its subject is "Re: " and [d_subject], its In-Reply-To and
    References headers are [d_original_msg_id], and the draft is filed in
    thread [d_thread_id]. *)
Record draft : Type := mk_draft {
  d_original_msg_id : value;
  d_thread_id : value;
  d_to : value;
  d_subject : value;
  d_body : string
}.

(** The answers of the libraries and services the code calls. An answer
    depends on the request alone: one run asks no question twice for the
    same message, and connects to the database once per save. *)
Record world : Type := mk_world {
  (* the classifier *)
  llm : prompt -> reply;
  (* builtins: [json.loads] ([None]: JSONDecodeError), [float] of a [str]
     ([None]: ValueError), [datetime.now().isoformat()] and
     [str(uuid.uuid4())] at a given tick of the clock *)
  json_loads : string -> option value;
  float_of_str : string -> option float;
  now : nat -> string;
  uuid4 : nat -> string;
  (* [base64.urlsafe_b64decode(x).decode('utf-8', errors='ignore')] *)
  b64decode : value -> result string;
  (* Google credentials and the Gmail API *)
  load_token : result creds;
  refresh : result unit;
  run_flow : result unit;
  write_token : result unit;
  build_service : result unit;
  messages_list : nat -> result dict;
  messages_get : value -> result dict;
  drafts_create : draft -> result dict;
  (* PostgreSQL: [psycopg2.connect] and [conn.cursor], [cur.execute], and
     [conn.commit] with the two [close] after it *)
  db_connect : result unit;
  db_execute : row -> result unit;
  db_commit : result unit;
  (* the tagging sweep: [get_all_labels], and what [tag_emails] does once it
     holds its labels and its Gmail service *)
  get_all_labels : result value;
  label_messages : value -> result value
}.

(** What a run leaves behind, oldest first. *)
Inductive event : Type :=
| Log (lvl : level) (text : string)
| Execute (r : row)
| Commit
| DraftRequest (d : draft).

(** What the process can see change: whether token.json exists, how often
    the clock and the uuid generator were read, and the events so far. *)
Record state : Type := mk_state {
  token_file : bool;
  tick : nat;
  events : list event
}.

(** Code with effects: from a state to a value or an exception, and the
    state then. *)
Definition M (A : Type) : Type := state -> result A * state.

Definition ret {A : Type} (a : A) : M A := fun st => (Ok a, st).

Definition raise {A : Type} (e : exn) : M A := fun st => (Raise e, st).

Definition bind {A B : Type} (c : M A) (k : A -> M B) : M B :=
  fun st =>
    match c st with
    | (Ok a, st') => k a st'
    | (Raise e, st') => (Raise e, st')
    end.

Definition lift {A : Type} (r : result A) : M A := fun st => (r, st).

(** [try: body / except Exception as e: handler] *)
Definition try_except {A : Type} (body : M A) (handler : exn -> M A) : M A :=
  fun st =>
    match body st with
    | (Ok a, st') => (Ok a, st')
    | (Raise e, st') => handler e st'
    end.

Declare Scope io_scope.
Delimit Scope io_scope with io.
Notation "x <- c ;; k" := (bind c (fun x => k))
  (at level 61, c at next level, right associativity) : io_scope.
Notation "c ;; k" := (bind c (fun _ => k))
  (at level 61, right associativity) : io_scope.

Definition emit (e : event) : M unit :=
  fun st => (Ok tt, mk_state (token_file st) (tick st) (events st ++ [e])).

(** [logger.info], [logger.warning], [logger.error]: the record keeps the
    level and the fixed text of the message. *)
Definition log (lvl : level) (text : string) : M unit := emit (Log lvl text).

(** One reading of the clock or of the uuid generator. *)
Definition next_tick : M nat :=
  fun st => (Ok (tick st), mk_state (token_file st) (S (tick st)) (events st)).

Definition set_token_file : M unit :=
  fun st => (Ok tt, mk_state true (tick st) (events st)).

Definition token_file_exists : M bool := fun st => (Ok (token_file st), st).

Local Open Scope io_scope.

(** [for x in xs: body(x)] *)
Fixpoint for_loop {A : Type} (body : A -> M unit) (xs : list A) : M unit :=
  match xs with
  | [] => ret tt
  | x :: rest => body x ;; for_loop body rest
  end.

(** A loop that builds a list, an item per iteration. *)
Fixpoint for_list {A B : Type} (body : A -> M B) (xs : list A) : M (list B) :=
  match xs with
  | [] => ret []
  | x :: rest => y <- body x ;; ys <- for_list body rest ;; ret (y :: ys)
  end.

Section Calls.
Variable w : world.

(** The stripped text of the classifier's answer. *)
Definition ask (p : prompt) : M string :=
  match llm w p with
  | Raises e => raise e
  | Text t => ret (strip t)
  end.

Definition loads (content : string) : M value :=
  match json_loads w content with
  | Some v => ret v
  | None => raise JSONDecodeError
  end.

(** [datetime.now().isoformat()] *)
Definition isoformat_now : M string := t <- next_tick ;; ret (now w t).

(** [str(uuid.uuid4())] *)
Definition fresh_uuid : M string := t <- next_tick ;; ret (uuid4 w t).

End Calls.

End Env.

(** ** db.py *)
Module Db.
Import Py Env.
Local Open Scope string_scope.
Local Open Scope io_scope.

(** [get_postgres_connection]: the connection, or [None] (here [false])
    when connecting raised. *)
Definition get_postgres_connection (w : world) : M bool :=
  match db_connect w with
  | Ok _ =>
      log INFO "Supabase session pooler PostgreSQL connection successful!" ;;
      ret true
  | Raise _ =>
      log ERROR "Failed to connect to PostgreSQL (pooler)" ;;
      ret false
  end.

End Db.

(** ** What every service module repeats: get_gmail_service, get_body and
    the lookup of a header *)
Module Mail.
Import Py Env.
Local Open Scope string_scope.
Local Open Scope py_scope.

Section Services.
Variable w : world.

(** [get_gmail_service], from whether token.json exists to the outcome and
    whether it exists then. [load] is the reading of the token file,
    [Credentials.from_authorized_user_info(json.load(open(TOKEN_FILE)), SCOPES)]. *)
Definition authorize (load : result creds) (token : bool) : result unit * bool :=
  let loaded : result (option creds) :=
    if token then (c <- load ;; Ok (Some c)) else Ok None in
  match loaded with
  | Raise e => (Raise e, token)
  | Ok credentials =>
      let usable :=
        match credentials with
        | Some c => valid c
        | None => false
        end in
      if usable then (build_service w, token)
      else
        let renewed :=
          match credentials with
          | Some c => if expired c && refresh_token c then refresh w else run_flow w
          | None => run_flow w
          end in
        match renewed with
        | Raise e => (Raise e, token)
        | Ok _ =>
            match write_token w with
            | Raise e => (Raise e, token)
            | Ok _ => (build_service w, true)
            end
        end
  end.

(** In a module that imports [json]. *)
Definition get_gmail_service : M unit :=
  fun st =>
    let (outcome, token) := authorize (load_token w) (token_file st) in
    (outcome, mk_state token (tick st) (events st)).

(** The first part whose mimeType is text/plain. *)
Fixpoint plain_part (parts : list value) : result (option value) :=
  match parts with
  | [] => Ok None
  | part :: rest =>
      mime <- get_item part "mimeType" ;;
      if py_eq mime (VStr "text/plain") then Ok (Some part) else plain_part rest
  end.

Definition part_text (part : value) : result string :=
  body <- get_item part "body" ;;
  data <- get_item body "data" ;;
  b64decode w data.

Definition get_body (payload : value) : result string :=
  multipart <- has_member payload "parts" ;;
  if multipart then
    parts <- get_item payload "parts" ;;
    visited <- py_iter parts ;;
    found <- plain_part visited ;;
    match found with
    | Some part => part_text part
    | None => first <- first_item parts ;; part_text first
    end
  else part_text payload.

(** [next((h['value'] for h in headers if h['name'].lower() == name), '')] *)
Fixpoint find_header (headers : list value) (name : string) : result value :=
  match headers with
  | [] => Ok (VStr "")
  | h :: rest =>
      n <- get_item h "name" ;;
      lowered <- py_lower n ;;
      if String.eqb lowered name then get_item h "value" else find_header rest name
  end.

Record message : Type := mk_message {
  m_subject : value;
  m_sender : value;
  m_date : value;
  m_body : string;
  m_email_id : value;
  m_thread_id : value
}.

(** The first lines of every per-message pipeline. *)
Definition read_message (msg_data : dict) : result message :=
  payload <- get_item (VDict msg_data) "payload" ;;
  headers <- get_item payload "headers" ;;
  visited <- py_iter headers ;;
  subject <- find_header visited "subject" ;;
  sender <- find_header visited "from" ;;
  date <- find_header visited "date" ;;
  body <- get_body payload ;;
  email_id <- get_item (VDict msg_data) "id" ;;
  thread_id <- get_item (VDict msg_data) "threadId" ;;
  Ok (mk_message subject sender date body email_id thread_id).

(** [service.users().messages().list(...).execute().get('messages', [])] *)
Definition recent_messages (max_emails : nat) : result value :=
  listing <- messages_list w max_emails ;;
  Ok (get_or listing "messages" (VList [])).

(** [service.users().messages().get(userId='me', id=msg['id'], format='full').execute()] *)
Definition fetch_message (msg : value) : result dict :=
  id <- get_item msg "id" ;;
  messages_get w id.

End Services.

End Mail.
(** ** services/email_finance.py *)
Module Finance.
Import Py Env.
Local Open Scope py_scope.
Local Open Scope string_scope.

Section Services.
Variable w : world.

(** [float(x)] *)
Definition py_float (x : value) : result float :=
  match x with
  | VFloat f => Ok f
  | VInt z => float_of_int z
  | VBool b => Ok (if b then 1%float else 0%float)
  | VStr s =>
      match float_of_str w s with
      | Some f => Ok f
      | None => Raise ValueError
      end
  | VNone | VList _ | VDict _ => Raise TypeError
  end.

Definition income_types : list string := ["income"; "refund"; "credit"].
Definition expense_types : list string :=
  ["expense"; "bill"; "charge"; "payment"; "debit"].

(** [t in types] for a [str] [t]. *)
Definition type_in (t : string) (types : list string) : bool :=
  existsb (String.eqb t) types.

(** *** calculate_financial_summary

    The integer [0] the code starts every total from is kept as the float
    zero: Python adds, subtracts and compares the two alike. *)

Record bucket : Type := mk_bucket {
  income : float;
  expenses : float
}.

Definition zero_bucket : bucket := mk_bucket 0 0.

Record currency_group : Type := mk_group {
  total_income : float;
  total_expenses : float;
  net_cash_flow : float;
  by_category : kdict bucket;
  recurring : bucket
}.

Definition new_group : currency_group := mk_group 0 0 0 [] zero_bucket.

Record other_currency : Type := mk_other {
  o_total_income : float;
  o_total_expenses : float;
  o_net_cash_flow : float
}.

Record summary : Type := mk_summary {
  s_total_income : float;
  s_total_expenses : float;
  s_net_cash_flow : float;
  s_currency : hkey;
  s_period : string;
  s_by_category : kdict bucket;
  s_recurring : bucket;
  s_other_currencies : option (kdict other_currency)
}.

Definition default_summary : summary :=
  mk_summary 0 0 0 (KStr "USD") "Recent transactions" [] zero_bucket None.

(** ['amount' not in transaction or 'currency' not in transaction], negated. *)
Definition has_amount_and_currency (transaction : dict) : bool :=
  dict_has transaction "amount" && dict_has transaction "currency".

(** What one iteration reads off a transaction that has both keys, in the
    order in which the code can raise: [float(amount)], [type.lower()], the
    hash of the currency, the hash of the category. *)
Record reading : Type := mk_reading {
  r_amount : float;
  r_currency : hkey;
  r_type : string;
  r_category : hkey;
  r_recurring : bool
}.

Definition read_transaction (transaction : dict) : result reading :=
  amount <- py_float (get_or transaction "amount" (VInt 0)) ;;
  transaction_type <- py_lower (get_or transaction "type" (VStr "")) ;;
  currency <- hash_key (get_or transaction "currency" (VStr "USD")) ;;
  category <- hash_key (get_or transaction "category" (VStr "uncategorized")) ;;
  Ok (mk_reading amount currency transaction_type category
        (truthy (get_or transaction "recurring" (VBool false)))).

(** The sums of one iteration, on the group of the transaction's currency. *)
Definition add_to_group (r : reading) (g : currency_group) : currency_group :=
  let cats := init_key (by_category g) (r_category r) zero_bucket in
  if type_in (r_type r) income_types then
    mk_group (total_income g + r_amount r) (total_expenses g) (net_cash_flow g)
      (update cats (r_category r)
         (fun b => mk_bucket (income b + r_amount r) (expenses b)))
      (if r_recurring r
       then mk_bucket (income (recurring g) + r_amount r) (expenses (recurring g))
       else recurring g)
  else if type_in (r_type r) expense_types then
    mk_group (total_income g) (total_expenses g + r_amount r) (net_cash_flow g)
      (update cats (r_category r)
         (fun b => mk_bucket (income b) (expenses b + r_amount r)))
      (if r_recurring r
       then mk_bucket (income (recurring g)) (expenses (recurring g) + r_amount r)
       else recurring g)
  else
    mk_group (total_income g) (total_expenses g) (net_cash_flow g) cats (recurring g).

Definition accumulate (by_currency : kdict currency_group) (r : reading)
  : kdict currency_group :=
  update (init_key by_currency (r_currency r) new_group) (r_currency r)
    (add_to_group r).

(** The body of [for transaction in transactions]. *)
Definition summary_step (by_currency : kdict currency_group) (transaction : dict)
  : result (kdict currency_group) :=
  if negb (has_amount_and_currency transaction) then Ok by_currency
  else r <- read_transaction transaction ;; Ok (accumulate by_currency r).

(** The key of [max]: income plus expenses of a currency. *)
Definition volume (g : currency_group) : float := total_income g + total_expenses g.

(** [max(xs, key=key)]: the first item no later item is greater than. *)
Fixpoint max_from {A : Type} (key : A -> float) (best : A) (rest : list A) : A :=
  match rest with
  | [] => best
  | x :: rest' =>
      if PrimFloat.ltb (key best) (key x) then max_from key x rest'
      else max_from key best rest'
  end.

Definition summarise (by_currency : kdict currency_group) : summary :=
  match by_currency with
  | [] => default_summary
  | first :: rest =>
      let (primary_currency, currency_summary) :=
        max_from (fun e => volume (snd e)) first rest in
      mk_summary
        (total_income currency_summary)
        (total_expenses currency_summary)
        (total_income currency_summary - total_expenses currency_summary)
        primary_currency
        "Recent transactions"
        (by_category currency_summary)
        (recurring currency_summary)
        (if (1 <? List.length by_currency)%nat then
           Some (map (fun e =>
                        (fst e,
                         mk_other (total_income (snd e)) (total_expenses (snd e))
                           (total_income (snd e) - total_expenses (snd e))))
                   (filter (fun e => key_ne (fst e) primary_currency) by_currency))
         else None)
  end.

Definition calculate_financial_summary (transactions : list dict) : result summary :=
  by_currency <- for_each summary_step transactions [] ;;
  Ok (summarise by_currency).

(** *** The summary, as the specification words it

    The definitions below follow the specification: the transactions that
    carry both keys are grouped by currency, and each total is the sum, in
    list order and from zero, of the amounts of the transactions of one type
    bucket. *)

Definition readings (transactions : list dict) : result (list reading) :=
  map_m read_transaction (filter has_amount_and_currency transactions).

Definition is_income (r : reading) : bool := type_in (r_type r) income_types.
Definition is_expense (r : reading) : bool := type_in (r_type r) expense_types.
Definition in_currency (c : hkey) (r : reading) : bool := hkey_eqb (r_currency r) c.
Definition in_category (k : hkey) (r : reading) : bool := hkey_eqb (r_category r) k.

Definition total (p : reading -> bool) (rs : list reading) : float :=
  fold_left (fun acc r => acc + r_amount r)%float (filter p rs) 0%float.

(** Income and expenses of the transactions that satisfy [p]. *)
Definition spec_bucket (p : reading -> bool) (rs : list reading) : bucket :=
  mk_bucket (total (fun r => p r && is_income r) rs)
            (total (fun r => p r && is_expense r) rs).

Definition spec_income (c : hkey) (rs : list reading) : float :=
  income (spec_bucket (in_currency c) rs).
Definition spec_expenses (c : hkey) (rs : list reading) : float :=
  expenses (spec_bucket (in_currency c) rs).
Definition spec_volume (c : hkey) (rs : list reading) : float :=
  (spec_income c rs + spec_expenses c rs)%float.
Definition spec_category (c k : hkey) (rs : list reading) : bucket :=
  spec_bucket (fun r => in_currency c r && in_category k r) rs.
Definition spec_recurring (c : hkey) (rs : list reading) : bucket :=
  spec_bucket (fun r => in_currency c r && r_recurring r) rs.

(** *** extract_financial_data_from_email *)

Local Open Scope io_scope.

(** The four assignments the loop makes on one transaction; the clock is
    read for the last of them. *)
Definition add_source (subject sender : value) (transaction : value) : M dict :=
  t1 <- lift (set_item transaction "source" (VStr "email")) ;;
  t2 <- lift (set_item t1 "source_subject" subject) ;;
  t3 <- lift (set_item t2 "source_sender" sender) ;;
  stamp <- isoformat_now w ;;
  match t3 with
  | VDict d => ret (dict_set d "extracted_at" (VStr stamp))
  | _ => raise TypeError
  end.

Definition extract_financial_data_from_email (subject body sender : value)
  : M (list dict) :=
  try_except
    (content <- ask w (AskTransactions subject body sender) ;;
     if String.eqb content "" || String.eqb content "[]" then ret []
     else
       transactions <- loads w content ;;
       match transactions with
       | VList items => for_list (add_source subject sender) items
       | _ =>
           log WARNING "Unexpected response format from Claude" ;;
           ret []
       end)
    (fun _ => log ERROR "Error extracting financial data" ;; ret []).

(** *** save_transactions_to_database *)

(** The date column: now, or the transaction's date at midnight when it is
    a string in the shape YYYY-MM-DD. *)
Definition transaction_date_sql (transaction : dict) : M string :=
  date_sql <- isoformat_now w ;;
  let transaction_date := get_or transaction "date" VNone in
  if truthy transaction_date then
    match transaction_date with
    | VStr d => ret (if matches_iso_date d then d ++ "T00:00:00" else date_sql)
    | _ => log WARNING "Could not parse date" ;; ret date_sql
    end
  else ret date_sql.

(** [raw_text += transaction['body']] needs a [str]. *)
Definition raw_body (transaction : dict) : result (option string) :=
  match dict_get transaction "body" with
  | None => Ok None
  | Some (VStr b) => Ok (Some b)
  | Some _ => Raise TypeError
  end.

(** One iteration of the loop over the transactions. *)
Definition save_transaction (transaction : dict) : M unit :=
  transaction_id <- fresh_uuid w ;;
  transaction_type <- lift (py_lower (get_or transaction "type" (VStr ""))) ;;
  let type_sql :=
    if type_in transaction_type income_types then Some "income"
    else if type_in transaction_type expense_types then Some "expense"
    else None in
  match type_sql with
  | None => log WARNING "Skipping transaction with unknown type"
  | Some type_sql =>
      amount <- lift (py_float (get_or transaction "amount" (VInt 0))) ;;
      body <- lift (raw_body transaction) ;;
      date_sql <- transaction_date_sql transaction ;;
      let params :=
        mk_transaction_row transaction_id
          (get_or transaction "email_id" (VStr ""))
          date_sql
          (get_or transaction "description" (VStr ""))
          (PrimFloat.abs amount)
          (get_or transaction "currency" (VStr "USD"))
          type_sql
          (get_or transaction "category" (VStr ""))
          (get_or transaction "source_sender" (VStr ""))
          (get_or transaction "source_subject" (VStr ""))
          body in
      lift (db_execute w (TransactionRow params)) ;;
      emit (Execute (TransactionRow params))
  end.

Definition save_transactions_to_database (transactions : list dict) : M bool :=
  match transactions with
  | [] => log INFO "No transactions to save" ;; ret true
  | _ =>
      try_except
        (conn <- Db.get_postgres_connection w ;;
         if negb conn then
           log ERROR "Could not connect to PostgreSQL database" ;;
           ret false
         else
           for_loop save_transaction transactions ;;
           lift (db_commit w) ;;
           emit Commit ;;
           log INFO "Successfully saved financial transactions to PostgreSQL database" ;;
           ret true)
        (fun _ =>
           log ERROR "Error saving transactions to PostgreSQL database" ;;
           ret false)
  end.

End Services.

End Finance.

(** ** services/email_reminders.py *)
Module Reminders.
Import Py Env.
Local Open Scope string_scope.
Local Open Scope io_scope.

Section Services.
Variable w : world.

(** *** extract_reminders_from_email *)

(** The three assignments the loop makes on one reminder. *)
Definition add_source (subject : value) (reminder : value) : M dict :=
  r1 <- lift (set_item reminder "source" (VStr "email")) ;;
  r2 <- lift (set_item r1 "source_subject" subject) ;;
  stamp <- isoformat_now w ;;
  match r2 with
  | VDict d => ret (dict_set d "extracted_at" (VStr stamp))
  | _ => raise TypeError
  end.

Definition extract_reminders_from_email (subject body : value) : M (list dict) :=
  try_except
    (content <- ask w (AskReminders subject body) ;;
     if String.eqb content "" || String.eqb content "[]" then ret []
     else
       reminders <- loads w content ;;
       match reminders with
       | VList items => for_list (add_source subject) items
       | _ =>
           log WARNING "Unexpected response format from Claude" ;;
           ret []
       end)
    (fun _ => log ERROR "Error extracting reminders" ;; ret []).

(** *** save_reminders_to_database *)

(** [context and 'due' not in context.lower() and 'deadline' not in
    context.lower()]; [AttributeError] for a context that is true and no
    string. *)
Definition context_lacks_deadline (context : value) : result bool :=
  if truthy context then
    match context with
    | VStr c =>
        Ok (negb (contains (lower c) "due") && negb (contains (lower c) "deadline"))
    | _ => Raise AttributeError
    end
  else Ok false.

(** [context += f" (Deadline: {deadline})"], for a context that passed the
    test above. *)
Definition with_deadline_note (context : value) (deadline : string) : value :=
  match context with
  | VStr c => VStr (c ++ " (Deadline: " ++ deadline ++ ")")
  | other => other
  end.

(** The handling of the deadline: the value of the deadline column and the
    context to store. *)
Definition deadline_and_context (reminder : dict) : M (option string * value) :=
  let context := get_or reminder "context" (VStr "") in
  let deadline := get_or reminder "deadline" VNone in
  if truthy deadline then
    match deadline with
    | VStr d =>
        if matches_iso_date d then ret (Some d, context)
        else
          match context_lacks_deadline context with
          | Ok lacks =>
              log INFO "Using NULL for deadline as it's not in YYYY-MM-DD format" ;;
              ret (None, if lacks then with_deadline_note context d else context)
          | Raise _ =>
              log WARNING "Could not process deadline" ;;
              ret (None, context)
          end
    | _ =>
        log WARNING "Could not process deadline" ;;
        ret (None, context)
    end
  else ret (None, context).

(** One iteration of the loop over the reminders. *)
Definition save_reminder (reminder : dict) : M unit :=
  reminder_id <- fresh_uuid w ;;
  dc <- deadline_and_context reminder ;;
  default_extracted_at <- isoformat_now w ;;
  created_at <- isoformat_now w ;;
  let params :=
    mk_reminder_row reminder_id
      (get_or reminder "email_id" (VStr ""))
      (get_or reminder "email_thread_id" (VStr ""))
      (get_or reminder "sender" (VStr ""))
      (get_or reminder "source_subject" (VStr ""))
      (get_or reminder "task" (VStr ""))
      (snd dc)
      (fst dc)
      (get_or reminder "priority" (VStr "medium"))
      (get_or reminder "extracted_at" (VStr default_extracted_at))
      created_at
      false in
  lift (db_execute w (ReminderRow params)) ;;
  emit (Execute (ReminderRow params)).

Definition save_reminders_to_database (reminders : list dict) : M bool :=
  match reminders with
  | [] => log INFO "No reminders to save" ;; ret true
  | _ =>
      try_except
        (conn <- Db.get_postgres_connection w ;;
         if negb conn then
           log ERROR "Could not connect to PostgreSQL database" ;;
           ret false
         else
           for_loop save_reminder reminders ;;
           lift (db_commit w) ;;
           emit Commit ;;
           log INFO "Successfully saved reminders to PostgreSQL database" ;;
           ret true)
        (fun _ =>
           log ERROR "Error saving reminders to PostgreSQL database" ;;
           ret false)
  end.

End Services.

End Reminders.

(** ** services/auto_reply_draft.py *)
Module AutoReply.
Import Py Env.
Local Open Scope string_scope.

Section Services.
Variable w : world.

(** Is the stripped, lowercased answer one that starts with yes? The call
    is not guarded: what it raises, the function raises. *)
Definition claude_should_reply (subject body : value) : result bool :=
  match llm w (AskShouldReply subject body) with
  | Raises e => Raise e
  | Text t => Ok (startswith (lower (strip t)) "yes")
  end.

Definition claude_generate_reply (subject body : value) : result string :=
  match llm w (AskReply subject body) with
  | Raises e => Raise e
  | Text t => Ok (strip t)
  end.

Local Open Scope io_scope.

(** The draft is built and handed to [drafts().create(...).execute()]. *)
Definition create_reply_draft (original_msg_id original_thread_id to subject : value)
  (body : string) : M dict :=
  let d := mk_draft original_msg_id original_thread_id to subject body in
  emit (DraftRequest d) ;;
  lift (drafts_create w d).

End Services.

End AutoReply.

(** ** services/email_tagging.py *)
Module Tagging.
Import Py Env.
Local Open Scope io_scope.

Section Services.
Variable w : world.

(** This module never imports [json]: where token.json exists, reading it
    is the evaluation of the unbound name [json]. *)
Definition get_gmail_service : M unit :=
  fun st =>
    let (outcome, token) := Mail.authorize w (Raise NameError) (token_file st) in
    (outcome, mk_state token (tick st) (events st)).

Definition tag_emails : M value :=
  labels <- lift (get_all_labels w) ;;
  get_gmail_service ;;
  lift (label_messages w labels).

End Services.

End Tagging.

(** ** services/email_analytics.py *)
Module Analytics.
Import Py Env.
Local Open Scope string_scope.
Local Open Scope io_scope.

Section Services.
Variable w : world.

(** This module's [get_gmail_service]: no token file, no service. *)
Definition get_gmail_service : M unit :=
  present <- token_file_exists ;;
  if negb present then raise (ExternalError "Gmail token not found")
  else
    match load_token w with
    | Raise _ =>
        log ERROR "Error loading credentials" ;;
        raise (ExternalError "Gmail authentication error")
    | Ok c =>
        (if expired c && refresh_token c then
           match refresh w with
           | Raise _ =>
               log ERROR "Error refreshing credentials" ;;
               raise (ExternalError "Gmail token refresh error")
           | Ok _ => ret tt
           end
         else ret tt) ;;
        lift (build_service w)
    end.

Definition extract_meetings_from_email (subject body : value) : M (list value) :=
  try_except
    (content <- ask w (AskMeetings subject body) ;;
     if String.eqb content "" || String.eqb content "[]" then ret []
     else
       meetings <- loads w content ;;
       match meetings with
       | VList items => ret items
       | _ =>
           log WARNING "Unexpected response format from Claude" ;;
           ret []
       end)
    (fun _ => log ERROR "Error extracting meetings" ;; ret []).

(** *** The ordering of the todos *)

(** [priority_values.get(p, 1)] with [priority_values] the dict
    {'high': 0, 'medium': 1, 'low': 2}. *)
Definition priority_value (p : value) : result nat :=
  match hash_key p with
  | Raise e => Raise e
  | Ok (KStr s) =>
      Ok (if String.eqb s "high" then 0
          else if String.eqb s "medium" then 1
          else if String.eqb s "low" then 2
          else 1)
  | Ok _ => Ok 1
  end.

Definition todo_sort_key (todo : dict) : result (nat * value) :=
  match priority_value (get_or todo "priority" (VStr "medium")) with
  | Raise e => Raise e
  | Ok priority => Ok (priority, get_or todo "deadline" (VStr "9999-12-31"))
  end.

(** [a < b] for two such tuples: by the first items when they differ, by
    the second ones otherwise. *)
Definition sort_key_lt (a b : nat * value) : result bool :=
  if Nat.eqb (fst a) (fst b) then
    if py_eq (snd a) (snd b) then Ok false else py_lt (snd a) (snd b)
  else Ok (Nat.ltb (fst a) (fst b)).

(** [all_todos.sort(key=todo_sort_key)] *)
Definition sort_todos (all_todos : list dict) : result (list dict) :=
  py_sort todo_sort_key sort_key_lt all_todos.

(** [all_meetings.sort(key=lambda m: m.get('date', '9999-12-31'))] *)
Definition sort_meetings (all_meetings : list dict) : result (list dict) :=
  py_sort (fun m => Ok (get_or m "date" (VStr "9999-12-31"))) py_lt all_meetings.

(** *** The ordering of the todos, as the specification words it *)





(** *** generate_email_analytics *)

Record analytics : Type := mk_analytics {
  transactions : list dict;
  summary : option Finance.summary;
  meetings : list dict;
  todos : list dict;
  needs_reply : list dict
}.

Inductive report : Type :=
| Success (message : string) (processed : nat) (a : analytics)
| Failure.

(** What the loop has gathered so far. *)
Record gathered : Type := mk_gathered {
  all_financial_data : list dict;
  all_meetings : list dict;
  all_todos : list dict;
  replies : list dict
}.

(** [for x in xs: x[k1] = v1; ...], the items being dicts already. *)
Definition set_all (pairs : list (string * value)) (d : dict) : dict :=
  fold_left (fun acc kv => dict_set acc (fst kv) (snd kv)) pairs d.

Definition as_dict (x : value) : result dict :=
  match x with
  | VDict d => Ok d
  | _ => Raise TypeError
  end.

Definition analyse_message (acc : gathered) (msg : value) : M gathered :=
  msg_data <- lift (Mail.fetch_message w msg) ;;
  m <- lift (Mail.read_message w msg_data) ;;
  let subject := Mail.m_subject m in
  let sender := Mail.m_sender m in
  let body := VStr (Mail.m_body m) in
  let email_id := Mail.m_email_id m in
  financial_data <- Finance.extract_financial_data_from_email w subject body sender ;;
  let financial_data :=
    map (set_all [("email_id", email_id); ("source_subject", subject);
                  ("source_sender", sender)]) financial_data in
  found <- extract_meetings_from_email subject body ;;
  found <- lift (Py.map_m as_dict found) ;;
  let found :=
    map (set_all [("email_id", email_id); ("source_subject", subject);
                  ("source_sender", sender)]) found in
  reminders <- Reminders.extract_reminders_from_email w subject body ;;
  reminders <-
    for_list (fun todo =>
                stamp <- isoformat_now w ;;
                ret (set_all [("email_id", email_id);
                              ("email_thread_id", Mail.m_thread_id m);
                              ("source_subject", subject); ("sender", sender);
                              ("extracted_at", VStr stamp)] todo))
      reminders ;;
  should_reply <- lift (AutoReply.claude_should_reply w subject body) ;;
  ret (mk_gathered
         (all_financial_data acc ++ financial_data)
         (all_meetings acc ++ found)
         (all_todos acc ++ reminders)
         (if should_reply then
            replies acc ++
              [[("email_id", email_id); ("thread_id", Mail.m_thread_id m);
                ("subject", subject); ("sender", sender); ("date", Mail.m_date m);
                ("snippet", get_or msg_data "snippet" (VStr ""))]]
          else replies acc)).

Fixpoint analyse_messages (acc : gathered) (messages : list value) : M gathered :=
  match messages with
  | [] => ret acc
  | msg :: rest => acc' <- analyse_message acc msg ;; analyse_messages acc' rest
  end.

(** The lines after the loop. *)
Definition finish (processed : nat) (g : gathered) : result report :=
  (financial_summary <-
     match all_financial_data g with
     | [] => Ok None
     | data => (s <- Finance.calculate_financial_summary w data ;; Ok (Some s))%py
     end ;;
   sorted_meetings <- sort_meetings (all_meetings g) ;;
   sorted_todos <- sort_todos (all_todos g) ;;
   Ok (Success "Processed emails" processed
         (mk_analytics (all_financial_data g) financial_summary sorted_meetings
            sorted_todos (replies g))))%py.

Definition generate_email_analytics (max_emails : nat) : M report :=
  try_except
    (get_gmail_service ;;
     messages <- lift (Mail.recent_messages w max_emails) ;;
     if negb (truthy messages) then
       log INFO "No emails found." ;;
       ret (Success "No emails found" 0 (mk_analytics [] None [] [] []))
     else
       visited <- lift (py_iter messages) ;;
       g <- analyse_messages (mk_gathered [] [] [] []) visited ;;
       lift (finish (List.length visited) g))
    (fun _ => log ERROR "Error generating email analytics" ;; ret Failure).

End Services.

End Analytics.

(** ** services/email_orchestrator.py *)
Module Orchestrator.
Import Py Env.
Local Open Scope string_scope.
Local Open Scope io_scope.

Section Services.
Variable w : world.

(** *** classify_email_type *)

(** [x in services] for a [str] [x]. *)
Definition among (x : string) (services : list value) : bool :=
  existsb (py_eq (VStr x)) services.

Definition classify_email_type (subject body sender : value) : M (list value) :=
  try_except
    (content <- ask w (AskServices subject body sender) ;;
     services <- loads w content ;;
     match services with
     | VList l => ret (if among "tagging" l then l else (l ++ [VStr "tagging"])%list)
     | _ =>
         log WARNING "Unexpected response format from Claude" ;;
         ret [VStr "tagging"]
     end)
    (fun _ => log ERROR "Error classifying email" ;; ret [VStr "tagging"]).

(** *** process_email *)

(** {"found": ..., "items": ..., "saved_to_db": ...} *)
Record extraction : Type := mk_extraction {
  found : nat;
  items : list dict;
  saved_to_db : bool
}.

(** The slot "auto_reply": {"should_reply": False}, or the reply with
    "draft_created" true, the draft's id and its URL (the id after
    https://mail.google.com/mail/u/0/#drafts/), or the reply with
    "draft_created" false. *)
Inductive auto_reply_slot : Type :=
| NoReplyNeeded
| Drafted (reply_body : string) (draft_id : value)
| NotDrafted (reply_body : string).

Record results : Type := mk_results {
  email_id : value;
  thread_id : value;
  subject : value;
  sender : value;
  date : value;
  services_used : list value;
  reminders : option extraction;
  finance : option extraction;
  auto_reply : option auto_reply_slot
}.

(** What [process_email] returns: the merged result (its slot "tagging" is
    always {"status": "requested"}), or {"status": "error", "message",
    "email_id"}. *)
Inductive email_result : Type :=
| Processed (r : results)
| Failed (message : string) (failed_email_id : value).

Definition set_all (pairs : list (string * value)) (d : dict) : dict :=
  fold_left (fun acc kv => dict_set acc (fst kv) (snd kv)) pairs d.

Definition process_reminders (m : Mail.message) (save_to_db : bool) : M extraction :=
  reminders <- Reminders.extract_reminders_from_email w (Mail.m_subject m)
                 (VStr (Mail.m_body m)) ;;
  let reminders :=
    map (set_all [("email_id", Mail.m_email_id m);
                  ("email_thread_id", Mail.m_thread_id m);
                  ("sender", Mail.m_sender m); ("date", Mail.m_date m)])
      reminders in
  match save_to_db, reminders with
  | true, _ :: _ =>
      save_success <- Reminders.save_reminders_to_database w reminders ;;
      ret (mk_extraction (List.length reminders) reminders save_success)
  | _, _ => ret (mk_extraction (List.length reminders) reminders false)
  end.

Definition process_finance (m : Mail.message) (save_to_db : bool) : M extraction :=
  transactions <- Finance.extract_financial_data_from_email w (Mail.m_subject m)
                    (VStr (Mail.m_body m)) (Mail.m_sender m) ;;
  let transactions :=
    map (set_all [("email_id", Mail.m_email_id m);
                  ("email_thread_id", Mail.m_thread_id m);
                  ("email_date", Mail.m_date m);
                  ("body", VStr (Mail.m_body m))])
      transactions in
  match save_to_db, transactions with
  | true, _ :: _ =>
      save_success <- Finance.save_transactions_to_database w transactions ;;
      ret (mk_extraction (List.length transactions) transactions save_success)
  | _, _ => ret (mk_extraction (List.length transactions) transactions false)
  end.

Definition process_auto_reply (m : Mail.message) (save_to_db : bool)
  : M auto_reply_slot :=
  should_reply <-
    lift (AutoReply.claude_should_reply w (Mail.m_subject m) (VStr (Mail.m_body m))) ;;
  if should_reply then
    reply_body <-
      lift (AutoReply.claude_generate_reply w (Mail.m_subject m)
              (VStr (Mail.m_body m))) ;;
    if save_to_db then
      created <- AutoReply.create_reply_draft w (Mail.m_email_id m)
                   (Mail.m_thread_id m) (Mail.m_sender m) (Mail.m_subject m)
                   reply_body ;;
      draft_id <- lift (get_item (VDict created) "id") ;;
      ret (Drafted reply_body draft_id)
    else ret (NotDrafted reply_body)
  else ret NoReplyNeeded.

(** [branch() if name in services else None] *)
Definition when_among {A : Type} (name : string) (services : list value)
  (branch : M A) : M (option A) :=
  if among name services then (a <- branch ;; ret (Some a)) else ret None.

(** The body of the [try]. *)
Definition pipeline (msg_data : dict) (save_to_db : bool) : M results :=
  m <- lift (Mail.read_message w msg_data) ;;
  services <- classify_email_type (Mail.m_subject m) (VStr (Mail.m_body m))
                (Mail.m_sender m) ;;
  log INFO "Processing email with services" ;;
  Mail.get_gmail_service w ;;
  reminders <- when_among "reminders" services (process_reminders m save_to_db) ;;
  finance <- when_among "finance" services (process_finance m save_to_db) ;;
  auto_reply <- when_among "auto_reply" services (process_auto_reply m save_to_db) ;;
  ret (mk_results (Mail.m_email_id m) (Mail.m_thread_id m) (Mail.m_subject m)
         (Mail.m_sender m) (Mail.m_date m) services reminders finance auto_reply).

Definition process_email (msg_data : dict) (save_to_db : bool) : M email_result :=
  try_except
    (r <- pipeline msg_data save_to_db ;; ret (Processed r))
    (fun _ =>
       log ERROR "Error processing email" ;;
       ret (Failed "Error processing email" (get_or msg_data "id" (VStr "unknown")))).

(** *** process_recent_emails *)

(** {"status": "success", ...} or {"status": "error", "message": ...}. *)
Inductive batch_result : Type :=
| BatchSuccess (message : string) (processed : nat) (tagging_result : option value)
    (results : list email_result)
| BatchError (message : string).

Definition process_message (save_to_db : bool) (msg : value) : M email_result :=
  msg_data <- lift (Mail.fetch_message w msg) ;;
  process_email msg_data save_to_db.

Definition process_recent_emails (max_emails : nat) (save_to_db : bool)
  : M batch_result :=
  try_except
    (Mail.get_gmail_service w ;;
     messages <- lift (Mail.recent_messages w max_emails) ;;
     if negb (truthy messages) then
       log INFO "No emails found." ;;
       ret (BatchSuccess "No emails found" 0 None [])
     else
       visited <- lift (py_iter messages) ;;
       results <- for_list (process_message save_to_db) visited ;;
       tag_result <- Tagging.tag_emails w ;;
       ret (BatchSuccess "Processed emails" (List.length visited) (Some tag_result)
              results))
    (fun _ => log ERROR "Error processing emails" ;; ret (BatchError "Error processing emails")).

End Services.

End Orchestrator.

(** ** services/auto_reply_draft.py: process_emails *)
Module AutoReplyBatch.
Import Py Env.
Local Open Scope string_scope.
Local Open Scope io_scope.

(** An entry of "drafts"; its "draft_url" is
    https://mail.google.com/mail/u/0/#drafts/ followed by the draft id. *)
Record draft_detail : Type := mk_detail {
  dd_email_id : value;
  dd_subject : value;
  dd_sender : value;
  dd_draft_id : value
}.

(** {"status": "success", ...}, where "drafts" is missing from the answer
    on an empty mailbox, or {"status": "error", "message": ...}. *)
Inductive report : Type :=
| Success (message : string) (processed drafts_created : nat)
    (drafts : option (list draft_detail))
| Failure (message : string).

(** The three variables of the loop. *)
Record tally : Type := mk_tally {
  processed : nat;
  drafts_created : nat;
  draft_details : list draft_detail
}.

Section Services.
Variable w : world.

(** The body of [for msg in messages]. *)
Definition reply_to_message (acc : tally) (msg : value) : M tally :=
  let processed := S (processed acc) in
  msg_data <- lift (Mail.fetch_message w msg) ;;
  payload <- lift (get_item (VDict msg_data) "payload") ;;
  headers <- lift (get_item payload "headers") ;;
  visited <- lift (py_iter headers) ;;
  subject <- lift (Mail.find_header visited "subject") ;;
  sender <- lift (Mail.find_header visited "from") ;;
  body <- lift (Mail.get_body w payload) ;;
  should_reply <- lift (AutoReply.claude_should_reply w subject (VStr body)) ;;
  if should_reply then
    reply_body <- lift (AutoReply.claude_generate_reply w subject (VStr body)) ;;
    original_msg_id <- lift (get_item (VDict msg_data) "id") ;;
    original_thread_id <- lift (get_item (VDict msg_data) "threadId") ;;
    draft <- AutoReply.create_reply_draft w original_msg_id original_thread_id sender
               subject reply_body ;;
    let drafts_created := S (drafts_created acc) in
    draft_id <- lift (get_item (VDict draft) "id") ;;
    log INFO "Created draft reply" ;;
    ret (mk_tally processed drafts_created
           (draft_details acc ++ [mk_detail original_msg_id subject sender draft_id]))
  else
    log INFO "No reply needed" ;;
    ret (mk_tally processed (drafts_created acc) (draft_details acc)).

Fixpoint reply_to_messages (acc : tally) (messages : list value) : M tally :=
  match messages with
  | [] => ret acc
  | msg :: rest => acc' <- reply_to_message acc msg ;; reply_to_messages acc' rest
  end.

Definition process_emails (max_emails : nat) : M report :=
  try_except
    (Mail.get_gmail_service w ;;
     messages <- lift (Mail.recent_messages w max_emails) ;;
     if negb (truthy messages) then
       log INFO "No emails found." ;;
       ret (Success "No emails found" 0 0 None)
     else
       visited <- lift (py_iter messages) ;;
       t <- reply_to_messages (mk_tally 0 0 []) visited ;;
       ret (Success "Processed emails" (processed t) (drafts_created t)
              (Some (draft_details t))))
    (fun _ => log ERROR "Error processing emails" ;; ret (Failure "Error processing emails")).

End Services.

End AutoReplyBatch.

(** ** services/email_reminders.py: extract_reminders_from_emails *)
Module RemindersBatch.
Import Py Env.
Local Open Scope string_scope.
Local Open Scope io_scope.

Inductive report : Type :=
| Success (message : string) (processed reminders_found : nat) (reminders : list dict)
| Failure (message : string).

(** The two variables of the loop. *)
Record gathered : Type := mk_gathered {
  processed : nat;
  all_reminders : list dict
}.

Section Services.
Variable w : world.

(** The loop over the reminders of one message; [msg_data['id']] and
    [msg_data['threadId']] are looked up when there is a reminder to
    mark. *)
Definition add_metadata (msg_data : dict) (sender date : value) (reminders : list dict)
  : result (list dict) :=
  match reminders with
  | [] => Ok []
  | _ =>
      (email_id <- get_item (VDict msg_data) "id" ;;
       thread_id <- get_item (VDict msg_data) "threadId" ;;
       Ok (map (Orchestrator.set_all
                  [("email_id", email_id); ("email_thread_id", thread_id);
                   ("sender", sender); ("date", date)])
             reminders))%py
  end.

(** The body of [for msg in messages]. *)
Definition gather_message (acc : gathered) (msg : value) : M gathered :=
  let processed := S (processed acc) in
  msg_data <- lift (Mail.fetch_message w msg) ;;
  payload <- lift (get_item (VDict msg_data) "payload") ;;
  headers <- lift (get_item payload "headers") ;;
  visited <- lift (py_iter headers) ;;
  subject <- lift (Mail.find_header visited "subject") ;;
  sender <- lift (Mail.find_header visited "from") ;;
  date <- lift (Mail.find_header visited "date") ;;
  body <- lift (Mail.get_body w payload) ;;
  reminders <- Reminders.extract_reminders_from_email w subject (VStr body) ;;
  reminders <- lift (add_metadata msg_data sender date reminders) ;;
  match reminders with
  | [] =>
      log INFO "No reminders found in email" ;;
      ret (mk_gathered processed (all_reminders acc))
  | _ =>
      log INFO "Found reminders in email" ;;
      ret (mk_gathered processed (all_reminders acc ++ reminders))
  end.

Fixpoint gather_messages (acc : gathered) (messages : list value) : M gathered :=
  match messages with
  | [] => ret acc
  | msg :: rest => acc' <- gather_message acc msg ;; gather_messages acc' rest
  end.

Definition extract_reminders_from_emails (max_emails : nat) : M report :=
  try_except
    (Mail.get_gmail_service w ;;
     messages <- lift (Mail.recent_messages w max_emails) ;;
     if negb (truthy messages) then
       log INFO "No emails found." ;;
       ret (Success "No emails found" 0 0 [])
     else
       visited <- lift (py_iter messages) ;;
       g <- gather_messages (mk_gathered 0 []) visited ;;
       ret (Success "Processed emails" (processed g) (List.length (all_reminders g))
              (all_reminders g)))
    (fun _ =>
       log ERROR "Error processing emails for reminders" ;;
       ret (Failure "Error processing emails for reminders")).

End Services.

End RemindersBatch.

(** ** services/email_finance.py: analyze_financial_emails *)
Module FinanceBatch.
Import Py Env.
Local Open Scope string_scope.
Local Open Scope io_scope.

(** "summary": on an empty mailbox the five fields total_income 0,
    total_expenses 0, net_cash_flow 0, currency "USD" and period "Last N
    days", N being [days_back]; otherwise what [calculate_financial_summary]
    returns. *)
Inductive summary : Type :=
| Short (days_back : Z)
| Full (s : Finance.summary).

Inductive report : Type :=
| Success (message : string) (processed transactions_found : nat)
    (transactions : list dict) (s : summary)
| Failure (message : string).

(** The two variables of the loop. *)
Record gathered : Type := mk_gathered {
  processed : nat;
  all_transactions : list dict
}.

Section Services.
Variable w : world.

(** [(datetime.now() - timedelta(days=days_back)).strftime('%Y/%m/%d')] at
    a reading of the clock, and [messages().list(userId='me',
    maxResults=..., q=...).execute()]. *)
Variable date_filter : nat -> Z -> result string.
Variable messages_search : nat -> string -> result dict.

(** The loop over the transactions of one message; [msg_data['id']] and
    [msg_data['threadId']] are looked up when there is a transaction to
    mark. *)
Definition add_metadata (msg_data : dict) (date : value) (transactions : list dict)
  : result (list dict) :=
  match transactions with
  | [] => Ok []
  | _ =>
      (email_id <- get_item (VDict msg_data) "id" ;;
       thread_id <- get_item (VDict msg_data) "threadId" ;;
       Ok (map (Orchestrator.set_all
                  [("email_id", email_id); ("email_thread_id", thread_id);
                   ("email_date", date)])
             transactions))%py
  end.

(** The body of [for msg in messages]. *)
Definition gather_message (acc : gathered) (msg : value) : M gathered :=
  let processed := S (processed acc) in
  msg_data <- lift (Mail.fetch_message w msg) ;;
  payload <- lift (get_item (VDict msg_data) "payload") ;;
  headers <- lift (get_item payload "headers") ;;
  visited <- lift (py_iter headers) ;;
  subject <- lift (Mail.find_header visited "subject") ;;
  sender <- lift (Mail.find_header visited "from") ;;
  date <- lift (Mail.find_header visited "date") ;;
  body <- lift (Mail.get_body w payload) ;;
  transactions <- Finance.extract_financial_data_from_email w subject (VStr body) sender ;;
  transactions <- lift (add_metadata msg_data date transactions) ;;
  match transactions with
  | [] =>
      log INFO "No financial data found in email" ;;
      ret (mk_gathered processed (all_transactions acc))
  | _ =>
      log INFO "Found financial transactions in email" ;;
      ret (mk_gathered processed (all_transactions acc ++ transactions))
  end.

Fixpoint gather_messages (acc : gathered) (messages : list value) : M gathered :=
  match messages with
  | [] => ret acc
  | msg :: rest => acc' <- gather_message acc msg ;; gather_messages acc' rest
  end.


End Services.

End FinanceBatch.

(** ** routes/email_finance.py and routes/email_reminders.py *)
Module Routes.
Import Py Env.
Local Open Scope string_scope.
Local Open Scope io_scope.

(** What a route answers: the body it returns, or the HTTPException it
    raises. *)
Inductive answer (A : Type) : Type :=
| Body (a : A)
| HTTPException (status_code : nat) (detail : string).

Arguments Body {A} a.
Arguments HTTPException {A} status_code detail.

Section Services.
Variable w : world.
Variable date_filter : nat -> Z -> result string.
Variable messages_search : nat -> string -> result dict.


(** POST /email-finance/save *)
Definition save_transactions (transactions : list dict) : M (answer string) :=
  match transactions with
  | [] => ret (Body "No transactions to save")
  | _ =>
      success <- Finance.save_transactions_to_database w transactions ;;
      if negb success then
        ret (HTTPException 500 "Failed to save transactions to database")
      else ret (Body "Saved transactions to database")
  end.

(** POST /email-reminders/extract *)
Definition extract_reminders (max_emails : nat) : M (answer RemindersBatch.report) :=
  result <- RemindersBatch.extract_reminders_from_emails w max_emails ;;
  match result with
  | RemindersBatch.Failure message => ret (HTTPException 500 message)
  | _ => ret (Body result)
  end.

(** POST /email-reminders/save, on a list of JSON objects. *)
Definition save_reminders (reminders : list dict) : M (answer string) :=
  success <- Reminders.save_reminders_to_database w reminders ;;
  if negb success then
    ret (HTTPException 500 "Failed to save reminders to database")
  else ret (Body "Saved reminders to database").

End Services.

End Routes.

(** ** routes/email_orchestrator.py: process_single_email *)
Module SingleEmail.
Import Py Env Routes.
Local Open Scope string_scope.

(** What the body of the [try] can raise: an exception of Python or of a
    library, or the HTTPException the route raises itself; both are
    subclasses of [Exception]. *)
Inductive raised : Type :=
| Raised (e : exn)
| RaisedHTTP (status_code : nat) (detail : string).

Inductive attempt (A : Type) : Type :=
| Done (a : A)
| Failed (r : raised).

Arguments Done {A} a.
Arguments Failed {A} r.

Definition of_result {A : Type} (r : result A) : attempt A :=
  match r with
  | Ok a => Done a
  | Raise e => Failed (Raised e)
  end.

Section Services.
Variable w : world.

(** [str(e)] in the handler. *)
Variable describe : raised -> string.

(** The credentials of the route: token.json is read when it exists; the
    credentials are refreshed when they are expired and can be; without
    usable credentials the route raises 401. Nothing is written. *)
Definition credentials (token : bool) : attempt unit :=
  let loaded : result (option creds) :=
    if token then (c <- load_token w ;; Ok (Some c))%py else Ok None in
  match loaded with
  | Raise e => Failed (Raised e)
  | Ok None => Failed (RaisedHTTP 401 "Gmail authentication required")
  | Ok (Some c) =>
      if valid c then Done tt
      else if expired c && refresh_token c then of_result (refresh w)
      else Failed (RaisedHTTP 401 "Gmail authentication required")
  end.

(** The body of the [try]. *)
Definition attempt_email (email_id : string) (save_to_db : bool) (st : state)
  : attempt Orchestrator.results * state :=
  match credentials (token_file st) with
  | Failed r => (Failed r, st)
  | Done _ =>
      match build_service w with
      | Raise e => (Failed (Raised e), st)
      | Ok _ =>
          match messages_get w (VStr email_id) with
          | Raise e => (Failed (Raised e), st)
          | Ok msg_data =>
              match Orchestrator.process_email w msg_data save_to_db st with
              | (Raise e, st') => (Failed (Raised e), st')
              | (Ok (Orchestrator.Failed message _), st') =>
                  (Failed (RaisedHTTP 500 message), st')
              | (Ok (Orchestrator.Processed r), st') => (Done r, st')
              end
          end
      end
  end.

Definition process_single_email (email_id : string) (save_to_db : bool) (st : state)
  : answer Orchestrator.results * state :=
  match attempt_email email_id save_to_db st with
  | (Done r, st') => (Body r, st')
  | (Failed r, st') =>
      (HTTPException 500 ("Error processing email: " ++ describe r), st')
  end.

End Services.

End SingleEmail.


(** ** routes/recent_emails.py: the name and the initials of a sender *)
Module RecentEmails.
Import Py.
Local Open Scope string_scope.
Local Open Scope py_scope.

(** The text before the first [c], when [c] occurs. *)
Fixpoint before_char (c : ascii) (s : string) : option string :=
  match s with
  | EmptyString => None
  | String a rest =>
      if Ascii.eqb a c then Some EmptyString
      else option_map (String a) (before_char c rest)
  end.

(** [s] without the [c]s it starts with. *)
Fixpoint skip_char (c : ascii) (s : string) : string :=
  match s with
  | EmptyString => EmptyString
  | String a rest => if Ascii.eqb a c then skip_char c rest else s
  end.

(** [re.match(r'^([^<]+)<', sender)]: its group, the text before the first
    '<' when that text is not empty. *)
Definition name_match (sender : string) : option string :=
  match before_char "<" sender with
  | Some (String a name) => Some (String a name)
  | _ => None
  end.

(** [re.search(r'([^@]+)@', sender)]: its group, in the leftmost match: the
    text between the '@'s the sender starts with, if any, and the next
    '@'. *)
Definition email_match (sender : string) : option string :=
  before_char "@" (skip_char "@" sender).

(** [re.split(r'[._-]', s)] *)
Definition is_separator (c : ascii) : bool :=
  Ascii.eqb c "." || Ascii.eqb c "_" || Ascii.eqb c "-".

Fixpoint split_where (sep : ascii -> bool) (s : string) : list string :=
  match s with
  | EmptyString => [EmptyString]
  | String a rest =>
      if sep a then EmptyString :: split_where sep rest
      else
        match split_where sep rest with
        | part :: parts => String a part :: parts
        | [] => [String a EmptyString]
        end
  end.

(** [sep.join(parts)] *)
Fixpoint join (sep : string) (parts : list string) : string :=
  match parts with
  | [] => EmptyString
  | [part] => part
  | part :: rest => part ++ sep ++ join sep rest
  end.

(** [s.split()]: the maximal runs of characters that are no whitespace. *)
Fixpoint words (s : string) : list string :=
  match s with
  | EmptyString => []
  | String c rest =>
      if is_space c then words rest
      else
        match rest with
        | EmptyString => [String c EmptyString]
        | String d _ =>
            if is_space d then String c EmptyString :: words rest
            else
              match words rest with
              | word :: others => String c word :: others
              | [] => [String c EmptyString]
              end
        end
  end.

(** [s[0]] *)
Definition first_char (s : string) : result string :=
  match s with
  | EmptyString => Raise IndexError
  | String c _ => Ok (String c EmptyString)
  end.

Section Services.

(** [str.upper] and [str.capitalize]: the case mappings of Unicode, which
    take some code points below 256 beyond 256 and one to two letters. *)
Variable upper : string -> string.
Variable capitalize : string -> string.

Definition extract_sender_name (sender : string) : string :=
  match name_match sender with
  | Some name => strip name
  | None =>
      match email_match sender with
      | Some email_name =>
          join " " (map capitalize (split_where is_separator email_name))
      | None => sender
      end
  end.

Definition get_sender_initials (name : string) : result string :=
  match words name with
  | first :: second :: _ =>
      a <- first_char first ;;
      b <- first_char second ;;
      Ok (upper (a ++ b))
  | [word] =>
      if (2 <=? String.length word)%nat then Ok (upper (substring 0 2 word))
      else Ok "??"
  | [] => Ok "??"
  end.

End Services.

End RecentEmails.


(** ** services/email_tagging.py: claude_multi_label *)
Module Labels.
Import Py Env.
Local Open Scope string_scope.
Local Open Scope py_scope.

(** [s.split(",")] *)
Fixpoint split_on (sep : ascii) (s : string) : list string :=
  match s with
  | EmptyString => [EmptyString]
  | String a rest =>
      if Ascii.eqb a sep then EmptyString :: split_on sep rest
      else
        match split_on sep rest with
        | part :: parts => String a part :: parts
        | [] => [String a EmptyString]
        end
  end.

Section Services.

(** The answer of the classifier to the prompt built from the labels and
    the text of the email. *)
Variable answer : list dict -> value -> reply.

(** The line of one label in the prompt needs its name and its
    description. *)
Definition described (label : dict) : result unit :=
  _ <- get_item (VDict label) "name" ;;
  _ <- get_item (VDict label) "description" ;;
  Ok tt.

(** [[l.strip() for l in content.split(",") if l.strip()]] *)
Definition label_names (content : string) : list string :=
  map strip (filter (fun l => negb (String.eqb (strip l) "")) (split_on "," content)).

Definition claude_multi_label (labels : list dict) (email_text : value)
  : result (list string) :=
  _ <- map_m described labels ;;
  match answer labels email_text with
  | Raises e => Raise e
  | Text t =>
      let content := lower (strip t) in
      if String.eqb content "none" then Ok [] else Ok (label_names content)
  end.

End Services.

End Labels.

(** ** Facts about the Python fragment *)
Module PyFacts.
Import Py.

Lemma sf_eqb_eq (a b : spec_float) : sf_eqb a b = true <-> a = b.
Proof.
  destruct a as [s|s| |s m e], b as [t|t| |t n f]; simpl;
    try (split; [discriminate | congruence]);
    try (destruct s, t; simpl; split; congruence).
  - split; reflexivity.
  - rewrite !andb_true_iff, Pos.eqb_eq, Z.eqb_eq, Bool.eqb_true_iff. split.
    + intros [[-> ->] ->]. reflexivity.
    + intros H. inversion H. auto.
Qed.

Lemma hkey_eqb_eq (a b : hkey) : hkey_eqb a b = true <-> a = b.
Proof.
  destruct a, b; simpl; try (split; [discriminate | congruence]).
  - split; reflexivity.
  - rewrite Z.eqb_eq. split; congruence.
  - rewrite sf_eqb_eq. split; congruence.
  - rewrite String.eqb_eq. split; congruence.
Qed.

Lemma hkey_eqb_refl (a : hkey) : hkey_eqb a a = true.
Proof. now apply hkey_eqb_eq. Qed.

Lemma hkey_eqb_neq (a b : hkey) : hkey_eqb a b = false <-> a <> b.
Proof.
  split.
  - intros H E. apply hkey_eqb_eq in E. congruence.
  - intros H. destruct (hkey_eqb a b) eqn:E; [apply hkey_eqb_eq in E; contradiction | reflexivity].
Qed.

Lemma hkey_eqb_sym (a b : hkey) : hkey_eqb a b = hkey_eqb b a.
Proof.
  destruct (hkey_eqb a b) eqn:E.
  - apply hkey_eqb_eq in E. subst. now rewrite hkey_eqb_refl.
  - symmetry. apply hkey_eqb_neq. apply hkey_eqb_neq in E. congruence.
Qed.

Section KeyedDictFacts.
Variable V : Type.
Implicit Types (m : kdict V) (k : hkey).

Definition keys m : list hkey := map fst m.

Lemma lookup_app m m' k :
  lookup (m ++ m') k = match lookup m k with Some v => Some v | None => lookup m' k end.
Proof.
  induction m as [|[k' v] m IH]; simpl; [reflexivity|].
  destruct (hkey_eqb k' k); auto.
Qed.

Lemma lookup_update m k f k' :
  lookup (update m k f) k' =
  if hkey_eqb k k' then option_map f (lookup m k') else lookup m k'.
Proof.
  induction m as [|[k0 v] m IH]; simpl.
  - now destruct (hkey_eqb k k').
  - destruct (hkey_eqb k0 k) eqn:E0.
    + apply hkey_eqb_eq in E0. subst k0. simpl.
      destruct (hkey_eqb k k'); reflexivity.
    + simpl. destruct (hkey_eqb k0 k') eqn:E1.
      * apply hkey_eqb_eq in E1. subst k0.
        rewrite hkey_eqb_sym, E0. reflexivity.
      * exact IH.
Qed.

(** [if k not in m: m[k] = d] followed by [m[k] = f(m[k])]. *)
Lemma lookup_upsert m k (d : V) f k' :
  lookup (update (init_key m k d) k f) k' =
  if hkey_eqb k k'
  then Some (f (match lookup m k with Some v => v | None => d end))
  else lookup m k'.
Proof.
  rewrite lookup_update. unfold init_key.
  destruct (hkey_eqb k k') eqn:E.
  - apply hkey_eqb_eq in E. subst k'.
    destruct (lookup m k) eqn:L; simpl.
    + now rewrite L.
    + rewrite lookup_app, L. simpl. now rewrite hkey_eqb_refl.
  - destruct (lookup m k) eqn:L; [reflexivity|].
    rewrite lookup_app. simpl. rewrite E. now destruct (lookup m k').
Qed.

Lemma keys_update m k f : keys (update m k f) = keys m.
Proof.
  induction m as [|[k0 v] m IH]; simpl; [reflexivity|].
  destruct (hkey_eqb k0 k); simpl; [reflexivity | now f_equal].
Qed.

Lemma lookup_None m k : lookup m k = None <-> ~ In k (keys m).
Proof.
  induction m as [|[k0 v] m IH]; simpl; [tauto|].
  destruct (hkey_eqb k0 k) eqn:E.
  - apply hkey_eqb_eq in E. split; [discriminate | intros H; exfalso; auto].
  - apply hkey_eqb_neq in E. rewrite IH. tauto.
Qed.

Lemma NoDup_keys_upsert m k (d : V) f :
  NoDup (keys m) -> NoDup (keys (update (init_key m k d) k f)).
Proof.
  intros H. rewrite keys_update. unfold init_key.
  destruct (lookup m k) eqn:L; [exact H|].
  unfold keys. rewrite map_app. simpl.
  apply NoDup_app_remove_l with (l := []). simpl.
  apply Permutation_NoDup with (l := k :: map fst m).
  - apply Permutation_cons_append.
  - constructor; [now apply lookup_None | exact H].
Qed.

Lemma lookup_In m k v : NoDup (keys m) -> In (k, v) m -> lookup m k = Some v.
Proof.
  induction m as [|[k0 v0] m IH]; simpl; [tauto|].
  intros ND [E | HIn].
  - inversion E; subst. now rewrite hkey_eqb_refl.
  - inversion ND as [|? ? Hn ND']; subst.
    destruct (hkey_eqb k0 k) eqn:E.
    + apply hkey_eqb_eq in E. subst k0. exfalso. apply Hn.
      change k with (fst (k, v)). now apply in_map.
    + auto.
Qed.

Lemma In_lookup m k v : lookup m k = Some v -> In (k, v) m.
Proof.
  induction m as [|[k0 v0] m IH]; simpl; [discriminate|].
  destruct (hkey_eqb k0 k) eqn:E.
  - apply hkey_eqb_eq in E. intros H. inversion H; subst. now left.
  - auto.
Qed.

End KeyedDictFacts.

Local Open Scope float_scope.

Lemma SFltb_negatively_transitive (a b c : spec_float) :
  SFltb a b = false -> SFltb a c = true -> SFltb c b = false.
Proof.
  unfold SFltb, SFcompare.
  destruct a as [sa|sa| |sa ma ea], b as [sb|sb| |sb mb eb], c as [sc|sc| |sc mc ec];
    try destruct sa; try destruct sb; try destruct sc; simpl; try congruence;
    change (PosDef.Pos.compare_cont Eq) with Pos.compare;
    repeat match goal with
           | |- context [Z.compare ?x ?y] => destruct (Z.compare_spec x y)
           | |- context [Pos.compare ?x ?y] => destruct (Pos.compare_spec x y)
           end; simpl; subst; try congruence; try lia.
Qed.

Lemma ltb_negatively_transitive (a b c : float) :
  PrimFloat.ltb a b = false -> PrimFloat.ltb a c = true -> PrimFloat.ltb c b = false.
Proof. rewrite !ltb_spec. apply SFltb_negatively_transitive. Qed.


End PyFacts.


(** ** Facts about sorting *)
Module SortFacts.
Import Py.
Local Open Scope py_scope.

Section InsertionSort.
Variables A K : Type.
Variable key : A -> result K.
Variable lt : K -> K -> result bool.

(** Whatever the keys and the comparison, a sort that returns has permuted
    its input. *)
Lemma insert_permutation (x : K * A) (sorted : list (K * A)) : forall out,
  insert lt x sorted = Ok out -> Permutation (x :: sorted) out.
Proof.
  induction sorted as [|y rest IH]; simpl; intros out H.
  - inversion H. apply Permutation_refl.
  - destruct (lt (fst x) (fst y)) as [[|]|e]; simpl in H; try discriminate.
    + inversion H. apply Permutation_refl.
    + destruct (insert lt x rest) as [rest'|e]; simpl in H; [|discriminate].
      inversion H. subst out.
      eapply Permutation_trans; [apply perm_swap|].
      apply perm_skip. now apply IH.
Qed.

Lemma insert_all_permutation (xs : list (K * A)) : forall acc out,
  for_each (fun acc x => insert lt x acc) xs acc = Ok out ->
  Permutation (xs ++ acc) out.
Proof.
  induction xs as [|x xs IH]; simpl; intros acc out H.
  - inversion H. apply Permutation_refl.
  - destruct (insert lt x acc) as [acc'|e] eqn:E; simpl in H; [|discriminate].
    apply IH in H. apply insert_permutation in E.
    eapply Permutation_trans; [|exact H].
    eapply Permutation_trans; [apply Permutation_middle|].
    apply Permutation_app_head. exact E.
Qed.

Lemma keyed_snd (xs : list A) : forall keyed,
  map_m (fun x => k <- key x ;; Ok (k, x)) xs = Ok keyed ->
  map snd keyed = xs /\ Forall (fun kx => key (snd kx) = Ok (fst kx)) keyed.
Proof.
  induction xs as [|x xs IH]; simpl; intros keyed H.
  - inversion H. split; [reflexivity | constructor].
  - destruct (key x) as [k|e] eqn:E; simpl in H; [|discriminate].
    destruct (map_m _ xs) as [rest|e]; simpl in H; [|discriminate].
    inversion H. subst keyed. destruct (IH rest eq_refl) as [IH1 IH2].
    split; [simpl; now f_equal | constructor; [exact E | exact IH2]].
Qed.

Lemma py_sort_permutation (xs out : list A) :
  py_sort key lt xs = Ok out -> Permutation xs out.
Proof.
  unfold py_sort. intros H.
  destruct (map_m _ xs) as [keyed|e] eqn:E1; simpl in H; [|discriminate].
  destruct (for_each _ keyed []) as [sorted|e] eqn:E2; simpl in H; [|discriminate].
  inversion H. apply keyed_snd in E1 as [E1 _]. rewrite <- E1.
  apply Permutation_map. apply insert_all_permutation in E2.
  now rewrite app_nil_r in E2.
Qed.

(** Keys that the comparison orders: [leb] is a total preorder on them,
    and [a < b] is "not [b <= a]". *)
Variable good : K -> Prop.
Variable leb : K -> K -> bool.
Hypothesis leb_total : forall a b, good a -> good b -> leb a b = true \/ leb b a = true.
Hypothesis leb_trans : forall a b c,
  good a -> good b -> good c -> leb a b = true -> leb b c = true -> leb a c = true.
Hypothesis lt_leb : forall a b, good a -> good b -> lt a b = Ok (negb (leb b a)).

Definition ordered (x y : K * A) : Prop := leb (fst x) (fst y) = true.

Lemma insert_sorted (x : K * A) (sorted : list (K * A)) :
  good (fst x) -> Forall (fun y => good (fst y)) sorted ->
  StronglySorted ordered sorted ->
  exists out, insert lt x sorted = Ok out /\ StronglySorted ordered out.
Proof.
  intros Gx. induction sorted as [|y rest IH]; simpl; intros G S.
  - eexists. split; [reflexivity|]. repeat constructor.
  - inversion G as [|? ? Gy Grest]; subst. inversion S as [|? ? Srest Hy]; subst.
    rewrite (lt_leb Gx Gy).
    destruct (leb (fst y) (fst x)) eqn:L; simpl.
    + destruct (IH Grest Srest) as (out & E & So). rewrite E. simpl.
      eexists. split; [reflexivity|]. constructor; [exact So|].
      apply insert_permutation in E.
      eapply Permutation_Forall; [exact E|].
      constructor; [exact L | exact Hy].
    + eexists. split; [reflexivity|].
      assert (Lxy : leb (fst x) (fst y) = true).
      { destruct (leb_total Gx Gy) as [H|H]; [exact H | congruence]. }
      constructor; [exact S|]. constructor; [exact Lxy|].
      rewrite Forall_forall in *. intros z Hz. unfold ordered.
      eapply (@leb_trans (fst x) (fst y) (fst z)); auto.
      apply (Hy z Hz).
Qed.

Lemma insert_all_sorted (xs : list (K * A)) : forall acc,
  Forall (fun y => good (fst y)) xs -> Forall (fun y => good (fst y)) acc ->
  StronglySorted ordered acc ->
  exists out,
    for_each (fun acc x => insert lt x acc) xs acc = Ok out
    /\ StronglySorted ordered out.
Proof.
  induction xs as [|x xs IH]; simpl; intros acc Gxs Gacc S.
  - eexists. split; [reflexivity | exact S].
  - inversion Gxs as [|? ? Gx Grest]; subst.
    destruct (@insert_sorted x acc Gx Gacc S) as (acc' & E & S').
    rewrite E. simpl. apply IH; [exact Grest | | exact S'].
    apply insert_permutation in E.
    eapply Permutation_Forall; [exact E|]. now constructor.
Qed.

(** On items whose keys are computed and ordered, the sort returns the
    items in ascending order of their keys. *)
Lemma py_sort_sorted (xs : list A) (keyed : list (K * A)) :
  map_m (fun x => k <- key x ;; Ok (k, x)) xs = Ok keyed ->
  Forall (fun y => good (fst y)) keyed ->
  exists sorted,
    py_sort key lt xs = Ok (map snd sorted)
    /\ StronglySorted ordered sorted
    /\ Forall (fun kx => key (snd kx) = Ok (fst kx)) sorted.
Proof.
  intros E G. unfold py_sort. rewrite E. simpl.
  destruct (@insert_all_sorted keyed [] G) as (sorted & E2 & S);
    [constructor | constructor |].
  rewrite E2. simpl. exists sorted. split; [reflexivity|]. split; [exact S|].
  apply insert_all_permutation in E2. rewrite app_nil_r in E2.
  eapply Permutation_Forall; [exact E2|]. now apply keyed_snd in E as [_ E].
Qed.

End InsertionSort.

End SortFacts.

(** ** Facts about code with effects *)
Module EnvFacts.
Import Py Env.
Local Open Scope io_scope.

(** Unfolding of the combinators. *)
Ltac run :=
  unfold try_except, bind, ret, raise, lift, log, emit, ask, loads,
    isoformat_now, fresh_uuid, next_tick, set_token_file, token_file_exists in *;
  simpl in *.

Lemma bind_ok (A B : Type) (c : M A) (k : A -> M B) (st st' : state) (a : A) :
  c st = (Ok a, st') -> bind c k st = k a st'.
Proof. intros H. unfold bind. now rewrite H. Qed.

Lemma bind_raise (A B : Type) (c : M A) (k : A -> M B) (st st' : state) (e : exn) :
  c st = (Raise e, st') -> bind c k st = (Raise e, st').
Proof. intros H. unfold bind. now rewrite H. Qed.

Lemma bind_inversion (A B : Type) (c : M A) (k : A -> M B) (st st' : state) (b : B) :
  bind c k st = (Ok b, st') ->
  exists a st1, c st = (Ok a, st1) /\ k a st1 = (Ok b, st').
Proof.
  unfold bind. destruct (c st) as [[a|e] st1]; [eauto | discriminate].
Qed.

(** A relation between the state before and the state after that every
    step of a computation keeps. *)
Section Preserves.
Variable R : state -> state -> Prop.
Hypothesis R_refl : forall st, R st st.
Hypothesis R_trans : forall a b c, R a b -> R b c -> R a c.

Definition preserves {A : Type} (c : M A) : Prop := forall st, R st (snd (c st)).

Lemma preserves_ret (A : Type) (a : A) : preserves (ret a).
Proof. intros st. apply R_refl. Qed.

Lemma preserves_raise (A : Type) (e : exn) : preserves (@raise A e).
Proof. intros st. apply R_refl. Qed.

Lemma preserves_lift (A : Type) (r : result A) : preserves (lift r).
Proof. intros st. apply R_refl. Qed.

Lemma preserves_bind (A B : Type) (c : M A) (k : A -> M B) :
  preserves c -> (forall a, preserves (k a)) -> preserves (bind c k).
Proof.
  intros Hc Hk st. unfold bind. specialize (Hc st).
  destruct (c st) as [[a|e] st']; simpl in *; [|exact Hc].
  eapply R_trans; [exact Hc | apply Hk].
Qed.

Lemma preserves_try_except (A : Type) (body : M A) (handler : exn -> M A) :
  preserves body -> (forall e, preserves (handler e)) ->
  preserves (try_except body handler).
Proof.
  intros Hb Hh st. unfold try_except. specialize (Hb st).
  destruct (body st) as [[a|e] st']; simpl in *; [exact Hb|].
  eapply R_trans; [exact Hb | apply Hh].
Qed.

Lemma preserves_for_loop (A : Type) (body : A -> M unit) (xs : list A) :
  (forall x, preserves (body x)) -> preserves (for_loop body xs).
Proof.
  intros Hb. induction xs as [|x xs IH]; simpl.
  - apply preserves_ret.
  - apply preserves_bind; [apply Hb | intros _; exact IH].
Qed.

Lemma preserves_for_list (A B : Type) (body : A -> M B) (xs : list A) :
  (forall x, preserves (body x)) -> preserves (for_list body xs).
Proof.
  intros Hb. induction xs as [|x xs IH]; simpl.
  - apply preserves_ret.
  - apply preserves_bind; [apply Hb | intros y].
    apply preserves_bind; [exact IH | intros ys; apply preserves_ret].
Qed.

Lemma preserves_if (A : Type) (b : bool) (c1 c2 : M A) :
  preserves c1 -> preserves c2 -> preserves (if b then c1 else c2).
Proof. now destruct b. Qed.

End Preserves.






End EnvFacts.

(** ** Facts about services/email_finance.py *)
Module FinanceFacts.
Import Py PyFacts Env Finance.
Local Open Scope py_scope.
Local Open Scope string_scope.

Section Summary.
Variable w : world.

Local Abbreviation read_transaction := (Finance.read_transaction w).
Local Abbreviation summary_step := (Finance.summary_step w).
Local Abbreviation readings := (Finance.readings w).
Local Abbreviation calculate_financial_summary := (Finance.calculate_financial_summary w).


Lemma income_not_expense (t : string) :
  type_in t income_types = true -> type_in t expense_types = false.
Proof.
  unfold type_in, income_types, expense_types. simpl.
  rewrite !orb_false_r, !orb_true_iff, !String.eqb_eq.
  intros [-> | [-> | ->]]; reflexivity.
Qed.

Lemma total_snoc p rs r :
  total p (rs ++ [r]) = if p r then (total p rs + r_amount r)%float else total p rs.
Proof.
  unfold total. rewrite filter_app. simpl.
  destruct (p r); [|now rewrite app_nil_r].
  now rewrite fold_left_app.
Qed.

Lemma total_none p rs : existsb p rs = false -> total p rs = 0%float.
Proof.
  unfold total. induction rs as [|r rs IH]; simpl; [reflexivity|].
  destruct (p r); simpl; [discriminate | exact IH].
Qed.

(** One transaction added to a bucket. *)
Definition add_amount (r : reading) (b : bucket) : bucket :=
  if is_income r then mk_bucket (income b + r_amount r) (expenses b)
  else if is_expense r then mk_bucket (income b) (expenses b + r_amount r)
  else b.

Lemma spec_bucket_snoc p rs r :
  spec_bucket p (rs ++ [r]) =
  if p r then add_amount r (spec_bucket p rs) else spec_bucket p rs.
Proof.
  unfold spec_bucket, add_amount. rewrite !total_snoc.
  destruct (p r); simpl; [|reflexivity].
  destruct (is_income r) eqn:I; simpl.
  - unfold is_income in I. unfold is_expense.
    now rewrite (income_not_expense _ I).
  - destruct (is_expense r); reflexivity.
Qed.

Lemma spec_bucket_none p rs : existsb p rs = false -> spec_bucket p rs = zero_bucket.
Proof.
  intros H. unfold spec_bucket, zero_bucket. f_equal; apply total_none.
  - induction rs as [|r rs IH]; simpl in *; [reflexivity|].
    apply orb_false_iff in H as [H1 H2]. now rewrite H1, IH.
  - induction rs as [|r rs IH]; simpl in *; [reflexivity|].
    apply orb_false_iff in H as [H1 H2]. now rewrite H1, IH.
Qed.

Lemma existsb_snoc (A : Type) (p : A -> bool) (l : list A) (x : A) :
  existsb p (l ++ [x]) = existsb p l || p x.
Proof. rewrite existsb_app. simpl. now rewrite orb_false_r. Qed.

(** A group holds what the specification says of currency [c] after [rs]. *)
Definition group_of (c : hkey) (rs : list reading) (g : currency_group) : Prop :=
  mk_bucket (total_income g) (total_expenses g) = spec_bucket (in_currency c) rs
  /\ net_cash_flow g = 0%float
  /\ recurring g = spec_recurring c rs
  /\ forall k,
       lookup (by_category g) k =
       if existsb (fun r => in_currency c r && in_category k r) rs
       then Some (spec_category c k rs) else None.

Lemma group_of_new c rs :
  existsb (in_currency c) rs = false -> group_of c rs new_group.
Proof.
  intros H.
  assert (N : forall q, existsb (fun r => in_currency c r && q r) rs = false).
  { intros q. induction rs as [|r rs IH]; simpl in *; [reflexivity|].
    apply orb_false_iff in H as [H1 H2]. now rewrite H1, IH. }
  unfold group_of, new_group, spec_recurring. simpl. repeat split.
  - now rewrite spec_bucket_none.
  - now rewrite spec_bucket_none.
  - intros k. now rewrite N.
Qed.

Lemma group_of_other c rs r g :
  in_currency c r = false -> group_of c rs g -> group_of c (rs ++ [r]) g.
Proof.
  intros H (T & N & R & C). unfold group_of, spec_recurring, spec_category in *.
  rewrite !spec_bucket_snoc, H. simpl. repeat split; auto.
  intros k. rewrite existsb_snoc, H, orb_false_r. rewrite C.
  now rewrite spec_bucket_snoc, H.
Qed.

Lemma lookup_init_key (V : Type) (m : kdict V) k d k' :
  lookup (init_key m k d) k' =
  if hkey_eqb k k'
  then Some (match lookup m k with Some v => v | None => d end)
  else lookup m k'.
Proof.
  unfold init_key. destruct (hkey_eqb k k') eqn:E.
  - apply hkey_eqb_eq in E. subst k'.
    destruct (lookup m k) eqn:L; [exact L|].
    rewrite lookup_app, L. simpl. now rewrite hkey_eqb_refl.
  - destruct (lookup m k) eqn:L; [reflexivity|].
    rewrite lookup_app. simpl. rewrite E. now destruct (lookup m k').
Qed.

(** [add_to_group] through [add_amount]. *)
Lemma add_to_group_fields r g :
  mk_bucket (total_income (add_to_group r g)) (total_expenses (add_to_group r g))
    = add_amount r (mk_bucket (total_income g) (total_expenses g))
  /\ net_cash_flow (add_to_group r g) = net_cash_flow g
  /\ recurring (add_to_group r g)
       = (if r_recurring r then add_amount r (recurring g) else recurring g)
  /\ forall k,
       lookup (by_category (add_to_group r g)) k =
       if hkey_eqb (r_category r) k
       then Some (add_amount r
                    (match lookup (by_category g) (r_category r) with
                     | Some b => b
                     | None => zero_bucket
                     end))
       else lookup (by_category g) k.
Proof.
  unfold add_to_group, add_amount, is_income, is_expense.
  destruct (type_in (r_type r) income_types);
    [|destruct (type_in (r_type r) expense_types)]; simpl;
    repeat split; try (now destruct (r_recurring r));
    try (now destruct (r_recurring r), (recurring g));
    intros k; try apply lookup_upsert; apply lookup_init_key.
Qed.

Lemma group_of_same c rs r g :
  in_currency c r = true -> group_of c rs g -> group_of c (rs ++ [r]) (add_to_group r g).
Proof.
  intros H (T & N & R & C).
  destruct (add_to_group_fields r g) as (T' & N' & R' & C').
  unfold group_of, spec_recurring, spec_category in *.
  rewrite !spec_bucket_snoc, H. simpl. repeat split.
  - now rewrite T', T.
  - congruence.
  - rewrite R', R. reflexivity.
  - intros k. rewrite C', existsb_snoc, spec_bucket_snoc.
    unfold in_category at 2 3. rewrite H.
    destruct (hkey_eqb (r_category r) k) eqn:E; simpl.
    + rewrite orb_true_r. apply hkey_eqb_eq in E. subst k. rewrite C.
      destruct (existsb _ rs) eqn:X; [reflexivity|].
      now rewrite spec_bucket_none.
    + rewrite orb_false_r. apply C.
Qed.

(** The dict [by_currency] holds what the specification says after [rs]. *)
Definition grouped (rs : list reading) (by_currency : kdict currency_group) : Prop :=
  NoDup (keys by_currency)
  /\ forall c,
       match lookup by_currency c with
       | Some g => existsb (in_currency c) rs = true /\ group_of c rs g
       | None => existsb (in_currency c) rs = false
       end.

Lemma grouped_nil : grouped [] [].
Proof. split; [constructor | intros c; reflexivity]. Qed.

Lemma grouped_snoc rs by_currency r :
  grouped rs by_currency -> grouped (rs ++ [r]) (accumulate by_currency r).
Proof.
  intros [ND G]. unfold accumulate. split; [now apply NoDup_keys_upsert|].
  intros c. rewrite lookup_upsert, existsb_snoc. specialize (G c).
  destruct (hkey_eqb (r_currency r) c) eqn:E.
  - assert (Hc : in_currency c r = true) by exact E.
    apply hkey_eqb_eq in E. subst c. rewrite Hc, orb_true_r. split; [reflexivity|].
    apply group_of_same; [exact Hc|].
    destruct (lookup by_currency (r_currency r)); [tauto | now apply group_of_new].
  - assert (Hc : in_currency c r = false) by exact E.
    rewrite Hc, orb_false_r.
    destruct (lookup by_currency c); [|exact G].
    split; [tauto | apply group_of_other; tauto].
Qed.

Lemma grouped_fold rs : forall rs0 by_currency,
  grouped rs0 by_currency -> grouped (rs0 ++ rs) (fold_left accumulate rs by_currency).
Proof.
  induction rs as [|r rs IH]; intros rs0 bc G; simpl.
  - now rewrite app_nil_r.
  - replace (rs0 ++ r :: rs)%list with ((rs0 ++ [r]) ++ rs)%list by now rewrite <- app_assoc.
    apply IH. now apply grouped_snoc.
Qed.

(** The loop reads the transactions that carry both keys, and nothing else. *)
Lemma for_each_summary_step transactions : forall by_currency,
  for_each summary_step transactions by_currency =
  (rs <- readings transactions ;; Ok (fold_left accumulate rs by_currency)).
Proof.
  unfold Finance.readings.
  induction transactions as [|t ts IH]; intros bc; simpl; [reflexivity|].
  unfold Finance.summary_step at 1.
  destruct (has_amount_and_currency t); simpl; [|apply IH].
  destruct (read_transaction t) as [r|e]; simpl; [|reflexivity].
  rewrite IH.
  destruct (map_m read_transaction (filter has_amount_and_currency ts));
    reflexivity.
Qed.

Lemma calculate_financial_summary_readings transactions :
  calculate_financial_summary transactions =
  (rs <- readings transactions ;; Ok (summarise (fold_left accumulate rs []))).
Proof.
  unfold Finance.calculate_financial_summary. rewrite for_each_summary_step.
  now destruct (readings transactions).
Qed.

Lemma filter_idempotent (A : Type) (p : A -> bool) (l : list A) :
  filter p (filter p l) = filter p l.
Proof.
  induction l as [|x l IH]; simpl; [reflexivity|].
  destruct (p x) eqn:E; simpl; [rewrite E; now f_equal | exact IH].
Qed.

Lemma ltb_transitive (a b c : float) :
  PrimFloat.ltb a b = true -> PrimFloat.ltb b c = true -> PrimFloat.ltb a c = true.
Proof.
  intros H1 H2. destruct (PrimFloat.ltb a c) eqn:E; [reflexivity|].
  rewrite (ltb_negatively_transitive E H1) in H2. discriminate.
Qed.






Lemma filter_empty (A : Type) (p : A -> bool) (l : list A) :
  existsb p l = false -> filter p l = [].
Proof.
  induction l as [|x l IH]; simpl; [reflexivity|].
  destruct (p x); simpl; [discriminate | exact IH].
Qed.


(** C5, as the code has it. Transactions that miss the 'amount' key or the
    'currency' key are excluded from every total, and never make the
    aggregation raise: the outcome on a list, a summary or an exception, is
    the outcome on the list without them. The aggregation returns a summary
    when every transaction with both keys can be read, and raises the
    exception of the first one that cannot (an amount [float] rejects, a
    type that is no string, a currency or category that cannot be a key). *)
Theorem calculate_financial_summary_skips_incomplete :
  forall transactions : list dict,
    calculate_financial_summary transactions
      = calculate_financial_summary (filter has_amount_and_currency transactions)
    /\ (forall rs, readings transactions = Ok rs ->
          calculate_financial_summary transactions
            = Ok (summarise (fold_left accumulate rs [])))
    /\ (forall e, readings transactions = Raise e ->
          calculate_financial_summary transactions = Raise e).
Proof.
  intros transactions. rewrite !calculate_financial_summary_readings.
  unfold Finance.readings. rewrite filter_idempotent.
  split; [reflexivity|]. split; intros x H; now rewrite H.
Qed.

(** C10. When no transaction has both an 'amount' key and a 'currency' key
    (the empty list included), [calculate_financial_summary] returns the
    default summary: total_income 0, total_expenses 0, net_cash_flow 0,
    currency "USD", period "Recent transactions", an empty by_category,
    recurring income 0 and expenses 0, and no other_currencies key. *)
Theorem calculate_financial_summary_default :
  forall transactions : list dict,
    existsb has_amount_and_currency transactions = false ->
    calculate_financial_summary transactions
      = Ok (mk_summary 0 0 0 (KStr "USD") "Recent transactions" []
              (mk_bucket 0 0) None).
Proof.
  intros transactions H. rewrite calculate_financial_summary_readings.
  unfold Finance.readings. rewrite (filter_empty _ _ H). reflexivity.
Qed.

End Summary.

End FinanceFacts.

(** ** Facts about services/email_analytics.py *)
Module AnalyticsFacts.
Import Py PyFacts Env EnvFacts SortFacts Analytics.
Local Open Scope string_scope.

(** *** The order of strings *)

Lemma string_leb_iff (a b : string) :
  String.leb a b = true <-> a = b \/ String_as_OT.lt a b.
Proof.
  unfold String.leb. rewrite <- String_as_OT.cmp_lt, <- String_as_OT.cmp_eq.
  unfold String_as_OT.cmp. destruct (String.compare a b); split;
    intros H; try reflexivity; try discriminate; auto;
    destruct H; discriminate.
Qed.

Lemma string_leb_refl (a : string) : String.leb a a = true.
Proof. apply string_leb_iff. now left. Qed.

Lemma string_leb_trans (a b c : string) :
  String.leb a b = true -> String.leb b c = true -> String.leb a c = true.
Proof.
  rewrite !string_leb_iff. intros [-> | H1] [-> | H2]; auto.
  right. eapply String_as_OT.lt_trans; eauto.
Qed.

Lemma string_ltb_leb (a b : string) : String.ltb a b = negb (String.leb b a).
Proof.
  unfold String.ltb, String.leb. rewrite (String.compare_antisym a b).
  now destruct (String.compare b a).
Qed.

(** *** The keys of todos whose deadline is a string or absent *)







(** *** The todos *)






Local Open Scope io_scope.



Definition todo (priority : option string) (deadline : option value) : dict :=
  (match priority with Some p => [("priority", VStr p)] | None => [] end
   ++ match deadline with Some d => [("deadline", d)] | None => [] end)%list.


End AnalyticsFacts.

(** ** The extractor adapters *)
Module AdapterFacts.
Import Py Env EnvFacts.
Local Open Scope string_scope.
Local Open Scope io_scope.

(** What the specification asks of an adapter [extract] that sends [p] to
    the classifier: it returns, whatever the classifier answers; it returns
    no item and logs nothing when the stripped answer is empty or the token
    []; it returns no item and logs an error when that text does not parse;
    it returns no item and logs a warning when it parses to a value that is
    no list. *)
Definition tolerant {X : Type} (w : world) (p : prompt) (extract : M (list X))
  (failure : string) : Prop :=
  forall st,
    exists items st',
      extract st = (Ok items, st')
      /\ (forall t, llm w p = Text t ->
            strip t = "" \/ strip t = "[]" ->
            items = [] /\ events st' = events st)
      /\ (forall t, llm w p = Text t ->
            strip t <> "" -> strip t <> "[]" ->
            json_loads w (strip t) = None ->
            items = [] /\ events st' = (events st ++ [Log ERROR failure])%list)
      /\ (forall t v, llm w p = Text t ->
            strip t <> "" -> strip t <> "[]" ->
            json_loads w (strip t) = Some v ->
            (forall l, v <> VList l) ->
            items = []
            /\ events st' =
               (events st ++ [Log WARNING "Unexpected response format from Claude"])%list).

(** The code the three adapters share, up to what they do with a list. *)
Definition adapter {X : Type} (w : world) (p : prompt)
  (on_list : list value -> M (list X)) (failure : string) : M (list X) :=
  try_except
    (content <- ask w p ;;
     if String.eqb content "" || String.eqb content "[]" then ret []
     else
       parsed <- loads w content ;;
       match parsed with
       | VList items => on_list items
       | _ =>
           log WARNING "Unexpected response format from Claude" ;;
           ret []
       end)
    (fun _ => log ERROR failure ;; ret []).

Definition logged (st : state) (e : event) : state :=
  mk_state (token_file st) (tick st) (events st ++ [e]).

(** The adapter, answer by answer. *)
Lemma adapter_cases (X : Type) (w : world) (p : prompt)
  (on_list : list value -> M (list X)) (failure : string) (st : state) :
  match llm w p with
  | Raises _ =>
      adapter w p on_list failure st = (Ok [], logged st (Log ERROR failure))
  | Text t =>
      if String.eqb (strip t) "" || String.eqb (strip t) "[]"
      then adapter w p on_list failure st = (Ok [], st)
      else
        match json_loads w (strip t) with
        | None =>
            adapter w p on_list failure st = (Ok [], logged st (Log ERROR failure))
        | Some (VList l) =>
            exists items st', adapter w p on_list failure st = (Ok items, st')
        | Some _ =>
            adapter w p on_list failure st
            = (Ok [], logged st (Log WARNING "Unexpected response format from Claude"))
        end
  end.
Proof.
  unfold adapter, logged. run.
  destruct (llm w p) as [e|t]; simpl; [reflexivity|].
  destruct (String.eqb (strip t) "" || String.eqb (strip t) "[]"); simpl;
    [reflexivity|].
  destruct (json_loads w (strip t)) as [v|]; simpl; [|reflexivity].
  destruct v; try reflexivity.
  destruct (on_list l st) as [[items|e] st']; simpl; eauto.
Qed.

Lemma adapter_tolerant (X : Type) (w : world) (p : prompt)
  (on_list : list value -> M (list X)) (failure : string) :
  tolerant w p (adapter w p on_list failure) failure.
Proof.
  intros st. pose proof (adapter_cases w p on_list failure st) as C.
  destruct (llm w p) as [e|t].
  { do 2 eexists. split; [exact C|]. repeat split; intros; discriminate. }
  destruct (String.eqb (strip t) "") eqn:E1.
  { apply String.eqb_eq in E1. simpl in C.
    do 2 eexists. split; [exact C|].
    split; [|split].
    - intros t' H _. auto.
    - intros t' H N. injection H as <-. contradiction.
    - intros t' v H N. injection H as <-. contradiction. }
  apply String.eqb_neq in E1.
  destruct (String.eqb (strip t) "[]") eqn:E2.
  { apply String.eqb_eq in E2. simpl in C.
    do 2 eexists. split; [exact C|].
    split; [|split].
    - intros t' H _. auto.
    - intros t' H _ N. injection H as <-. contradiction.
    - intros t' v H _ N. injection H as <-. contradiction. }
  apply String.eqb_neq in E2. simpl in C.
  destruct (json_loads w (strip t)) as [v|] eqn:J.
  2:{ do 2 eexists. split; [exact C|].
      split; [|split].
      - intros t' H [N | N]; injection H as <-; contradiction.
      - intros t' H _ _ _. auto.
      - intros t' v H _ _ J'. injection H as <-. congruence. }
  assert (D : (exists l, v = VList l) \/ forall l, v <> VList l).
  { destruct v; try (right; discriminate). left. eauto. }
  destruct D as [[l ->] | D].
  - destruct C as (items & st' & C).
    exists items, st'. split; [exact C|].
    split; [|split].
    + intros t' H [N | N]; injection H as <-; contradiction.
    + intros t' H _ _ J'. injection H as <-. congruence.
    + intros t' v H _ _ J' N. injection H as <-. rewrite J in J'.
      injection J' as <-. exfalso. now apply (N l).
  - assert (C' : adapter w p on_list failure st
                 = (Ok [], logged st (Log WARNING "Unexpected response format from Claude"))).
    { destruct v; try exact C. exfalso. now apply (D l). }
    do 2 eexists. split; [exact C'|].
    split; [|split].
    + intros t' H [N | N]; injection H as <-; contradiction.
    + intros t' H _ _ J'. injection H as <-. congruence.
    + intros t' v' H _ _ J' _. auto.
Qed.

(** C3. Each of the three extractor adapters (finance, reminders,
    meetings), on every answer of the classifier: it returns zero items when
    the answer is empty after trimming or is the token []; it returns zero
    items and logs when the remaining text fails to parse (an error) or
    parses to a value that is not a list (a warning); and in no case does it
    raise: from every state it returns a list. *)
Theorem extractor_adapters_tolerant :
  forall (w : world) (subject body sender : value),
    tolerant w (AskTransactions subject body sender)
      (Finance.extract_financial_data_from_email w subject body sender)
      "Error extracting financial data"
    /\ tolerant w (AskReminders subject body)
         (Reminders.extract_reminders_from_email w subject body)
         "Error extracting reminders"
    /\ tolerant w (AskMeetings subject body)
         (Analytics.extract_meetings_from_email w subject body)
         "Error extracting meetings".
Proof.
  intros w subject body sender. split; [|split].
  - exact (adapter_tolerant w (AskTransactions subject body sender)
             (for_list (Finance.add_source w subject sender)) _).
  - exact (adapter_tolerant w (AskReminders subject body)
             (for_list (Reminders.add_source w subject)) _).
  - exact (adapter_tolerant w (AskMeetings subject body) (fun items => ret items) _).
Qed.

End AdapterFacts.

(** ** What the services leave unchanged *)
Module FrameFacts.
Import Py Env EnvFacts.
Local Open Scope string_scope.
Local Open Scope io_scope.

Definition is_draft_request (e : event) : bool :=
  match e with
  | DraftRequest _ => true
  | _ => false
  end.

(** The drafts requested so far. *)
Definition drafts (st : state) : list event := filter is_draft_request (events st).

Section Frame.
Variable w : world.

(** A relation on states that holds across every step but, possibly, the
    request of a draft: it is a preorder, it holds when the clock advances,
    when an event other than a draft request is recorded, and when the
    token file, if it existed, still exists. *)
Variable R : state -> state -> Prop.
Hypothesis R_refl : forall st, R st st.
Hypothesis R_trans : forall a b c, R a b -> R b c -> R a c.
Hypothesis R_event : forall st e,
  is_draft_request e = false ->
  R st (mk_state (token_file st) (tick st) (events st ++ [e])).
Hypothesis R_tick : forall st,
  R st (mk_state (token_file st) (S (tick st)) (events st)).
Hypothesis R_token : forall st b,
  (token_file st = true -> b = true) ->
  R st (mk_state b (tick st) (events st)).

Local Abbreviation keeps := (preserves R).

Lemma keeps_log lvl text : keeps (log lvl text).
Proof. intros st. now apply R_event. Qed.

Lemma keeps_execute r : keeps (emit (Execute r)).
Proof. intros st. now apply R_event. Qed.

Lemma keeps_commit : keeps (emit Commit).
Proof. intros st. now apply R_event. Qed.

Lemma keeps_next_tick : keeps next_tick.
Proof. intros st. apply R_tick. Qed.

Ltac step :=
  first
    [ apply (@preserves_ret R R_refl)
    | apply (@preserves_raise R R_refl)
    | apply (@preserves_lift R R_refl)
    | apply keeps_log
    | apply keeps_execute
    | apply keeps_commit
    | apply keeps_next_tick
    | apply (@preserves_bind R R_trans); [|intros ?]
    | apply (@preserves_try_except R R_trans); [|intros ?]
    | apply (@preserves_for_loop R R_refl R_trans); intros ?
    | apply (@preserves_for_list R R_refl R_trans); intros ?
    | progress cbv zeta
    | match goal with
      | |- preserves _ (match ?x with _ => _ end) => destruct x
      | |- preserves _ (if ?b then _ else _) => destruct b
      end ].

Ltac steps := repeat step.

Lemma keeps_ask p : keeps (ask w p).
Proof. unfold ask. steps. Qed.

Lemma keeps_loads content : keeps (loads w content).
Proof. unfold loads. steps. Qed.

Lemma keeps_isoformat_now : keeps (isoformat_now w).
Proof. unfold isoformat_now. steps. Qed.

Lemma keeps_fresh_uuid : keeps (fresh_uuid w).
Proof. unfold fresh_uuid. steps. Qed.

Lemma keeps_get_postgres_connection : keeps (Db.get_postgres_connection w).
Proof. unfold Db.get_postgres_connection. steps. Qed.

Lemma keeps_transaction_date_sql transaction :
  keeps (Finance.transaction_date_sql w transaction).
Proof. unfold Finance.transaction_date_sql. steps. Qed.

Lemma keeps_extract_financial_data subject body sender :
  keeps (Finance.extract_financial_data_from_email w subject body sender).
Proof.
  unfold Finance.extract_financial_data_from_email, Finance.add_source.
  steps; first [apply keeps_ask | apply keeps_loads | apply keeps_isoformat_now].
Qed.

Lemma keeps_extract_reminders subject body :
  keeps (Reminders.extract_reminders_from_email w subject body).
Proof.
  unfold Reminders.extract_reminders_from_email, Reminders.add_source.
  steps; first [apply keeps_ask | apply keeps_loads | apply keeps_isoformat_now].
Qed.

Lemma keeps_save_transactions transactions :
  keeps (Finance.save_transactions_to_database w transactions).
Proof.
  unfold Finance.save_transactions_to_database, Finance.save_transaction.
  steps;
    first [apply keeps_get_postgres_connection | apply keeps_fresh_uuid
          | apply keeps_transaction_date_sql].
Qed.

Lemma keeps_deadline_and_context reminder :
  keeps (Reminders.deadline_and_context reminder).
Proof. unfold Reminders.deadline_and_context. steps. Qed.

Ltac leaf :=
  first [ apply keeps_ask | apply keeps_loads | apply keeps_isoformat_now
        | apply keeps_fresh_uuid | apply keeps_get_postgres_connection
        | apply keeps_deadline_and_context | apply keeps_transaction_date_sql ].

Lemma keeps_save_reminders reminders :
  keeps (Reminders.save_reminders_to_database w reminders).
Proof. unfold Reminders.save_reminders_to_database. steps; leaf. Qed.

Lemma keeps_classify subject body sender :
  keeps (Orchestrator.classify_email_type w subject body sender).
Proof.
  unfold Orchestrator.classify_email_type.
  steps; first [apply keeps_ask | apply keeps_loads].
Qed.

Lemma authorize_token load token :
  token = true -> snd (Mail.authorize w load token) = true.
Proof.
  intros ->. unfold Mail.authorize.
  destruct load as [c|e]; simpl; [|reflexivity].
  destruct (valid c); simpl; [reflexivity|].
  destruct (if expired c && refresh_token c then refresh w else run_flow w);
    [|reflexivity].
  destruct (write_token w); reflexivity.
Qed.

Lemma keeps_get_gmail_service : keeps (Mail.get_gmail_service w).
Proof.
  intros st. unfold Mail.get_gmail_service.
  pose proof (@authorize_token (load_token w) (token_file st)) as T.
  destruct (Mail.authorize w (load_token w) (token_file st)) as [o t]. simpl in *.
  now apply R_token.
Qed.

Lemma keeps_process_reminders m save_to_db :
  keeps (Orchestrator.process_reminders w m save_to_db).
Proof.
  unfold Orchestrator.process_reminders. steps; leaf.
Qed.

Lemma keeps_process_finance m save_to_db :
  keeps (Orchestrator.process_finance w m save_to_db).
Proof.
  unfold Orchestrator.process_finance. steps; leaf.
Qed.

End Frame.

End FrameFacts.

(** ** Facts about services/email_orchestrator.py *)
Module OrchestratorFacts.
Import Py PyFacts Env EnvFacts FrameFacts Orchestrator.
Local Open Scope string_scope.
Local Open Scope io_scope.

Lemma py_eq_str (s : string) (x : value) : py_eq (VStr s) x = true <-> x = VStr s.
Proof.
  destruct x; simpl; try (split; [discriminate | congruence]).
  rewrite String.eqb_eq. split; congruence.
Qed.

Lemma among_In (x : string) (services : list value) :
  among x services = true <-> In (VStr x) services.
Proof.
  unfold among. rewrite existsb_exists. split.
  - intros (v & HIn & E). apply py_eq_str in E. now subst.
  - intros HIn. exists (VStr x). split; [exact HIn | now apply py_eq_str].
Qed.

Section Classify.
Variable w : world.

(** C2, as the code has it. For every subject, body and sender,
    [classify_email_type] returns a collection of service tags that contains
    "tagging". When the classifier call raises, when the answer does not
    parse, or when it parses to a value that is no list, the function returns
    exactly ["tagging"]. When the answer parses to a list, whatever its
    items, the function returns that list, with "tagging" appended if it is
    not among the items. *)
Theorem classify_email_type_has_tagging :
  forall (subject body sender : value) (st : state),
    exists services st',
      classify_email_type w subject body sender st = (Ok services, st')
      /\ In (VStr "tagging") services
      /\ (forall e, llm w (AskServices subject body sender) = Raises e ->
            services = [VStr "tagging"])
      /\ (forall t, llm w (AskServices subject body sender) = Text t ->
            json_loads w (strip t) = None -> services = [VStr "tagging"])
      /\ (forall t v, llm w (AskServices subject body sender) = Text t ->
            json_loads w (strip t) = Some v -> (forall l, v <> VList l) ->
            services = [VStr "tagging"])
      /\ (forall t l, llm w (AskServices subject body sender) = Text t ->
            json_loads w (strip t) = Some (VList l) ->
            services = if among "tagging" l then l else (l ++ [VStr "tagging"])%list).
Proof.
  intros subject body sender st. unfold classify_email_type. run.
  destruct (llm w (AskServices subject body sender)) as [e|t]; simpl.
  { do 2 eexists. split; [reflexivity|]. split; [now left|].
    repeat split; intros; try reflexivity; discriminate. }
  destruct (json_loads w (strip t)) as [v|] eqn:J; simpl.
  2:{ do 2 eexists. split; [reflexivity|]. split; [now left|].
      split; [intros; discriminate|]. split; [reflexivity|].
      split; intros t' x H J'; injection H as <-; congruence. }
  assert (D : (exists l, v = VList l) \/ forall l, v <> VList l).
  { destruct v; try (right; discriminate). left. eauto. }
  destruct D as [[l ->] | D].
  - do 2 eexists. split; [reflexivity|]. split.
    { destruct (among "tagging" l) eqn:A.
      - now apply among_In.
      - apply in_or_app. right. now left. }
    split; [intros; discriminate|].
    split; [intros t' H J'; injection H as <-; congruence|].
    split.
    + intros t' v H J' N. injection H as <-. rewrite J in J'. injection J' as <-.
      exfalso. now apply (N l).
    + intros t' l' H J'. injection H as <-. rewrite J in J'. now injection J' as <-.
  - exists [VStr "tagging"]. eexists. split.
    { destruct v; try reflexivity. exfalso. now apply (D l). }
    split; [now left|].
    split; [intros; discriminate|].
    split; [reflexivity|].
    split; [reflexivity|].
    intros t' l' H J'. injection H as <-. rewrite J in J'. injection J' as ->.
    exfalso. now apply (D l').
Qed.

End Classify.


Section Process.
Variable w : world.

(** The token file is as it was, and no draft was requested. *)
Definition quiet (a b : state) : Prop :=
  token_file b = token_file a /\ drafts b = drafts a.






Lemma quiet_tick st : quiet st (mk_state (token_file st) (S (tick st)) (events st)).
Proof. now split. Qed.
















Lemma drafts_same_events st t n : drafts (mk_state t n (events st)) = drafts st.
Proof. reflexivity. Qed.







End Process.

Section Batch.
Variable w : world.

(** Once token.json exists it keeps existing. *)
Definition token_kept (a b : state) : Prop :=
  token_file a = true -> token_file b = true.

Lemma token_kept_refl st : token_kept st st.
Proof. now intros H. Qed.

Lemma token_kept_trans a b c : token_kept a b -> token_kept b c -> token_kept a c.
Proof. unfold token_kept. auto. Qed.

Lemma token_kept_emit e : preserves token_kept (emit e).
Proof. intros st H. exact H. Qed.

Lemma token_kept_event st e :
  is_draft_request e = false ->
  token_kept st (mk_state (token_file st) (tick st) (events st ++ [e])).
Proof. intros _ H. exact H. Qed.

Lemma token_kept_tick st :
  token_kept st (mk_state (token_file st) (S (tick st)) (events st)).
Proof. intros H. exact H. Qed.

Lemma token_kept_token st b :
  (token_file st = true -> b = true) ->
  token_kept st (mk_state b (tick st) (events st)).
Proof. intros H. exact H. Qed.

Ltac kept :=
  repeat first
    [ apply (@preserves_ret token_kept token_kept_refl)
    | apply (@preserves_raise token_kept token_kept_refl)
    | apply (@preserves_lift token_kept token_kept_refl)
    | apply token_kept_emit
    | apply (@keeps_classify w token_kept token_kept_refl token_kept_trans token_kept_event)
    | apply (@keeps_get_gmail_service w token_kept token_kept_token)
    | apply (@keeps_process_reminders w token_kept token_kept_refl token_kept_trans
               token_kept_event token_kept_tick)
    | apply (@keeps_process_finance w token_kept token_kept_refl token_kept_trans
               token_kept_event token_kept_tick)
    | apply (@preserves_bind token_kept token_kept_trans); [|intros ?]
    | apply (@preserves_try_except token_kept token_kept_trans); [|intros ?]
    | apply (@preserves_for_list token_kept token_kept_refl token_kept_trans); intros ?
    | match goal with
      | |- preserves _ (match ?x with _ => _ end) => destruct x
      | |- preserves _ (if ?b then _ else _) => destruct b
      end ].

Lemma token_kept_process_email msg_data save_to_db :
  preserves token_kept (process_email w msg_data save_to_db).
Proof.
  unfold process_email, pipeline, when_among, process_auto_reply,
    AutoReply.create_reply_draft, log.
  kept.
Qed.

Lemma token_kept_process_messages save_to_db messages :
  preserves token_kept (for_list (process_message w save_to_db) messages).
Proof.
  apply (@preserves_for_list token_kept token_kept_refl token_kept_trans).
  intros msg. unfold process_message.
  apply (@preserves_bind token_kept token_kept_trans).
  - apply (@preserves_lift token_kept token_kept_refl).
  - intros msg_data. apply token_kept_process_email.
Qed.

(** [process_email] returns, whatever happens inside its pipeline: the
    merged result when the pipeline returns, the error entry with the id of
    the message when the pipeline raises. *)
Lemma process_email_returns msg_data save_to_db st :
  match fst (pipeline w msg_data save_to_db st) with
  | Ok r => fst (process_email w msg_data save_to_db st) = Ok (Processed r)
  | Raise _ =>
      fst (process_email w msg_data save_to_db st)
      = Ok (Failed "Error processing email" (get_or msg_data "id" (VStr "unknown")))
  end.
Proof.
  destruct (pipeline w msg_data save_to_db st) as [[r|e] st'] eqn:P; simpl;
    unfold process_email, try_except.
  - now rewrite (@bind_ok _ _ _ _ _ _ _ P).
  - now rewrite (@bind_raise _ _ _ _ _ _ _ P).
Qed.

(** [tag_emails] raises once token.json exists: its module's
    [get_gmail_service] evaluates the name [json], which the module never
    imports. *)
Lemma tag_emails_raises st :
  token_file st = true -> exists e, fst (Tagging.tag_emails w st) = Raise e.
Proof.
  intros T. unfold Tagging.tag_emails, bind at 1, lift at 1.
  destruct (get_all_labels w) as [labels|e]; [|now exists e].
  unfold bind at 1, Tagging.get_gmail_service, Mail.authorize.
  rewrite T. simpl. now exists NameError.
Qed.

Lemma get_gmail_service_token st :
  fst (Mail.get_gmail_service w st) = Ok tt ->
  token_file (snd (Mail.get_gmail_service w st)) = true.
Proof.
  unfold Mail.get_gmail_service, Mail.authorize.
  destruct (token_file st); simpl.
  - destruct (load_token w) as [c|e]; simpl; [|discriminate].
    destruct (valid c); simpl; [reflexivity|].
    destruct (if expired c && refresh_token c then refresh w else run_flow w);
      simpl; [|discriminate].
    destruct (write_token w); simpl; [reflexivity | discriminate].
  - destruct (run_flow w); simpl; [|discriminate].
    destruct (write_token w); simpl; [reflexivity | discriminate].
Qed.

(** C4, where the code departs from it. Whenever the mail provider lists at
    least one message, [process_recent_emails] returns the batch-level error
    status: every message is processed, each behind the guard of
    [process_email], and the tagging sweep that follows raises. Only the
    empty batch returns success. *)
Theorem process_recent_emails_error_after_messages :
  forall (max_emails : nat) (save_to_db : bool) (st : state) (messages : value),
    Mail.recent_messages w max_emails = Ok messages ->
    truthy messages = true ->
    fst (process_recent_emails w max_emails save_to_db st)
      = Ok (BatchError "Error processing emails").
Proof.
  intros max_emails save_to_db st messages Hm Ht.
  unfold process_recent_emails, try_except.
  match goal with
  | |- fst (match ?body st with _ => _ end) = _ =>
      assert (B : exists e st', body st = (Raise e, st'));
      [|destruct B as (e & st' & ->); reflexivity]
  end.
  pose proof (get_gmail_service_token st) as T.
  destruct (Mail.get_gmail_service w st) as [[[]|e] st1] eqn:G; simpl in T.
  2:{ do 2 eexists. apply bind_raise. exact G. }
  specialize (T eq_refl).
  rewrite (@bind_ok _ _ _ _ _ _ _ G).
  rewrite (@bind_ok _ _ _ _ st1 st1 messages) by (unfold lift; now rewrite Hm).
  rewrite Ht. cbn [negb].
  destruct (py_iter messages) as [visited|e] eqn:I.
  2:{ do 2 eexists. apply bind_raise. unfold lift. reflexivity. }
  rewrite (@bind_ok _ _ _ _ st1 st1 visited) by reflexivity.
  pose proof (token_kept_process_messages save_to_db visited st1) as K.
  destruct (for_list (process_message w save_to_db) visited st1) as [[results|e] st2] eqn:F.
  2:{ do 2 eexists. apply bind_raise. exact F. }
  rewrite (@bind_ok _ _ _ _ _ _ _ F).
  simpl in K. specialize (K T).
  destruct (tag_emails_raises st2 K) as [e He].
  destruct (Tagging.tag_emails w st2) as [r st3] eqn:E. simpl in He. subst r.
  do 2 eexists. apply bind_raise. exact E.
Qed.

End Batch.

End OrchestratorFacts.

(** ** Facts about the persistence of transactions and reminders *)
Module PersistenceFacts.
Import Py PyFacts Env EnvFacts.
Local Open Scope string_scope.
Local Open Scope io_scope.

(** The rows the INSERTs of a run carried, oldest first. *)
Definition executed (evs : list event) : list row :=
  flat_map (fun e => match e with Execute r => [r] | _ => [] end) evs.

(** The warnings of a given text among the events of a run. *)
Definition warnings (text : string) (evs : list event) : nat :=
  List.length
    (filter (fun e => match e with
                      | Log WARNING t => String.eqb t text
                      | _ => false
                      end) evs).



Section Transactions.
Variable w : world.





Definition skip_warning : string := "Skipping transaction with unknown type".

Hypothesis execute_ok : forall r, db_execute w r = Ok tt.




End Transactions.


Section Reminders.
Variable w : world.




Hypothesis execute_ok : forall r, db_execute w r = Ok tt.




End Reminders.


End PersistenceFacts.

(** ** Which events a computation can record *)
Module TraceFacts.
Import Py Env EnvFacts.
Local Open Scope string_scope.
Local Open Scope io_scope.

Section Grows.
Variable allowed : event -> bool.

(** From [a] to [b] the record of events grew by events that are all
    [allowed]. *)
Definition grows (a b : state) : Prop :=
  exists new, events b = (events a ++ new)%list /\ forallb allowed new = true.

Lemma grows_refl st : grows st st.
Proof. exists []. now rewrite app_nil_r. Qed.

Lemma grows_trans a b c : grows a b -> grows b c -> grows a c.
Proof.
  intros (n1 & E1 & F1) (n2 & E2 & F2). exists (n1 ++ n2)%list.
  rewrite E2, E1, app_assoc, forallb_app, F1, F2. now split.
Qed.

Lemma grows_same a b : events b = events a -> grows a b.
Proof. intros E. exists []. now rewrite app_nil_r. Qed.

Lemma grows_emit e : allowed e = true -> preserves grows (emit e).
Proof. intros H st. exists [e]. simpl. now rewrite H. Qed.

Lemma grows_next_tick : preserves grows next_tick.
Proof. intros st. now apply grows_same. Qed.

Lemma grows_get_gmail_service w : preserves grows (Mail.get_gmail_service w).
Proof.
  intros st. unfold Mail.get_gmail_service.
  destruct (Mail.authorize w (load_token w) (token_file st)). now apply grows_same.
Qed.

End Grows.

(** One step of the proof that a computation records only [allowed]
    events: the combinators, then the branches of the code. *)
Ltac grow_step allowed :=
  first
    [ apply (@preserves_ret (grows allowed) (grows_refl allowed))
    | apply (@preserves_raise (grows allowed) (grows_refl allowed))
    | apply (@preserves_lift (grows allowed) (grows_refl allowed))
    | apply grows_next_tick
    | apply grows_get_gmail_service
    | apply grows_emit; reflexivity
    | apply (@preserves_bind (grows allowed) (grows_trans (allowed := allowed))); [|intros ?]
    | apply (@preserves_try_except (grows allowed) (grows_trans (allowed := allowed)));
      [|intros ?]
    | apply (@preserves_for_loop (grows allowed) (grows_refl allowed)
               (grows_trans (allowed := allowed))); intros ?
    | apply (@preserves_for_list (grows allowed) (grows_refl allowed)
               (grows_trans (allowed := allowed))); intros ?
    | progress cbv zeta
    | match goal with
      | |- preserves _ (match ?x with _ => _ end) => destruct x
      | |- preserves _ (if ?b then _ else _) => destruct b
      end ].

Ltac grow allowed :=
  repeat (unfold log, ask, loads, isoformat_now, fresh_uuid; grow_step allowed).

Definition is_log (e : event) : bool :=
  match e with Log _ _ => true | _ => false end.

Definition not_commit (e : event) : bool :=
  match e with Commit => false | _ => true end.


Section Services.
Variable w : world.




Lemma logs_extract_meetings subject body :
  preserves (grows is_log) (Analytics.extract_meetings_from_email w subject body).
Proof. unfold Analytics.extract_meetings_from_email. grow is_log. Qed.

Lemma save_transaction_no_commit transaction :
  preserves (grows not_commit) (Finance.save_transaction w transaction).
Proof.
  unfold Finance.save_transaction, Finance.transaction_date_sql. grow not_commit.
Qed.

Lemma save_reminder_no_commit reminder :
  preserves (grows not_commit) (Reminders.save_reminder w reminder).
Proof.
  unfold Reminders.save_reminder, Reminders.deadline_and_context. grow not_commit.
Qed.

End Services.

End TraceFacts.

(** ** Commit or nothing: the two save functions *)
Module SaveFacts.
Import Py Env EnvFacts TraceFacts.
Local Open Scope string_scope.
Local Open Scope io_scope.

Lemma no_commit_among (new : list event) :
  forallb not_commit new = true -> ~ In Commit new.
Proof.
  intros F H. rewrite forallb_forall in F. specialize (F _ H). discriminate.
Qed.

Lemma in_snoc_log (new : list event) lvl text :
  In Commit (new ++ [Log lvl text]) <-> In Commit new.
Proof.
  rewrite in_app_iff. simpl. split; [intros [H|[H|[]]]; [exact H | discriminate] | tauto].
Qed.

(** What a save leaves behind: the outcome [b], the events [new], and
    whether the rows were committed. *)
Definition committed_iff_true (nonempty : bool) (c : M bool) (st : state) : Prop :=
  exists b new st',
    c st = (Ok b, st')
    /\ events st' = (events st ++ new)%list
    /\ (In Commit new <-> b = true /\ nonempty = true).

(** The shape the two functions share: connect, loop, commit. *)
Lemma save_shape (A : Type) (w : world) (body : A -> M unit) (items : list A)
  (done failed : string) (st : state) :
  (forall x, preserves (grows not_commit) (body x)) ->
  committed_iff_true true
    (try_except
       (conn <- Db.get_postgres_connection w ;;
        if negb conn then
          log ERROR "Could not connect to PostgreSQL database" ;;
          ret false
        else
          for_loop body items ;;
          lift (db_commit w) ;;
          emit Commit ;;
          log INFO done ;;
          ret true)
       (fun _ => log ERROR failed ;; ret false))
    st.
Proof.
  intros Hbody. unfold committed_iff_true, try_except, Db.get_postgres_connection.
  destruct (db_connect w) as [u|e].
  - unfold bind at 1. unfold bind at 1. unfold log at 1, emit at 1, ret at 1.
    cbn [negb]. cbv iota.
    set (st1 := mk_state (token_file st) (tick st)
                  (events st ++
                     [Log INFO "Supabase session pooler PostgreSQL connection successful!"])).
    pose proof (@preserves_for_loop (grows not_commit) (grows_refl not_commit)
                  (grows_trans (allowed := not_commit)) A body items Hbody st1)
      as (new & Ev & F).
    unfold bind at 1.
    destruct (for_loop body items st1) as [[u'|e] st2]; cbn [snd] in Ev.
    + unfold bind at 1, lift at 1. destruct (db_commit w) as [u''|e].
      * exists true,
          ([Log INFO "Supabase session pooler PostgreSQL connection successful!"]
             ++ new ++ [Commit; Log INFO done])%list.
        eexists. split; [reflexivity|]. cbn [events]. rewrite Ev. unfold st1. cbn [events].
        split; [now rewrite <- !app_assoc|].
        split; [tauto|]. intros _. apply in_or_app. right. apply in_or_app. right.
        now left.
      * exists false,
          ([Log INFO "Supabase session pooler PostgreSQL connection successful!"]
             ++ new ++ [Log ERROR failed])%list.
        eexists. split; [reflexivity|]. cbn [events]. rewrite Ev. unfold st1. cbn [events].
        split; [now rewrite <- !app_assoc|].
        split; [|intros [? _]; discriminate].
        intros [H|H]; [discriminate|]. apply in_snoc_log in H.
        now apply no_commit_among in H.
    + exists false,
        ([Log INFO "Supabase session pooler PostgreSQL connection successful!"]
           ++ new ++ [Log ERROR failed])%list.
      eexists. split; [reflexivity|]. cbn [events]. rewrite Ev. unfold st1. cbn [events].
      split; [now rewrite <- !app_assoc|].
      split; [|intros [? _]; discriminate].
      intros [H|H]; [discriminate|]. apply in_snoc_log in H.
      now apply no_commit_among in H.
  - exists false,
      [Log ERROR "Failed to connect to PostgreSQL (pooler)";
       Log ERROR "Could not connect to PostgreSQL database"].
    eexists. split; [reflexivity|]. cbn [events]. split; [now rewrite <- app_assoc|].
    split; [|intros [? _]; discriminate].
    intros [H|[H|[]]]; discriminate.
Qed.

Lemma save_empty (text : string) (st : state) :
  committed_iff_true false (log INFO text ;; ret true) st.
Proof.
  exists true, [Log INFO text]. eexists. split; [reflexivity|].
  split; [reflexivity|]. split; [intros [H|[]]; discriminate | intros [_ H]; discriminate].
Qed.

Lemma save_transactions_outcome :
  forall (w : world) (transactions : list dict) (st : state),
    exists b new st',
      Finance.save_transactions_to_database w transactions st = (Ok b, st')
      /\ events st' = (events st ++ new)%list
      /\ (In Commit new <-> b = true /\ transactions <> [])
      /\ (transactions = [] -> b = true).
Proof.
  intros w [|t ts] st.
  - destruct (save_empty "No transactions to save" st) as (b & new & st' & E & Ev & C).
    exists b, new, st'. split; [exact E|]. split; [exact Ev|].
    split; [|intros _; unfold bind, log, emit, ret in E; now inversion E].
    rewrite C. split; [intros [_ H]; discriminate | intros [_ H]; now elim H].
  - destruct (@save_shape dict w (Finance.save_transaction w) (t :: ts)
                "Successfully saved financial transactions to PostgreSQL database"
                "Error saving transactions to PostgreSQL database" st
                (save_transaction_no_commit w)) as (b & new & st' & E & Ev & C).
    exists b, new, st'. split; [exact E|]. split; [exact Ev|].
    split; [|discriminate]. rewrite C. split; intros [H _]; (split; [exact H | easy]).
Qed.

Lemma save_reminders_outcome :
  forall (w : world) (reminders : list dict) (st : state),
    exists b new st',
      Reminders.save_reminders_to_database w reminders st = (Ok b, st')
      /\ events st' = (events st ++ new)%list
      /\ (In Commit new <-> b = true /\ reminders <> [])
      /\ (reminders = [] -> b = true).
Proof.
  intros w [|r rs] st.
  - destruct (save_empty "No reminders to save" st) as (b & new & st' & E & Ev & C).
    exists b, new, st'. split; [exact E|]. split; [exact Ev|].
    split; [|intros _; unfold bind, log, emit, ret in E; now inversion E].
    rewrite C. split; [intros [_ H]; discriminate | intros [_ H]; now elim H].
  - destruct (@save_shape dict w (Reminders.save_reminder w) (r :: rs)
                "Successfully saved reminders to PostgreSQL database"
                "Error saving reminders to PostgreSQL database" st
                (save_reminder_no_commit w)) as (b & new & st' & E & Ev & C).
    exists b, new, st'. split; [exact E|]. split; [exact Ev|].
    split; [|discriminate]. rewrite C. split; intros [H _]; (split; [exact H | easy]).
Qed.

(** The events of a failed connection. *)
Definition unconnected : list event :=
  [Log ERROR "Failed to connect to PostgreSQL (pooler)";
   Log ERROR "Could not connect to PostgreSQL database"].

(** [save_transactions_to_database] never raises; it returns True on the
    empty list without a commit; on a non-empty list it returns True exactly
    when it has committed: a connection that fails, a row that cannot be
    built, an INSERT or a commit that raises leave False and no commit. When
    the connection fails nothing is sent to the database: the run leaves two
    error lines in the log. *)
Theorem save_transactions_commit_or_nothing :
  forall (w : world) (transactions : list dict) (st : state),
    exists b new st',
      Finance.save_transactions_to_database w transactions st = (Ok b, st')
      /\ events st' = (events st ++ new)%list
      /\ (In Commit new <-> b = true /\ transactions <> [])
      /\ (transactions = [] -> b = true)
      /\ (forall e, db_connect w = Raise e -> transactions <> [] -> new = unconnected).
Proof.
  intros w transactions st.
  destruct (save_transactions_outcome w transactions st) as (b & new & st' & E & Ev & C & N).
  exists b, new, st'.
  split; [exact E|]. split; [exact Ev|]. split; [exact C|]. split; [exact N|].
  intros e He Hne. destruct transactions as [|t ts]; [congruence|].
  revert E. unfold Finance.save_transactions_to_database, try_except,
    Db.get_postgres_connection. rewrite He. intros E. inversion E. subst.
  cbn [events] in Ev. rewrite <- app_assoc in Ev. now apply app_inv_head in Ev.
Qed.

(** [save_reminders_to_database] never raises; it returns True on the empty
    list without a commit; on a non-empty list it returns True exactly when
    it has committed. When the connection fails nothing is sent to the
    database: the run leaves two error lines in the log. *)
Theorem save_reminders_commit_or_nothing :
  forall (w : world) (reminders : list dict) (st : state),
    exists b new st',
      Reminders.save_reminders_to_database w reminders st = (Ok b, st')
      /\ events st' = (events st ++ new)%list
      /\ (In Commit new <-> b = true /\ reminders <> [])
      /\ (reminders = [] -> b = true)
      /\ (forall e, db_connect w = Raise e -> reminders <> [] -> new = unconnected).
Proof.
  intros w reminders st.
  destruct (save_reminders_outcome w reminders st) as (b & new & st' & E & Ev & C & N).
  exists b, new, st'.
  split; [exact E|]. split; [exact Ev|]. split; [exact C|]. split; [exact N|].
  intros e He Hne. destruct reminders as [|r rs]; [congruence|].
  revert E. unfold Reminders.save_reminders_to_database, try_except,
    Db.get_postgres_connection. rewrite He. intros E. inversion E. subst.
  cbn [events] in Ev. rewrite <- app_assoc in Ev. now apply app_inv_head in Ev.
Qed.

End SaveFacts.

(** ** More facts about services/email_orchestrator.py *)
Module PipelineFacts.
Import Py PyFacts Env EnvFacts TraceFacts Orchestrator.
Local Open Scope string_scope.
Local Open Scope io_scope.

Section Process.
Variable w : world.

Lemma classify_tagging subject body sender st services st' :
  classify_email_type w subject body sender st = (Ok services, st') ->
  In (VStr "tagging") services.
Proof.
  unfold classify_email_type, try_except, bind, ask, loads, log, emit, ret, raise.
  destruct (llm w (AskServices subject body sender)) as [e|t].
  - intros H. inversion H. now left.
  - destruct (json_loads w (strip t)) as [v|].
    + destruct v; intros H; inversion H; try now left.
      destruct (among "tagging" l) eqn:A.
      * now apply OrchestratorFacts.among_In.
      * apply in_or_app. right. now left.
    + intros H. inversion H. now left.
Qed.

Lemma read_message_id msg_data m :
  Mail.read_message w msg_data = Ok m ->
  get_item (VDict msg_data) "id" = Ok (Mail.m_email_id m)
  /\ get_item (VDict msg_data) "threadId" = Ok (Mail.m_thread_id m).
Proof.
  unfold Mail.read_message, Py.bind.
  repeat match goal with
         | |- context [match ?x with Ok _ => _ | Raise _ => _ end] =>
             destruct x; try discriminate
         end.
  intros H. inversion H. now split.
Qed.

Lemma pipeline_result msg_data save_to_db st r st' :
  pipeline w msg_data save_to_db st = (Ok r, st') ->
  get_item (VDict msg_data) "id" = Ok (email_id r)
  /\ get_item (VDict msg_data) "threadId" = Ok (thread_id r)
  /\ In (VStr "tagging") (services_used r).
Proof.
  unfold pipeline. intros H.
  apply bind_inversion in H as (m & s1 & Hm & H).
  unfold lift in Hm. inversion Hm as [[Hr Hs]]. subst s1.
  apply bind_inversion in H as (services & s2 & Hc & H).
  apply bind_inversion in H as (u1 & s3 & _ & H).
  apply bind_inversion in H as (u2 & s4 & _ & H).
  apply bind_inversion in H as (rem & s5 & _ & H).
  apply bind_inversion in H as (fin & s6 & _ & H).
  apply bind_inversion in H as (rep & s7 & _ & H).
  unfold ret in H. inversion H. simpl.
  destruct (@read_message_id _ _ Hr) as [I T]. repeat split; try assumption.
  eapply classify_tagging; eassumption.
Qed.

Lemma when_among_slot (A : Type) name services (branch : M A) st slot st' :
  when_among name services branch st = (Ok slot, st') ->
  (among name services = true <-> slot <> None).
Proof.
  unfold when_among. destruct (among name services).
  - intros H. apply bind_inversion in H as (a & s1 & _ & H).
    unfold ret in H. inversion H. split; [discriminate | reflexivity].
  - unfold ret. intros H. inversion H. split; [discriminate | congruence].
Qed.

Lemma process_reminders_found m save_to_db st e st' :
  process_reminders w m save_to_db st = (Ok e, st') ->
  found e = List.length (items e) /\ (save_to_db = false -> saved_to_db e = false).
Proof.
  unfold process_reminders. intros H.
  apply bind_inversion in H as (rs & s1 & _ & H).
  destruct save_to_db.
  - destruct (map _ rs) eqn:E.
    + unfold ret in H. inversion H. simpl. split; [reflexivity | discriminate].
    + apply bind_inversion in H as (b & s2 & _ & H).
      unfold ret in H. inversion H. simpl. split; [reflexivity | discriminate].
  - unfold ret in H. inversion H. simpl. split; reflexivity.
Qed.

Lemma process_finance_found m save_to_db st e st' :
  process_finance w m save_to_db st = (Ok e, st') ->
  found e = List.length (items e) /\ (save_to_db = false -> saved_to_db e = false).
Proof.
  unfold process_finance. intros H.
  apply bind_inversion in H as (rs & s1 & _ & H).
  destruct save_to_db.
  - destruct (map _ rs) eqn:E.
    + unfold ret in H. inversion H. simpl. split; [reflexivity | discriminate].
    + apply bind_inversion in H as (b & s2 & _ & H).
      unfold ret in H. inversion H. simpl. split; [reflexivity | discriminate].
  - unfold ret in H. inversion H. simpl. split; reflexivity.
Qed.

Lemma when_among_some (A : Type) name services (branch : M A) st a st' :
  when_among name services branch st = (Ok (Some a), st') ->
  exists s, branch st = (Ok a, s).
Proof.
  unfold when_among. destruct (among name services).
  - intros H. apply bind_inversion in H as (a' & s1 & Hb & H).
    unfold ret in H. inversion H. subst. eauto.
  - unfold ret. intros H. inversion H.
Qed.

End Process.

(** In the merged result of [process_email] the slot of a service
    (reminders, finance, auto_reply) is filled exactly when the service is
    among "services_used"; in a filled slot of reminders or finance, "found"
    is the number of "items", and "saved_to_db" is false when [save_to_db]
    is. A save that fails leaves its slot filled, with "saved_to_db" false,
    and the services after it are still run. *)
Theorem process_email_fills_the_slots_of_its_services :
  forall (w : world) (msg_data : dict) (save_to_db : bool) (st st' : state)
         (r : results),
    process_email w msg_data save_to_db st = (Ok (Processed r), st') ->
    (among "reminders" (services_used r) = true <-> reminders r <> None)
    /\ (among "finance" (services_used r) = true <-> finance r <> None)
    /\ (among "auto_reply" (services_used r) = true <-> auto_reply r <> None)
    /\ (forall e, reminders r = Some e \/ finance r = Some e ->
          found e = List.length (items e)
          /\ (save_to_db = false -> saved_to_db e = false)).
Proof.
  intros w msg_data save_to_db st st' r. unfold process_email, try_except, bind at 1.
  destruct (pipeline w msg_data save_to_db st) as [[r0|e] s] eqn:P;
    [|intros H; apply bind_inversion in H as (? & ? & _ & H); inversion H].
  unfold ret. intros H. inversion H. subst. clear H.
  unfold pipeline in P.
  apply bind_inversion in P as (m & s1 & _ & P).
  apply bind_inversion in P as (services & s2 & _ & P).
  apply bind_inversion in P as (u1 & s3 & _ & P).
  apply bind_inversion in P as (u2 & s4 & _ & P).
  apply bind_inversion in P as (rem & s5 & Hrem & P).
  apply bind_inversion in P as (fin & s6 & Hfin & P).
  apply bind_inversion in P as (rep & s7 & Hrep & P).
  unfold ret in P. inversion P. subst. simpl.
  split; [exact (when_among_slot _ _ _ _ Hrem)|].
  split; [exact (when_among_slot _ _ _ _ Hfin)|].
  split; [exact (when_among_slot _ _ _ _ Hrep)|].
  intros e [-> | ->].
  - apply when_among_some in Hrem as (s & Hrem).
    exact (@process_reminders_found w _ _ _ _ _ Hrem).
  - apply when_among_some in Hfin as (s & Hfin).
    exact (@process_finance_found w _ _ _ _ _ Hfin).
Qed.

(** [process_email] never raises. It returns the merged result, which
    carries the id and the thread id of the message and has "tagging" among
    its services, or else the error entry, which carries the id of the
    message, or "unknown" when the message has none, after one error line in
    the log. *)
Theorem process_email_never_raises :
  forall (w : world) (msg_data : dict) (save_to_db : bool) (st : state),
    exists outcome st',
      process_email w msg_data save_to_db st = (Ok outcome, st')
      /\ match outcome with
         | Processed r =>
             get_item (VDict msg_data) "id" = Ok (email_id r)
             /\ get_item (VDict msg_data) "threadId" = Ok (thread_id r)
             /\ In (VStr "tagging") (services_used r)
         | Failed message id =>
             message = "Error processing email"
             /\ id = get_or msg_data "id" (VStr "unknown")
             /\ exists earlier,
                  events st' = (earlier ++ [Log ERROR "Error processing email"])%list
         end.
Proof.
  intros w msg_data save_to_db st. unfold process_email, try_except, bind at 1.
  destruct (pipeline w msg_data save_to_db st) as [[r|e] st1] eqn:P.
  - exists (Processed r), st1. split; [reflexivity|].
    exact (@pipeline_result w _ _ _ _ _ P).
  - eexists. eexists. split; [reflexivity|]. cbn [events].
    repeat split. eexists. reflexivity.
Qed.


End PipelineFacts.

(** ** Facts about get_body and the lookup of a header *)
Module MailFacts.
Import Py PyFacts Env.
Local Open Scope string_scope.
Local Open Scope py_scope.

(** A part that has a mimeType, and it is not text/plain. *)
Definition other_part (part : value) : Prop :=
  exists mime,
    get_item part "mimeType" = Ok mime /\ py_eq mime (VStr "text/plain") = false.

(** A header whose name is a string that is not [name] once lowercased. *)
Definition other_header (name : string) (h : value) : Prop :=
  exists n, get_item h "name" = Ok (VStr n) /\ lower n <> name.

Section Services.
Variable w : world.

Lemma plain_part_skips before : forall rest,
  Forall other_part before ->
  Mail.plain_part (before ++ rest) = Mail.plain_part rest.
Proof.
  induction before as [|p before IH]; intros rest F; [reflexivity|].
  inversion F as [|? ? (mime & Hm & Hp) F']; subst. simpl.
  rewrite Hm. simpl. rewrite Hp. now apply IH.
Qed.

Lemma plain_part_none parts :
  Forall other_part parts -> Mail.plain_part parts = Ok None.
Proof.
  intros F. rewrite <- (app_nil_r parts). now rewrite plain_part_skips.
Qed.

Lemma find_header_skips name before : forall rest,
  Forall (other_header name) before ->
  Mail.find_header (before ++ rest) name = Mail.find_header rest name.
Proof.
  induction before as [|h before IH]; intros rest F; [reflexivity|].
  inversion F as [|? ? (n & Hn & Hl) F']; subst. simpl.
  rewrite Hn. simpl. apply String.eqb_neq in Hl. rewrite Hl. now apply IH.
Qed.

End Services.

(** [get_body]: a payload without 'parts' gives the text of its own body;
    a payload with parts gives the text of the first part whose mimeType is
    text/plain, whatever comes after it; when no part is text/plain it gives
    the text of the first part; and with an empty list of parts it raises
    IndexError. *)
Theorem get_body_prefers_plain_text :
  forall (w : world) (payload : dict),
    (dict_get payload "parts" = None ->
     Mail.get_body w (VDict payload) = Mail.part_text w (VDict payload))
    /\ (forall before part after,
          dict_get payload "parts" = Some (VList (before ++ part :: after)) ->
          Forall other_part before ->
          get_item part "mimeType" = Ok (VStr "text/plain") ->
          Mail.get_body w (VDict payload) = Mail.part_text w part)
    /\ (forall first rest,
          dict_get payload "parts" = Some (VList (first :: rest)) ->
          Forall other_part (first :: rest) ->
          Mail.get_body w (VDict payload) = Mail.part_text w first)
    /\ (dict_get payload "parts" = Some (VList []) ->
        Mail.get_body w (VDict payload) = Raise IndexError).
Proof.
  intros w payload. unfold Mail.get_body, has_member, dict_has.
  repeat split.
  - intros ->. reflexivity.
  - intros before part after E F Hm. rewrite E.
    unfold get_item at 1. rewrite E. simpl.
    rewrite plain_part_skips by exact F. simpl.
    rewrite Hm. reflexivity.
  - intros first rest E F. rewrite E.
    unfold get_item at 1. rewrite E.
    pose proof (plain_part_none F) as N. cbn [Py.bind py_iter first_item].
    rewrite N. reflexivity.
  - intros E. rewrite E. unfold get_item at 1. rewrite E. reflexivity.
Qed.

(** The lookup of a header, as [process_email] does it for the subject, the
    sender and the date: the value of the first header whose name, once
    lowercased, is the name looked for, and the empty string when no header
    has that name. *)
Theorem find_header_first_match :
  forall (name : string) (headers : list value),
    (forall before h after n v,
        headers = (before ++ h :: after)%list ->
        Forall (other_header name) before ->
        get_item h "name" = Ok (VStr n) ->
        lower n = name ->
        get_item h "value" = Ok v ->
        Mail.find_header headers name = Ok v)
    /\ (Forall (other_header name) headers ->
        Mail.find_header headers name = Ok (VStr "")).
Proof.
  intros name headers. split.
  - intros before h after n v -> F Hn Hl Hv.
    rewrite find_header_skips by exact F. simpl.
    rewrite Hn. simpl. rewrite Hl, String.eqb_refl. exact Hv.
  - intros F. rewrite <- (app_nil_r headers). now rewrite find_header_skips.
Qed.

End MailFacts.

(** ** More facts about services/email_analytics.py *)
Module ReportFacts.
Import Py PyFacts Env EnvFacts TraceFacts SortFacts Analytics.
Local Open Scope string_scope.
Local Open Scope io_scope.

(** From [a] to [b] the token file is as it was and only lines of the log
    were recorded. *)
Definition only_logged (a b : state) : Prop :=
  token_file b = token_file a /\ grows is_log a b.

Lemma only_logged_refl st : only_logged st st.
Proof. split; [reflexivity | apply grows_refl]. Qed.

Lemma only_logged_trans a b c : only_logged a b -> only_logged b c -> only_logged a c.
Proof.
  intros [T1 G1] [T2 G2]. split; [congruence | eapply grows_trans; eauto].
Qed.

Lemma only_logged_log lvl text : preserves only_logged (log lvl text).
Proof. intros st. split; [reflexivity | now apply grows_emit]. Qed.

Lemma only_logged_tick : preserves only_logged next_tick.
Proof. intros st. split; [reflexivity | now apply grows_same]. Qed.

Lemma only_logged_token_file_exists : preserves only_logged token_file_exists.
Proof. intros st. apply only_logged_refl. Qed.

Ltac logged_step :=
  first
    [ apply (@preserves_ret only_logged only_logged_refl)
    | apply (@preserves_raise only_logged only_logged_refl)
    | apply (@preserves_lift only_logged only_logged_refl)
    | apply only_logged_tick
    | apply only_logged_token_file_exists
    | apply only_logged_log
    | apply (@preserves_bind only_logged only_logged_trans); [|intros ?]
    | apply (@preserves_try_except only_logged only_logged_trans); [|intros ?]
    | apply (@preserves_for_loop only_logged only_logged_refl only_logged_trans);
      intros ?
    | apply (@preserves_for_list only_logged only_logged_refl only_logged_trans);
      intros ?
    | progress cbv zeta
    | match goal with
      | |- preserves _ (match ?x with _ => _ end) => destruct x
      | |- preserves _ (if ?b then _ else _) => destruct b
      end ].

Ltac logged := repeat (unfold ask, loads, isoformat_now, fresh_uuid; logged_step).

Section Report.
Variable w : world.

Lemma only_logged_get_gmail_service : preserves only_logged (get_gmail_service w).
Proof. unfold get_gmail_service. logged. Qed.

Lemma only_logged_analyse_message acc msg :
  preserves only_logged (analyse_message w acc msg).
Proof.
  unfold analyse_message, extract_meetings_from_email,
    Finance.extract_financial_data_from_email, Finance.add_source,
    Reminders.extract_reminders_from_email, Reminders.add_source.
  logged.
Qed.

Lemma only_logged_analyse_messages messages : forall acc,
  preserves only_logged (analyse_messages w acc messages).
Proof.
  induction messages as [|msg rest IH]; intros acc; simpl.
  - apply (@preserves_ret only_logged only_logged_refl).
  - apply (@preserves_bind only_logged only_logged_trans);
      [apply only_logged_analyse_message | intros acc'; apply IH].
Qed.

Lemma only_logged_generate max_emails :
  preserves only_logged (generate_email_analytics w max_emails).
Proof.
  unfold generate_email_analytics.
  logged; first [apply only_logged_get_gmail_service | apply only_logged_analyse_messages].
Qed.

End Report.

(** [generate_email_analytics] never raises and only reads: it leaves
    nothing behind but lines in the log (no INSERT, no commit, no draft) and
    never creates or replaces token.json. Without token.json it does not
    start the sign-in flow: it returns the error report after one error
    line. *)
Theorem generate_email_analytics_only_reads :
  forall (w : world) (max_emails : nat) (st : state),
    exists report st' new,
      generate_email_analytics w max_emails st = (Ok report, st')
      /\ token_file st' = token_file st
      /\ events st' = (events st ++ new)%list
      /\ forallb is_log new = true
      /\ (token_file st = false ->
          report = Failure
          /\ new = [Log ERROR "Error generating email analytics"]).
Proof.
  intros w max_emails st.
  destruct (only_logged_generate w max_emails st) as [T (new & Ev & F)].
  destruct (generate_email_analytics w max_emails st) as [r st'] eqn:G.
  cbn [snd] in T, Ev.
  assert (R : exists report, r = Ok report).
  { unfold generate_email_analytics, try_except in G.
    match type of G with
    | match ?body st with _ => _ end = _ => destruct (body st) as [[a|e] s]
    end; inversion G; eauto. }
  destruct R as [report ->]. exists report, st', new.
  split; [reflexivity|]. split; [exact T|]. split; [exact Ev|]. split; [exact F|].
  intros Hno. revert G Ev. unfold generate_email_analytics, try_except, get_gmail_service.
  unfold bind at 1. unfold bind at 1. unfold token_file_exists at 1.
  rewrite Hno. simpl. intros G. inversion G. simpl.
  intros Ev. apply app_inv_head in Ev. now split.
Qed.

End ReportFacts.

(** ** The sort keeps ties in their order *)
Module StableFacts.
Import Py SortFacts.
Local Open Scope py_scope.

Section Stable.
Variables A K : Type.
Variable key : A -> result K.
Variable lt : K -> K -> result bool.
Variable good : K -> Prop.
Variable leb : K -> K -> bool.
Hypothesis leb_total : forall a b, good a -> good b -> leb a b = true \/ leb b a = true.
Hypothesis leb_trans : forall a b c,
  good a -> good b -> good c -> leb a b = true -> leb b c = true -> leb a c = true.
Hypothesis lt_leb : forall a b, good a -> good b -> lt a b = Ok (negb (leb b a)).

(** The key of [y] ties with [k]: each is at most the other. *)
Definition tie (k : K) (y : K * A) : bool := leb k (fst y) && leb (fst y) k.

Local Abbreviation sorted_by := (StronglySorted (ordered leb (A := A))).
Local Abbreviation all_good := (Forall (fun y : K * A => good (fst y))).

Lemma insert_ties (k : K) (x : K * A) (Gk : good k) (Gx : good (fst x)) :
  forall sorted out,
    all_good sorted -> sorted_by sorted ->
    insert lt x sorted = Ok out ->
    filter (tie k) out = (filter (tie k) sorted ++ filter (tie k) [x])%list.
Proof.
  induction sorted as [|y rest IH]; intros out G S H; simpl in H.
  - inversion H. reflexivity.
  - inversion G as [|? ? Gy Grest]; subst. inversion S as [|? ? Srest Hy]; subst.
    rewrite (lt_leb Gx Gy) in H.
    destruct (leb (fst y) (fst x)) eqn:L; simpl in H.
    + destruct (insert lt x rest) as [out'|e] eqn:E; simpl in H; [|discriminate].
      inversion H. subst out. simpl filter at 1 2.
      rewrite (IH out' Grest Srest eq_refl).
      destruct (tie k y); reflexivity.
    + inversion H. subst out. clear H.
      destruct (tie k x) eqn:T.
      * assert (N : filter (tie k) (y :: rest) = []).
        { apply andb_true_iff in T as [T1 T2].
          assert (F : Forall (fun z => tie k z = false) (y :: rest)).
          { assert (Hy' : Forall (fun z => leb (fst y) (fst z) = true) (y :: rest)).
            { constructor; [|exact Hy].
              destruct (leb_total Gy Gy); assumption. }
            rewrite Forall_forall in *. intros z Hz.
            destruct (tie k z) eqn:Tz; [|reflexivity].
            apply andb_true_iff in Tz as [Tz1 Tz2].
            assert (Gz : good (fst z)) by (apply (G z Hz)).
            assert (leb (fst y) (fst x) = true); [|congruence].
            apply (@leb_trans (fst y) (fst z) (fst x)); auto.
            apply (@leb_trans (fst z) k (fst x)); auto. }
          clear - F. induction F as [|z l Hz F IH]; simpl; [reflexivity|].
          now rewrite Hz. }
        simpl filter at 1. rewrite T. cbn [filter] in N |- *. rewrite N.
        simpl. now rewrite T.
      * simpl filter at 1. rewrite T. simpl. rewrite T. now rewrite app_nil_r.
Qed.

Lemma insert_all_ties (k : K) (Gk : good k) (xs : list (K * A)) :
  forall acc out,
    all_good xs -> all_good acc -> sorted_by acc ->
    for_each (fun acc x => insert lt x acc) xs acc = Ok out ->
    filter (tie k) out = (filter (tie k) acc ++ filter (tie k) xs)%list.
Proof.
  induction xs as [|x xs IH]; simpl; intros acc out Gxs Gacc S H.
  - inversion H. now rewrite app_nil_r.
  - inversion Gxs as [|? ? Gx Grest]; subst.
    destruct (@insert_sorted A K lt good leb leb_total leb_trans lt_leb x acc Gx Gacc S)
      as (acc' & E & S').
    rewrite E in H. simpl in H.
    assert (Gacc' : all_good acc').
    { apply insert_permutation in E.
      eapply Permutation_Forall; [exact E|]. now constructor. }
    rewrite (IH acc' out Grest Gacc' S' H).
    rewrite (@insert_ties k x Gk Gx acc acc' Gacc S E). simpl.
    destruct (tie k x); simpl; now rewrite <- app_assoc.
Qed.

(** Among the items of the result, those whose key ties with [k] are in
    the order they came in. *)
Lemma py_sort_ties (p : A -> bool) (k : K) (xs out : list A) (keyed : list (K * A)) :
  good k ->
  map_m (fun x => k <- key x ;; Ok (k, x)) xs = Ok keyed ->
  all_good keyed ->
  (forall y, In y keyed -> tie k y = p (snd y)) ->
  py_sort key lt xs = Ok out ->
  filter p out = filter p xs.
Proof.
  intros Gk E G P H. unfold py_sort in H. rewrite E in H. simpl in H.
  destruct (for_each _ keyed []) as [sorted|e] eqn:E2; simpl in H; [|discriminate].
  inversion H. subst out.
  pose proof (@insert_all_ties k Gk keyed [] sorted G (Forall_nil _)
                (SSorted_nil _) E2) as T.
  simpl in T.
  assert (M : forall l : list (K * A),
             (forall y, In y l -> tie k y = p (snd y)) ->
             map snd (filter (tie k) l) = filter p (map snd l)).
  { induction l as [|y l IH]; intros Hl; simpl; [reflexivity|].
    rewrite <- (Hl y (or_introl eq_refl)).
    destruct (tie k y); simpl; [f_equal|]; apply IH; intros z Hz; apply Hl; now right. }
  rewrite <- (M sorted).
  - rewrite T, (M keyed P). now apply keyed_snd in E as [-> _].
  - intros y Hy. apply P. apply insert_all_permutation in E2.
    rewrite app_nil_r in E2. eapply Permutation_in; [apply Permutation_sym; exact E2 | exact Hy].
Qed.

End Stable.

End StableFacts.

(** ** The order of the meetings and of the todos *)
Module OrderFacts.
Import Py PyFacts Env EnvFacts SortFacts StableFacts Analytics AnalyticsFacts.
Local Open Scope string_scope.

Lemma string_tie (a b : string) :
  String.leb a b && String.leb b a = String.eqb a b.
Proof.
  destruct (String.eqb_spec a b) as [-> | N].
  - now rewrite string_leb_refl.
  - destruct (String.leb a b) eqn:L1, (String.leb b a) eqn:L2; try reflexivity.
    elim N. now apply String.leb_antisym.
Qed.

(** *** The meetings *)

(** A meeting whose date is a string or absent. *)
Definition dated (meeting : dict) : Prop :=
  match dict_get meeting "date" with
  | None | Some (VStr _) => True
  | Some _ => False
  end.

(** The date, or the sentinel for a meeting that has none. *)
Definition date_or_sentinel (meeting : dict) : string :=
  match dict_get meeting "date" with
  | Some (VStr d) => d
  | _ => "9999-12-31"
  end.

Definition is_str (k : value) : Prop := exists d, k = VStr d.

Definition str_leb (a b : value) : bool :=
  match a, b with
  | VStr x, VStr y => String.leb x y
  | _, _ => false
  end.

Lemma str_leb_total a b : is_str a -> is_str b -> str_leb a b = true \/ str_leb b a = true.
Proof. intros [x ->] [y ->]. apply String.leb_total. Qed.

Lemma str_leb_trans a b c :
  is_str a -> is_str b -> is_str c ->
  str_leb a b = true -> str_leb b c = true -> str_leb a c = true.
Proof. intros [x ->] [y ->] [z ->]. apply string_leb_trans. Qed.

Lemma py_lt_str a b : is_str a -> is_str b -> py_lt a b = Ok (negb (str_leb b a)).
Proof. intros [x ->] [y ->]. simpl. now rewrite string_ltb_leb. Qed.

Definition meeting_key (m : dict) : result value :=
  Ok (get_or m "date" (VStr "9999-12-31")).

Lemma meeting_key_dated (m : dict) :
  dated m -> meeting_key m = Ok (VStr (date_or_sentinel m)).
Proof.
  unfold dated, meeting_key, date_or_sentinel, get_or.
  destruct (dict_get m "date") as [[]|]; intros H; try contradiction; reflexivity.
Qed.

Lemma meeting_keys (xs : list dict) :
  Forall dated xs ->
  map_m (fun x => (k <- meeting_key x ;; Ok (k, x))%py) xs
  = Ok (map (fun x => (VStr (date_or_sentinel x), x)) xs).
Proof.
  induction 1 as [|x xs Hx _ IH]; cbn [map_m map]; [reflexivity|].
  rewrite (@meeting_key_dated _ Hx). cbn [Py.bind]. rewrite IH. reflexivity.
Qed.

Definition by_date (a b : dict) : Prop :=
  String.leb (date_or_sentinel a) (date_or_sentinel b) = true.

Lemma sort_meetings_dated (all_meetings : list dict) :
  Forall dated all_meetings ->
  exists out,
    sort_meetings all_meetings = Ok out
    /\ Permutation all_meetings out
    /\ StronglySorted by_date out
    /\ forall d,
         filter (fun m => String.eqb d (date_or_sentinel m)) out
         = filter (fun m => String.eqb d (date_or_sentinel m)) all_meetings.
Proof.
  intros D. pose proof (@meeting_keys _ D) as Hk.
  set (keyed := map (fun x => (VStr (date_or_sentinel x), x)) all_meetings) in *.
  assert (G : Forall (fun y : value * dict => is_str (fst y)) keyed).
  { unfold keyed. rewrite Forall_map. apply Forall_forall. intros x _. now eexists. }
  destruct (@py_sort_sorted dict value meeting_key py_lt is_str str_leb
              str_leb_total str_leb_trans py_lt_str all_meetings keyed Hk G)
    as (sorted & E & S & Keys).
  change (py_sort meeting_key py_lt all_meetings) with (sort_meetings all_meetings) in E.
  pose proof (@py_sort_permutation _ _ meeting_key py_lt _ _ E) as P.
  exists (map snd sorted). split; [exact E|]. split; [exact P|]. split.
  - assert (Dsorted : Forall dated (map snd sorted))
      by (eapply Permutation_Forall; eauto).
    clear E Hk G P.
    induction S as [|y rest S IH Hy]; simpl; [constructor|].
    inversion Keys as [|? ? Ky Krest]; subst.
    inversion Dsorted as [|? ? Dy Drest]; subst.
    constructor; [now apply IH|].
    rewrite Forall_forall in *. intros z Hz.
    apply in_map_iff in Hz as (kz & <- & Hz).
    specialize (Hy kz Hz). unfold ordered in Hy.
    assert (Dz : dated (snd kz)) by (apply Drest; now apply in_map).
    specialize (Krest kz Hz). simpl in Krest.
    rewrite (@meeting_key_dated _ Dy) in Ky. rewrite (@meeting_key_dated _ Dz) in Krest.
    injection Ky as Ky. injection Krest as Kz.
    rewrite <- Ky, <- Kz in Hy. exact Hy.
  - intros d.
    apply (@py_sort_ties dict value meeting_key py_lt is_str str_leb
             str_leb_total str_leb_trans py_lt_str
             (fun m => String.eqb d (date_or_sentinel m)) (VStr d)
             all_meetings (map snd sorted) keyed); auto.
    + now eexists.
    + intros y Hy. unfold keyed in Hy. apply in_map_iff in Hy as (x & <- & _).
      unfold tie. simpl. apply string_tie.
Qed.

Local Open Scope io_scope.

(** The meetings a successful report carries are what [sort_meetings]
    returned. *)
Lemma generate_email_analytics_meetings (w : world) (max_emails : nat) (st : state)
  (message : string) (processed : nat) (a : analytics) :
  fst (generate_email_analytics w max_emails st) = Ok (Success message processed a) ->
  meetings a = [] \/ exists all_meetings, sort_meetings all_meetings = Ok (meetings a).
Proof.
  unfold generate_email_analytics, try_except.
  match goal with
  | |- fst (match ?body st with _ => _ end) = _ -> _ =>
      destruct (body st) as [[r|e] st'] eqn:B
  end; simpl; [|discriminate].
  intros H. injection H as ->.
  apply bind_inversion in B as (u & st1 & _ & B).
  apply bind_inversion in B as (messages & st2 & _ & B).
  destruct (negb (truthy messages)).
  - apply bind_inversion in B as (u' & st3 & _ & B).
    injection B as <- <- <-. now left.
  - apply bind_inversion in B as (visited & st3 & _ & B).
    apply bind_inversion in B as (g & st4 & _ & B).
    unfold lift in B. injection B as B _. right. exists (all_meetings g).
    unfold finish in B.
    destruct (match all_financial_data g with
              | [] => Ok None
              | _ => _
              end) as [fs|e]; simpl in B; [|discriminate].
    destruct (sort_meetings (all_meetings g)) as [sorted|e]; simpl in B; [|discriminate].
    destruct (sort_todos (all_todos g)); simpl in B; [|discriminate].
    injection B as _ _ <-. reflexivity.
Qed.

(** The meetings of a report are in ascending order of their date, the
    dates compared as strings and a meeting without date taking the sentinel
    "9999-12-31", whenever every date is a string. On such meetings the sort
    returns, loses and adds no meeting, and keeps meetings of one date in
    the order in which they were found. *)
Theorem meetings_sorted_by_date :
  forall w : world,
    (forall max_emails st message processed a,
        fst (generate_email_analytics w max_emails st)
          = Ok (Success message processed a) ->
        Forall dated (meetings a) ->
        StronglySorted by_date (meetings a))
    /\ (forall all_meetings,
          Forall dated all_meetings ->
          exists out,
            sort_meetings all_meetings = Ok out
            /\ Permutation all_meetings out
            /\ StronglySorted by_date out
            /\ forall d,
                 filter (fun m => String.eqb d (date_or_sentinel m)) out
                 = filter (fun m => String.eqb d (date_or_sentinel m)) all_meetings).
Proof.
  intros w. split; [|exact sort_meetings_dated].
  intros max_emails st message processed a H D.
  destruct (@generate_email_analytics_meetings _ _ _ _ _ _ H) as [-> | (input & E)];
    [constructor|].
  assert (Din : Forall dated input).
  { eapply Permutation_Forall; [|exact D].
    apply Permutation_sym.
    exact (@py_sort_permutation _ _ meeting_key py_lt _ _ E). }
  destruct (@sort_meetings_dated _ Din) as (out & E' & _ & S & _).
  rewrite E in E'. injection E' as <-. exact S.
Qed.

(** *** The todos *)




End OrderFacts.

(** ** The primary currency among currencies of equal volume *)
Module PrimaryFacts.
Import Py PyFacts Env Finance FinanceFacts.
Local Open Scope string_scope.

Lemma SFltb_below (a y m : spec_float) :
  SFltb a y = false -> SFltb a m = true -> y <> S754_nan -> SFltb y m = true.
Proof.
  unfold SFltb, SFcompare.
  destruct a as [sa|sa| |sa ma ea], y as [sy|sy| |sy my ey], m as [sm|sm| |sm mm em];
    try destruct sa; try destruct sy; try destruct sm; simpl; try congruence;
    change (PosDef.Pos.compare_cont Eq) with Pos.compare;
    repeat match goal with
           | |- context [Z.compare ?x ?y] => destruct (Z.compare_spec x y)
           | |- context [Pos.compare ?x ?y] => destruct (Pos.compare_spec x y)
           end; simpl; subst; try congruence; try lia.
Qed.

Lemma not_nan (f : float) : PrimFloat.is_nan f = false -> Prim2SF f <> S754_nan.
Proof.
  unfold PrimFloat.is_nan. rewrite eqb_spec. intros H E. rewrite E in H. discriminate.
Qed.

Lemma ltb_below (a y m : float) :
  PrimFloat.ltb a y = false -> PrimFloat.ltb a m = true ->
  PrimFloat.is_nan y = false -> PrimFloat.ltb y m = true.
Proof.
  rewrite !ltb_spec. intros H1 H2 N. apply (@SFltb_below _ _ _ H1 H2). now apply not_nan.
Qed.

(** Python's [max], on keys none of which is a NaN: the items before the
    one it returns have a smaller key. *)
Lemma max_from_first (A : Type) (key : A -> float) (rest : list A) : forall best,
  Forall (fun x => PrimFloat.is_nan (key x) = false) rest ->
  exists l1 l2,
    (best :: rest = l1 ++ max_from key best rest :: l2)%list
    /\ Forall (fun x => PrimFloat.ltb (key x) (key (max_from key best rest)) = true) l1.
Proof.
  induction rest as [|y rest IH]; intros best N; simpl.
  - exists [], []. split; [reflexivity | constructor].
  - inversion N as [|? ? Ny Nrest]; subst.
    destruct (PrimFloat.ltb (key best) (key y)) eqn:E.
    + destruct (IH y Nrest) as (l1 & l2 & D & F).
      exists (best :: l1), l2. split; [simpl; congruence|].
      constructor; [|exact F].
      destruct l1 as [|z l1]; simpl in D.
      * injection D as D _. now rewrite <- D.
      * injection D as <- _. inversion F as [|? ? Fy _]; subst.
        eapply ltb_transitive; eauto.
    + destruct (IH best Nrest) as (l1 & l2 & D & F).
      destruct l1 as [|z l1]; simpl in D.
      * injection D as D1 D2. exists [], (y :: l2). split; [|constructor].
        simpl. congruence.
      * injection D as <- D2. exists (best :: y :: l1), l2.
        split; [simpl; congruence|].
        inversion F as [|? ? Fb Fl]; subst.
        constructor; [exact Fb|]. constructor; [|exact Fl].
        eapply ltb_below; eauto.
Qed.

(** A list without duplicates splits around one of its items in one way. *)
Lemma split_unique (A : Type) (x : A) (a : list A) : forall a' b b',
  NoDup (a ++ x :: b) -> (a ++ x :: b = a' ++ x :: b')%list -> a = a'.
Proof.
  induction a as [|y a IH]; intros a' b b' ND E.
  - destruct a' as [|y' a']; [reflexivity|]. simpl in E. injection E as <- E.
    exfalso. simpl in ND. inversion ND as [|? ? Hn _]; subst.
    apply Hn. apply in_or_app. right. now left.
  - destruct a' as [|y' a']; simpl in E.
    + injection E as -> E. exfalso. simpl in ND. inversion ND as [|? ? Hn _]; subst.
      apply Hn. apply in_or_app. right. now left.
    + injection E as <- E. f_equal. simpl in ND. inversion ND; subst. eapply IH; eauto.
Qed.

Lemma keys_accumulate (by_currency : kdict currency_group) (r : reading) :
  keys (accumulate by_currency r)
  = match lookup by_currency (r_currency r) with
    | Some _ => keys by_currency
    | None => (keys by_currency ++ [r_currency r])%list
    end.
Proof.
  unfold accumulate. rewrite keys_update. unfold init_key.
  destruct (lookup by_currency (r_currency r)); [reflexivity|].
  unfold keys. now rewrite map_app.
Qed.

Lemma keys_fold (rs : list reading) : forall by_currency,
  exists later, keys (fold_left accumulate rs by_currency) = (keys by_currency ++ later)%list.
Proof.
  induction rs as [|r rs IH]; intros bc; simpl.
  - exists []. now rewrite app_nil_r.
  - destruct (IH (accumulate bc r)) as (later & E). rewrite E, keys_accumulate.
    destruct (lookup bc (r_currency r)); [now exists later|].
    exists (r_currency r :: later). now rewrite <- app_assoc.
Qed.

Section Primary.
Variable w : world.

(** Among the currencies of largest volume the primary currency is the one
    met first: when no volume is a NaN, every currency met before the first
    transaction of the primary currency has a volume strictly below the
    primary one's. *)
Theorem primary_currency_first_among_largest :
  forall (transactions : list dict) (rs before after : list reading) (r : reading)
         (s : Finance.summary),
    readings w transactions = Ok rs ->
    calculate_financial_summary w transactions = Ok s ->
    (forall c, existsb (in_currency c) rs = true ->
               PrimFloat.is_nan (spec_volume c rs) = false) ->
    rs = (before ++ r :: after)%list ->
    r_currency r = s_currency s ->
    existsb (in_currency (s_currency s)) before = false ->
    forall r', In r' before ->
      PrimFloat.ltb (spec_volume (r_currency r') rs) (spec_volume (s_currency s) rs)
      = true.
Proof.
  intros transactions rs before after r s Hrs Hs Hnan Ers Hr Hfirst r' Hr'.
  rewrite calculate_financial_summary_readings, Hrs in Hs. simpl in Hs.
  injection Hs as Hs.
  set (bc := fold_left accumulate rs []) in *.
  destruct (grouped_fold rs grouped_nil) as [ND G]. simpl in ND, G. fold bc in ND, G.
  assert (Hgroup : forall c g, In (c, g) bc ->
            existsb (in_currency c) rs = true /\ group_of c rs g).
  { intros c g HIn. apply (@lookup_In _ bc c g ND) in HIn. specialize (G c).
    now rewrite HIn in G. }
  assert (Hvol : forall c g, group_of c rs g -> volume g = spec_volume c rs).
  { intros c g (T & _). unfold volume, spec_volume, spec_income, spec_expenses.
    rewrite <- T. reflexivity. }
  (* the keys of the groups: those met in [before], then the primary one *)
  set (bc0 := fold_left accumulate before []).
  destruct (grouped_fold before grouped_nil) as [ND0 G0]. simpl in ND0, G0.
  fold bc0 in ND0, G0.
  assert (Hkeys : exists later, keys bc = (keys bc0 ++ s_currency s :: later)%list).
  { unfold bc. rewrite Ers, fold_left_app. simpl. fold bc0.
    destruct (keys_fold after (accumulate bc0 r)) as (later & E).
    rewrite E, keys_accumulate, Hr.
    pose proof (G0 (s_currency s)) as L. rewrite Hfirst in L.
    destruct (lookup bc0 (s_currency s)); [destruct L; discriminate|].
    exists later. now rewrite <- app_assoc. }
  destruct Hkeys as (later & Hkeys).
  assert (Hmet : In (r_currency r') (keys bc0)).
  { pose proof (G0 (r_currency r')) as L.
    destruct (lookup bc0 (r_currency r')) as [g|] eqn:E.
    - apply In_lookup in E. change (r_currency r') with (fst (r_currency r', g)).
      now apply in_map.
    - exfalso. apply Bool.not_true_iff_false in L. apply L.
      apply existsb_exists. exists r'. split; [exact Hr'|].
      unfold in_currency. apply hkey_eqb_refl. }
  (* the choice of [max] *)
  destruct bc as [|first rest] eqn:Ebc.
  { destruct (keys bc0); discriminate. }
  unfold summarise in Hs.
  assert (N : Forall (fun e : hkey * currency_group =>
                        PrimFloat.is_nan (volume (snd e)) = false) rest).
  { apply Forall_forall. intros [c g] HIn.
    destruct (Hgroup c g (or_intror HIn)) as [Hin Hg]. simpl.
    rewrite (Hvol _ _ Hg). now apply Hnan. }
  destruct (max_from_first (fun e => volume (snd e)) first N) as (l1 & l2 & D & F).
  destruct (max_from (fun e => volume (snd e)) first rest) as [pc pg] eqn:Emax.
  subst s. cbn [s_currency] in *.
  assert (Hl1 : keys bc0 = map fst l1).
  { eapply split_unique with (x := pc); [rewrite <- Hkeys; exact ND|].
    rewrite <- Hkeys. unfold keys. rewrite D, map_app. reflexivity. }
  rewrite Hl1 in Hmet. apply in_map_iff in Hmet as ([c g] & Ec & HIn).
  simpl in Ec. subst c.
  rewrite Forall_forall in F. specialize (F _ HIn). simpl in F.
  assert (Ig : In (r_currency r', g) (first :: rest)).
  { rewrite D. apply in_or_app. now left. }
  assert (Ip : In (pc, pg) (first :: rest)).
  { rewrite D. apply in_or_app. right. now left. }
  destruct (Hgroup _ _ Ig) as [_ Hg]. destruct (Hgroup _ _ Ip) as [_ Hp].
  now rewrite <- (Hvol _ _ Hg), <- (Hvol _ _ Hp).
Qed.

End Primary.

End PrimaryFacts.
(** ** The date column of a stored transaction *)
Module DateFacts.
Import Py Env EnvFacts.
Local Open Scope string_scope.
Local Open Scope io_scope.

Section Added.
Variable P : event -> Prop.

(** From [a] to [b] the record of events grew by events that all satisfy
    [P]. *)
Definition added (a b : state) : Prop :=
  exists new, events b = (events a ++ new)%list /\ Forall P new.

Lemma added_refl st : added st st.
Proof. exists []. now rewrite app_nil_r. Qed.

Lemma added_same a b : events b = events a -> added a b.
Proof. intros E. exists []. now rewrite app_nil_r. Qed.

Lemma added_trans a b c : added a b -> added b c -> added a c.
Proof.
  intros (n1 & E1 & F1) (n2 & E2 & F2). exists (n1 ++ n2)%list.
  rewrite E2, E1, app_assoc. split; [reflexivity|].
  apply Forall_app. now split.
Qed.

Lemma added_log lvl text : (forall l t, P (Log l t)) -> preserves added (log lvl text).
Proof. intros H st. exists [Log lvl text]. split; [reflexivity|]. now constructor. Qed.

End Added.

Section Column.
Variable w : world.

(** What the code puts into the date column of [transaction] when the
    clock reads [current]. *)
Definition date_column (transaction : dict) (current : string) : string :=
  match get_or transaction "date" VNone with
  | VStr d => if matches_iso_date d then d ++ "T00:00:00" else current
  | _ => current
  end.

(** An event of the loop body on [transaction]: a line of the log, or the
    INSERT of a transaction row with the email id and the date column of
    [transaction]. *)
Definition row_from (transaction : dict) (e : event) : Prop :=
  match e with
  | Log _ _ => True
  | Execute (TransactionRow p) =>
      tr_email_id p = get_or transaction "email_id" (VStr "")
      /\ exists n, tr_date p = date_column transaction (now w n)
  | _ => False
  end.

(** An event of a run on [transactions]. *)
Definition row_among (transactions : list dict) (e : event) : Prop :=
  match e with
  | Log _ _ | Commit => True
  | Execute (TransactionRow p) =>
      exists t, In t transactions
        /\ tr_email_id p = get_or t "email_id" (VStr "")
        /\ exists n, tr_date p = date_column t (now w n)
  | _ => False
  end.

Lemma transaction_date_sql_value transaction st :
  exists new,
    Finance.transaction_date_sql w transaction st
    = (Ok (date_column transaction (now w (tick st))),
       mk_state (token_file st) (S (tick st)) (events st ++ new))
    /\ Forall (row_from transaction) new.
Proof.
  unfold Finance.transaction_date_sql, date_column.
  unfold isoformat_now, next_tick, bind at 1 2, ret at 1. cbn [fst snd].
  destruct (get_or transaction "date" VNone) as [| | | |d| |] eqn:E.
  5: { destruct d as [|a d].
       - exists []. now rewrite app_nil_r.
       - exists []. now rewrite app_nil_r. }
  all: destruct (truthy _); unfold bind, log, emit, ret; cbn [events token_file tick];
    first [ exists []; rewrite app_nil_r; split; [reflexivity|constructor]
          | eexists; split; [reflexivity|]; constructor; [exact I | constructor] ].
Qed.

Lemma save_transaction_rows transaction :
  preserves (added (row_from transaction)) (Finance.save_transaction w transaction).
Proof.
  intros st. unfold Finance.save_transaction.
  unfold fresh_uuid, next_tick. unfold bind at 1 2. unfold ret at 1. cbn [fst snd].
  unfold bind at 1, lift at 1.
  destruct (py_lower (get_or transaction "type" (VStr ""))) as [ty|e];
    [|now apply added_same].
  set (type_sql := if Finance.type_in ty Finance.income_types then Some "income"
             else if Finance.type_in ty Finance.expense_types
                  then Some "expense" else None).
  destruct type_sql as [type_sql|].
  - unfold bind at 1, lift at 1.
    destruct (Finance.py_float w _) as [amount|e]; [|now apply added_same].
    unfold bind at 1, lift at 1.
    destruct (Finance.raw_body transaction) as [body|e]; [|now apply added_same].
    unfold bind at 1.
    destruct (transaction_date_sql_value transaction
                (mk_state (token_file st) (S (tick st)) (events st)))
      as (new & -> & F).
    cbv zeta. unfold bind at 1, lift at 1.
    destruct (db_execute w _) as [[]|e]; cbn [snd events].
    + unfold emit. cbn [snd events tick]. eexists. split; [now rewrite <- app_assoc|].
      apply Forall_app. split; [exact F|].
      constructor; [|constructor]. simpl. split; [reflexivity|].
      eexists. reflexivity.
    + exists new. now split.
  - eexists. split; [reflexivity|]. constructor; [exact I | constructor].
Qed.

Lemma row_from_among transactions t e :
  In t transactions -> row_from t e -> row_among transactions e.
Proof.
  intros Hin. destruct e as [| [p|] | |]; simpl; try tauto.
  intros [E D]. exists t. auto.
Qed.

Lemma save_transactions_rows (ts : list dict) : forall all,
  incl ts all ->
  preserves (added (row_among all)) (for_loop (Finance.save_transaction w) ts).
Proof.
  induction ts as [|t ts IH]; intros all Hincl; simpl for_loop.
  - apply preserves_ret. apply added_refl.
  - apply preserves_bind.
    + apply added_trans.
    + intros st. destruct (save_transaction_rows t st) as (new & E & F).
      exists new. split; [exact E|].
      eapply Forall_impl; [|exact F]. intros e. apply row_from_among.
      apply Hincl. now left.
    + intros _. apply IH. intros x Hx. apply Hincl. now right.
Qed.

End Column.

(** Every INSERT that [save_transactions_to_database] sends, whether the
    run ends well or not, is a transaction row that carries the email id of
    one of the transactions and whose date column is the date of that
    transaction followed by "T00:00:00" when the date is a string that
    [re.match] accepts as dddd-dd-dd, and a reading of the clock otherwise:
    for a date that is absent, empty, no string or in another shape. The
    run records nothing but these rows, lines of the log and the commit. *)
Theorem save_transactions_date_column :
  forall (w : world) (transactions : list dict) (st : state),
    exists new,
      events (snd (Finance.save_transactions_to_database w transactions st))
      = (events st ++ new)%list
      /\ Forall (row_among w transactions) new
      /\ forall p, In (Execute (TransactionRow p)) new ->
           exists t n,
             In t transactions
             /\ tr_email_id p = get_or t "email_id" (VStr "")
             /\ tr_date p
                = match get_or t "date" VNone with
                  | VStr d =>
                      if matches_iso_date d then d ++ "T00:00:00" else now w n
                  | _ => now w n
                  end.
Proof.
  intros w transactions st.
  assert (H : added (row_among w transactions) st
                (snd (Finance.save_transactions_to_database w transactions st))).
  { revert st. change (preserves (added (row_among w transactions))
                         (Finance.save_transactions_to_database w transactions)).
    unfold Finance.save_transactions_to_database.
    pose proof (@added_refl (row_among w transactions)) as R.
    pose proof (@added_trans (row_among w transactions)) as T.
    assert (L : forall lvl text, preserves (added (row_among w transactions)) (log lvl text)).
    { intros. apply added_log. intros; exact I. }
    destruct transactions as [|t ts] eqn:Ets.
    - apply preserves_bind; [exact T | apply L | intros; now apply preserves_ret].
    - rewrite <- Ets in *. clear Ets.
      apply preserves_try_except; [exact T| |].
      + apply preserves_bind; [exact T| |].
        * unfold Db.get_postgres_connection.
          destruct (db_connect w);
            (apply preserves_bind; [exact T | apply L | intros; now apply preserves_ret]).
        * intros conn. destruct (negb conn).
          -- apply preserves_bind; [exact T | apply L | intros; now apply preserves_ret].
          -- apply preserves_bind; [exact T| |intros _].
             ++ apply save_transactions_rows. apply incl_refl.
             ++ apply preserves_bind; [exact T| now apply preserves_lift |intros _].
                apply preserves_bind; [exact T| |intros _].
                ** intros s. exists [Commit]. split; [reflexivity|].
                   constructor; [exact I|constructor].
                ** apply preserves_bind; [exact T | apply L | intros; now apply preserves_ret].
      + intros e. apply preserves_bind; [exact T | apply L | intros; now apply preserves_ret]. }
  destruct H as (new & E & F). exists new. split; [exact E|]. split; [exact F|].
  intros p Hin. rewrite Forall_forall in F. specialize (F _ Hin). simpl in F.
  destruct F as (t & Ht & He & n & Hd). exists t, n. auto.
Qed.

End DateFacts.

(** ** Facts about process_emails of services/auto_reply_draft.py *)
Module AutoReplyBatchFacts.
Import Py PyFacts Env EnvFacts FrameFacts AutoReplyBatch.
Local Open Scope string_scope.
Local Open Scope io_scope.

Lemma drafts_logged st lvl text :
  drafts (mk_state (token_file st) (tick st) (events st ++ [Log lvl text])) = drafts st.
Proof. unfold drafts. simpl. rewrite filter_app. simpl. apply app_nil_r. Qed.

Lemma drafts_requested st d :
  drafts (mk_state (token_file st) (tick st) (events st ++ [DraftRequest d]))
  = (drafts st ++ [DraftRequest d])%list.
Proof. unfold drafts. simpl. rewrite filter_app. reflexivity. Qed.

Section Run.
Variable w : world.

(** What one message adds: nothing, or one draft request for the message
    and one entry for that request. *)
Lemma reply_to_message_adds acc msg st t st' :
  reply_to_message w acc msg st = (Ok t, st') ->
  processed t = S (processed acc)
  /\ ((drafts st' = drafts st
       /\ drafts_created t = drafts_created acc
       /\ draft_details t = draft_details acc)
      \/ exists d detail,
           drafts st' = (drafts st ++ [DraftRequest d])%list
           /\ drafts_created t = S (drafts_created acc)
           /\ draft_details t = (draft_details acc ++ [detail])%list
           /\ d_original_msg_id d = dd_email_id detail
           /\ d_to d = dd_sender detail
           /\ d_subject d = dd_subject detail).
Proof.
  unfold reply_to_message. cbv zeta. intros H.
  repeat (apply bind_inversion in H as (? & ? & Hl & H);
          unfold lift in Hl; inversion Hl; subst; clear Hl).
  match type of H with
  | (if ?b then _ else _) _ = _ => destruct b
  end.
  - repeat (apply bind_inversion in H as (? & ? & Hl & H);
            unfold lift in Hl; inversion Hl; subst; clear Hl).
    unfold ret in H. inversion H. subst. simpl. split; [reflexivity|].
    right. eexists. eexists. unfold drafts. cbn [events].
    rewrite !filter_app. cbn [filter is_draft_request]. rewrite app_nil_r.
    repeat split.
  - repeat (apply bind_inversion in H as (? & ? & Hl & H);
            unfold lift in Hl; inversion Hl; subst; clear Hl).
    unfold ret in H. inversion H. subst. simpl. split; [reflexivity|].
    left. unfold drafts. cbn [events]. rewrite !filter_app.
    cbn [filter is_draft_request]. rewrite app_nil_r. repeat split.
Qed.

Lemma reply_to_messages_adds messages : forall acc st t st',
  reply_to_messages w acc messages st = (Ok t, st') ->
  processed t = processed acc + List.length messages
  /\ exists requested details,
       drafts st' = (drafts st ++ map DraftRequest requested)%list
       /\ drafts_created t = drafts_created acc + List.length requested
       /\ draft_details t = (draft_details acc ++ details)%list
       /\ map d_original_msg_id requested = map dd_email_id details
       /\ map d_to requested = map dd_sender details
       /\ map d_subject requested = map dd_subject details.
Proof.
  induction messages as [|msg rest IH]; intros acc st t st' H; simpl in H.
  - unfold ret in H. inversion H. subst. split; [simpl; lia|].
    exists [], []. simpl. rewrite !app_nil_r. repeat split; lia.
  - apply bind_inversion in H as (acc' & s1 & H1 & H).
    apply reply_to_message_adds in H1 as (P1 & D1).
    apply IH in H as (P & requested & details & D & C & L & M1 & M2 & M3).
    split; [simpl; lia|].
    destruct D1 as [(D1 & C1 & L1) | (d & detail & D1 & C1 & L1 & E1 & E2 & E3)].
    + exists requested, details. rewrite D, D1, C, C1, L, L1. repeat split; assumption.
    + exists (d :: requested), (detail :: details).
      rewrite D, D1, C, C1, L, L1. simpl. rewrite <- !app_assoc. simpl.
      repeat split; try lia; congruence.
Qed.

End Run.

(** [process_emails] never raises. When it reports success on a mailbox
    that lists messages, "processed" is the number of messages listed,
    "drafts_created" is the number of entries of "drafts", and the run has
    asked Gmail for exactly these drafts, in this order, each one a reply to
    the message, the sender and the subject of its entry. On an empty
    mailbox it reports zero and asks for no draft. *)
Theorem process_emails_reports_its_drafts :
  forall (w : world) (max_emails : nat) (st : state),
    exists report st',
      process_emails w max_emails st = (Ok report, st')
      /\ match report with
         | Success _ processed drafts_created (Some details) =>
             exists messages visited requested,
               Mail.recent_messages w max_emails = Ok messages
               /\ py_iter messages = Ok visited
               /\ processed = List.length visited
               /\ drafts_created = List.length details
               /\ drafts st' = (drafts st ++ map DraftRequest requested)%list
               /\ map d_original_msg_id requested = map dd_email_id details
               /\ map d_to requested = map dd_sender details
               /\ map d_subject requested = map dd_subject details
         | Success _ processed drafts_created None =>
             processed = 0 /\ drafts_created = 0 /\ drafts st' = drafts st
         | Failure _ => True
         end.
Proof.
  intros w max_emails st. unfold process_emails, try_except.
  match goal with
  | |- context [match ?body st with _ => _ end] =>
      destruct (body st) as [[r|e] s] eqn:B
  end.
  2:{ eexists. eexists. split; [reflexivity | exact I]. }
  exists r, s. split; [reflexivity|].
  apply bind_inversion in B as ([] & s1 & Hg & B).
  assert (D1 : drafts s1 = drafts st).
  { unfold Mail.get_gmail_service in Hg.
    destruct (Mail.authorize w (load_token w) (token_file st)). now inversion Hg. }
  apply bind_inversion in B as (messages & s2 & Hl & B).
  unfold lift in Hl. inversion Hl as [[Hm Hs]]. subst s2. clear Hl.
  destruct (negb (truthy messages)).
  - apply bind_inversion in B as ([] & s3 & Hl & B).
    unfold log, emit in Hl. inversion Hl. subst s3. clear Hl.
    unfold ret in B. inversion B. subst. rewrite drafts_logged. auto.
  - apply bind_inversion in B as (visited & s3 & Hl & B).
    unfold lift in Hl. inversion Hl as [[Hv Hs]]. subst s3. clear Hl.
    apply bind_inversion in B as (t & s4 & Hloop & B).
    unfold ret in B. inversion B. subst.
    apply reply_to_messages_adds in Hloop
      as (P & requested & details & D & C & L & M1 & M2 & M3).
    simpl in P, C, L. exists messages, visited, requested.
    rewrite D, D1, C, L, P. rewrite <- (length_map d_original_msg_id), M1, length_map.
    repeat split; assumption.
Qed.

End AutoReplyBatchFacts.

(** ** Facts about extract_reminders_from_emails *)
Module RemindersBatchFacts.
Import Py PyFacts Env EnvFacts RemindersBatch.
Local Open Scope string_scope.
Local Open Scope io_scope.


(** What [extract_reminders_from_email] writes on every reminder. *)
Definition sourced (subject : value) (reminder : dict) : Prop :=
  dict_get reminder "source" = Some (VStr "email")
  /\ dict_get reminder "source_subject" = Some subject
  /\ exists stamp, dict_get reminder "extracted_at" = Some (VStr stamp).

(** What the loop of [extract_reminders_from_emails] adds to it. *)
Definition marked (reminder : dict) : Prop :=
  exists subject,
    sourced subject reminder
    /\ dict_has reminder "email_id" = true
    /\ dict_has reminder "email_thread_id" = true
    /\ dict_has reminder "sender" = true
    /\ dict_has reminder "date" = true.

Section Run.
Variable w : world.








End Run.


End RemindersBatchFacts.

(** ** Facts about analyze_financial_emails and the two routers *)
Module FinanceBatchFacts.
Import Py PyFacts Env EnvFacts TraceFacts FinanceBatch.
Import RemindersBatchFacts.
Local Open Scope string_scope.
Local Open Scope io_scope.

(** What [extract_financial_data_from_email] and the loop of
    [analyze_financial_emails] write on every transaction. *)
Definition marked (transaction : dict) : Prop :=
  dict_get transaction "source" = Some (VStr "email")
  /\ dict_has transaction "source_subject" = true
  /\ dict_has transaction "source_sender" = true
  /\ dict_has transaction "extracted_at" = true
  /\ dict_has transaction "email_id" = true
  /\ dict_has transaction "email_thread_id" = true
  /\ dict_has transaction "email_date" = true.

Definition sourced (transaction : dict) : Prop :=
  dict_get transaction "source" = Some (VStr "email")
  /\ dict_has transaction "source_subject" = true
  /\ dict_has transaction "source_sender" = true
  /\ dict_has transaction "extracted_at" = true.

Section Run.
Variable w : world.
Variable date_filter : nat -> Z -> result string.
Variable messages_search : nat -> string -> result dict.












End Run.



End FinanceBatchFacts.

Module RoutesFacts.
Import Py PyFacts Env EnvFacts TraceFacts SaveFacts Routes.
Local Open Scope string_scope.
Local Open Scope io_scope.



(** POST /email-finance/save answers success on the empty list without a
    look at the database; on a non-empty list it answers success when the
    transactions were committed and 500 when they were not. *)
Theorem save_transactions_route_answers_the_commit :
  forall (w : world) (transactions : list dict) (st : state),
    exists ans new st',
      save_transactions w transactions st = (Ok ans, st')
      /\ events st' = (events st ++ new)%list
      /\ (transactions = [] -> st' = st /\ exists text, ans = Body text)
      /\ (transactions <> [] ->
          match ans with
          | Body _ => In Commit new
          | HTTPException status_code _ => status_code = 500 /\ ~ In Commit new
          end).
Proof.
  intros w [|t ts] st.
  - exists (Body "No transactions to save"), [], st. simpl. rewrite app_nil_r.
    repeat split; [now eexists | congruence].
  - destruct (save_transactions_outcome w (t :: ts) st) as (b & new & s1 & E & Ev & C & _).
    unfold save_transactions, bind. rewrite E. unfold ret.
    destruct b; cbn [negb]; eexists; exists new, s1;
      (split; [reflexivity|]); (split; [exact Ev|]); (split; [discriminate|]); intros _.
    + apply C. split; [reflexivity | discriminate].
    + split; [reflexivity|]. rewrite C. intros [H _]. discriminate.
Qed.

(** POST /email-reminders/save answers success when the list of reminders
    is empty or the reminders were committed, and 500 otherwise. *)
Theorem save_reminders_route_answers_the_commit :
  forall (w : world) (reminders : list dict) (st : state),
    exists ans new st',
      save_reminders w reminders st = (Ok ans, st')
      /\ events st' = (events st ++ new)%list
      /\ match ans with
         | Body _ => reminders = [] \/ In Commit new
         | HTTPException status_code _ =>
             status_code = 500 /\ reminders <> [] /\ ~ In Commit new
         end.
Proof.
  intros w reminders st.
  destruct (save_reminders_outcome w reminders st) as (b & new & s1 & E & Ev & C & N).
  unfold save_reminders, bind. rewrite E. unfold ret.
  destruct b; cbn [negb]; eexists; exists new, s1;
    (split; [reflexivity|]); (split; [exact Ev|]).
  - destruct reminders as [|r rs]; [now left|]. right. apply C.
    split; [reflexivity | discriminate].
  - split; [reflexivity|]. split.
    + intros ->. specialize (N eq_refl). discriminate.
    + rewrite C. intros [H _]. discriminate.
Qed.

End RoutesFacts.

(** ** Facts about process_single_email *)
Module SingleEmailFacts.
Import Py Env Routes SingleEmail.
Local Open Scope string_scope.

(** POST /emails/process-one/{email_id} answers the merged result of the
    message or 500, and nothing else: the 401 it raises itself for missing
    or unusable credentials is caught by its own handler and answered as
    500, as is the 500 it raises for a message whose processing failed.
    Without token.json it answers at once, leaving the state as it was. *)
Theorem process_single_email_answers_result_or_500 :
  forall (w : world) (describe : raised -> string) (email_id : string)
         (save_to_db : bool) (st : state),
    (exists r st',
        process_single_email w describe email_id save_to_db st = (Body r, st')
        /\ exists msg_data st0,
             messages_get w (VStr email_id) = Ok msg_data
             /\ Orchestrator.process_email w msg_data save_to_db st
                = (Ok (Orchestrator.Processed r), st0))
    \/ (exists detail st',
          process_single_email w describe email_id save_to_db st
          = (HTTPException 500 detail, st')
          /\ (token_file st = false ->
              st' = st
              /\ detail = "Error processing email: "
                          ++ describe (RaisedHTTP 401 "Gmail authentication required"))).
Proof.
  intros w describe email_id save_to_db st.
  unfold process_single_email, attempt_email.
  destruct (token_file st) eqn:T.
  - destruct (credentials w true) as [u|r];
      [|right; eexists; eexists; split; [reflexivity | discriminate]].
    destruct (build_service w) as [u'|e];
      [|right; eexists; eexists; split; [reflexivity | discriminate]].
    destruct (messages_get w (VStr email_id)) as [msg_data|e] eqn:G;
      [|right; eexists; eexists; split; [reflexivity | discriminate]].
    destruct (Orchestrator.process_email w msg_data save_to_db st)
      as [[[r|message id]|e] st'] eqn:P;
      try (right; eexists; eexists; split; [reflexivity | discriminate]).
    left. exists r, st'. split; [reflexivity|]. exists msg_data, st'. now split.
  - right. eexists. eexists. split; [reflexivity|]. intros _. now split.
Qed.

End SingleEmailFacts.

(** ** Facts about the name and the initials of a sender *)
Module RecentEmailsFacts.
Import Py RecentEmails.
Local Open Scope string_scope.

(** A string none of whose characters is [c]. *)
Fixpoint without (c : ascii) (s : string) : Prop :=
  match s with
  | EmptyString => True
  | String a rest => a <> c /\ without c rest
  end.

Lemma before_char_found c name rest :
  without c name -> before_char c (name ++ String c rest) = Some name.
Proof.
  induction name as [|a name IH]; simpl.
  - now rewrite Ascii.eqb_refl.
  - intros [N W]. apply Ascii.eqb_neq in N. rewrite N, (IH W). reflexivity.
Qed.

Lemma before_char_absent c s : without c s -> before_char c s = None.
Proof.
  induction s as [|a s IH]; simpl; [reflexivity|].
  intros [N W]. apply Ascii.eqb_neq in N. rewrite N, (IH W). reflexivity.
Qed.

Lemma skip_char_none c s : without c s -> skip_char c s = s.
Proof.
  destruct s as [|a s]; simpl; [reflexivity|].
  intros [N _]. apply Ascii.eqb_neq in N. now rewrite N.
Qed.

Lemma without_app c a b : without c a -> without c b -> without c (a ++ b).
Proof. induction a as [|x a IH]; simpl; [tauto|]. intros [N W] Hb. split; auto. Qed.

(** A string without whitespace. *)
Fixpoint spaceless (s : string) : Prop :=
  match s with
  | EmptyString => True
  | String c rest => is_space c = false /\ spaceless rest
  end.

(** The words of a string are not empty and hold no whitespace. *)
Definition wordy (word : string) : Prop := word <> EmptyString /\ spaceless word.

Lemma words_wordy (s : string) : Forall wordy (words s).
Proof.
  induction s as [|c rest IH]; simpl; [constructor|].
  destruct (is_space c) eqn:Sc; [exact IH|].
  destruct rest as [|d rest']; [repeat constructor; [discriminate | exact Sc]|].
  destruct (is_space d) eqn:Sd.
  - constructor; [|exact IH]. repeat split; [discriminate | exact Sc].
  - destruct (words (String d rest')) as [|word others].
    + repeat constructor; [discriminate | exact Sc].
    + inversion IH as [|? ? [_ Hw] Ho]; subst.
      constructor; [|exact Ho]. repeat split; [discriminate | exact Sc | exact Hw].
Qed.

(** [extract_sender_name]: for "Name <address>" the name without the
    whitespace around it; for a bare address, the part before the '@', cut
    at '.', '_' and '-', each piece capitalized, the pieces joined by one
    space; and the sender itself when it holds neither '<' nor '@'. *)
Theorem extract_sender_name_by_shape :
  forall (capitalize : string -> string),
    (forall a name rest,
        without "<" (String a name) ->
        extract_sender_name capitalize (String a name ++ String "<" rest)
        = strip (String a name))
    /\ (forall a local domain,
          without "<" (String a local ++ String "@" domain) ->
          without "@" (String a local) ->
          extract_sender_name capitalize (String a local ++ String "@" domain)
          = join " " (map capitalize (split_where is_separator (String a local))))
    /\ (forall sender,
          without "<" sender -> without "@" sender ->
          extract_sender_name capitalize sender = sender).
Proof.
  intros capitalize. unfold extract_sender_name, name_match, email_match.
  split; [|split].
  - intros a name rest W. rewrite (@before_char_found "<" _ rest W). reflexivity.
  - intros a local domain W1 W2. rewrite (@before_char_absent "<" _ W1).
    assert (K : skip_char "@" (String a local ++ String "@" domain)
                = String a local ++ String "@" domain).
    { simpl. destruct W2 as [N _]. apply Ascii.eqb_neq in N. now rewrite N. }
    rewrite K, (@before_char_found "@" _ domain W2). reflexivity.
  - intros sender W1 W2. rewrite (@before_char_absent "<" _ W1).
    rewrite (@skip_char_none "@" _ W2), (@before_char_absent "@" _ W2). reflexivity.
Qed.

(** [get_sender_initials] never raises. It returns "??" for a name without
    a word and for a name that is one single character; otherwise it returns
    the upper case of two characters, neither of them whitespace: the first
    characters of the first two words, or the first two characters of the
    only word. *)
Theorem get_sender_initials_two_characters :
  forall (upper : string -> string) (name : string),
    exists initials,
      get_sender_initials upper name = Ok initials
      /\ match words name with
         | [] => initials = "??"
         | [word] =>
             if (2 <=? String.length word)%nat
             then exists a b rest,
                    word = String a (String b rest)
                    /\ is_space a = false /\ is_space b = false
                    /\ initials = upper (String a (String b EmptyString))
             else initials = "??"
         | first :: second :: _ =>
             exists a b rest1 rest2,
               first = String a rest1 /\ second = String b rest2
               /\ is_space a = false /\ is_space b = false
               /\ initials = upper (String a (String b EmptyString))
         end.
Proof.
  intros upper name. unfold get_sender_initials.
  pose proof (words_wordy name) as W.
  destruct (words name) as [|first [|second others]].
  - eexists. split; reflexivity.
  - inversion W as [|? ? [Hne Hs] _]; subst.
    destruct first as [|a [|b rest]]; [now elim Hne | |].
    + eexists. split; reflexivity.
    + assert (Z0 : substring 0 0 rest = EmptyString) by (destruct rest; reflexivity).
      exists (upper (String a (String b EmptyString))).
      split; [simpl; now rewrite Z0|]. exists a, b, rest. simpl in Hs.
      split; [reflexivity|]. split; [tauto|]. split; [tauto | reflexivity].
  - inversion W as [|? ? [Hne1 Hs1] W']; subst.
    inversion W' as [|? ? [Hne2 Hs2] _]; subst.
    destruct first as [|a rest1]; [now elim Hne1|].
    destruct second as [|b rest2]; [now elim Hne2|].
    simpl in *. eexists. split; [reflexivity|].
    exists a, b, rest1, rest2.
    split; [reflexivity|]. split; [reflexivity|]. split; [tauto|].
    split; [tauto | reflexivity].
Qed.

End RecentEmailsFacts.

(** ** Facts about claude_multi_label *)
Module LabelsFacts.
Import Py Env Labels.
Local Open Scope string_scope.

(** Every character of the string satisfies [p]. *)
Fixpoint every (p : ascii -> bool) (s : string) : bool :=
  match s with
  | EmptyString => true
  | String c rest => p c && every p rest
  end.

Lemma every_lstrip p s : every p s = true -> every p (lstrip s) = true.
Proof.
  induction s as [|c s IH]; simpl; [reflexivity|].
  intros H. apply andb_true_iff in H as [Hc Hs].
  destruct (is_space c); [now apply IH | simpl; now rewrite Hc, Hs].
Qed.

Lemma every_rstrip p s : every p s = true -> every p (rstrip s) = true.
Proof.
  induction s as [|c s IH]; simpl; [reflexivity|].
  intros H. apply andb_true_iff in H as [Hc Hs]. specialize (IH Hs).
  destruct (rstrip s) as [|d kept].
  - destruct (is_space c); simpl; [reflexivity | now rewrite Hc].
  - simpl in *. now rewrite Hc, IH.
Qed.

Lemma every_strip p s : every p s = true -> every p (strip s) = true.
Proof. intros H. unfold strip. now apply every_rstrip, every_lstrip. Qed.

Lemma every_split p sep s :
  every p s = true -> Forall (fun part => every p part = true) (split_on sep s).
Proof.
  induction s as [|c s IH]; simpl; [repeat constructor|].
  intros H. apply andb_true_iff in H as [Hc Hs]. specialize (IH Hs).
  destruct (Ascii.eqb c sep); [constructor; [reflexivity | exact IH]|].
  destruct (split_on sep s) as [|part parts]; [repeat constructor; simpl; now rewrite Hc|].
  inversion IH; subst. constructor; [simpl; now rewrite Hc | assumption].
Qed.

(** The parts of a split hold no separator. *)
Lemma split_on_free sep s :
  Forall (fun part => every (fun c => negb (Ascii.eqb c sep)) part = true)
    (split_on sep s).
Proof.
  induction s as [|c s IH]; simpl; [repeat constructor|].
  destruct (Ascii.eqb c sep) eqn:E; [constructor; [reflexivity | exact IH]|].
  destruct (split_on sep s) as [|part parts];
    [repeat constructor; simpl; now rewrite E|].
  inversion IH; subst. constructor; [simpl; now rewrite E | assumption].
Qed.

Definition lowered (c : ascii) : bool := Ascii.eqb (lower_char c) c.

Lemma lower_char_idempotent (c : ascii) : lower_char (lower_char c) = lower_char c.
Proof. destruct c as [[] [] [] [] [] [] [] []]; vm_compute; reflexivity. Qed.

Lemma every_lower s : every lowered (lower s) = true.
Proof.
  induction s as [|c s IH]; simpl; [reflexivity|].
  unfold lowered at 1. rewrite lower_char_idempotent, Ascii.eqb_refl. exact IH.
Qed.

Lemma lowered_fixed s : every lowered s = true -> lower s = s.
Proof.
  induction s as [|c s IH]; simpl; [reflexivity|].
  intros H. apply andb_true_iff in H as [Hc Hs].
  apply Ascii.eqb_eq in Hc. now rewrite Hc, IH.
Qed.

(** Whitespace at neither end. *)
Definition trimmed (s : string) : Prop := lstrip s = s /\ rstrip s = s.

Lemma lstrip_head s :
  match lstrip s with
  | EmptyString => True
  | String c _ => is_space c = false
  end.
Proof.
  induction s as [|c s IH]; simpl; [exact I|].
  destruct (is_space c) eqn:E; [exact IH | exact E].
Qed.

Lemma lstrip_fixed c s : is_space c = false -> lstrip (String c s) = String c s.
Proof. intros H. simpl. now rewrite H. Qed.

Lemma rstrip_idempotent s : rstrip (rstrip s) = rstrip s.
Proof.
  induction s as [|c s IH]; simpl; [reflexivity|].
  destruct (rstrip s) as [|d kept] eqn:E.
  - destruct (is_space c) eqn:Sc; simpl; [reflexivity | now rewrite Sc].
  - simpl in IH |- *. now rewrite IH.
Qed.

(** [rstrip] keeps the first character of a string that starts with a
    character that is no whitespace. *)
Lemma rstrip_head c s :
  is_space c = false -> exists kept, rstrip (String c s) = String c kept.
Proof.
  intros H. simpl. destruct (rstrip s); [rewrite H|]; eauto.
Qed.

Lemma strip_trimmed s : trimmed (strip s).
Proof.
  unfold trimmed, strip. split; [|apply rstrip_idempotent].
  pose proof (lstrip_head s) as H. destruct (lstrip s) as [|c rest]; [reflexivity|].
  destruct (@rstrip_head c rest H) as (kept & ->). now apply lstrip_fixed.
Qed.

(** [claude_multi_label]: an answer that is "none", in any case and with
    whitespace around it, gives no label. Every label it returns is not
    empty, has whitespace at neither end, holds no comma and no upper-case
    letter: a label whose name in the table has an upper-case letter is
    never returned under that name. *)
Theorem claude_multi_label_names_are_clean :
  forall (answer : list dict -> value -> reply) (labels : list dict)
         (email_text : value),
    (forall t, answer labels email_text = Text t ->
               lower (strip t) = "none" ->
               forall u, map_m described labels = Ok u ->
                         claude_multi_label answer labels email_text = Ok [])
    /\ (forall names,
          claude_multi_label answer labels email_text = Ok names ->
          Forall (fun name =>
                    name <> EmptyString
                    /\ trimmed name
                    /\ every (fun c => negb (Ascii.eqb c ",")) name = true
                    /\ lower name = name)
            names).
Proof.
  intros answer labels email_text. split.
  - intros t Ht Hn u Hu. unfold claude_multi_label. rewrite Hu, Ht. simpl.
    now rewrite Hn.
  - intros names. unfold claude_multi_label.
    destruct (map_m described labels); simpl; [|discriminate].
    destruct (answer labels email_text) as [e|t]; [discriminate|].
    destruct (String.eqb (lower (strip t)) "none"); intros H; inversion H; subst;
      [constructor|].
    unfold label_names. rewrite Forall_map. apply Forall_forall. intros part Hp.
    apply filter_In in Hp as [Hin Hne].
    pose proof (@split_on_free "," (lower (strip t))) as Fc.
    pose proof (@every_split lowered "," (lower (strip t)) (every_lower _)) as Fl.
    rewrite Forall_forall in Fc, Fl. specialize (Fc _ Hin). specialize (Fl _ Hin).
    split; [|split; [|split]].
    + apply negb_true_iff, String.eqb_neq in Hne. exact Hne.
    + apply strip_trimmed.
    + now apply every_strip.
    + apply lowered_fixed. now apply every_strip.
Qed.

End LabelsFacts.

(** ** Scenarios: the services on a mailbox of one message *)
Module Scenarios.
Import Py Env.
Local Open Scope string_scope.

(** The double quote of a JSON text. *)
Definition dq : string := String (ascii_of_nat 34) EmptyString.

(** The JSON text of the list that holds the one string "auto_reply". *)
Definition auto_reply_only : string := "[" ++ dq ++ "auto_reply" ++ dq ++ "]".

(** [json.loads] on the texts the scenarios meet; no other text is asked
    for. *)
Definition parse (text : string) : option value :=
  if String.eqb text "[]" then Some (VList [])
  else if String.eqb text "[1]" then Some (VList [VInt 1])
  else if String.eqb text auto_reply_only then Some (VList [VStr "auto_reply"])
  else None.

(** The one message of the mailbox, as [messages().get] returns it; the
    data of its body is kept decoded. *)
Definition letter : dict :=
  [("id", VStr "m1");
   ("threadId", VStr "t1");
   ("payload",
    VDict [("headers",
            VList [VDict [("name", VStr "Subject"); ("value", VStr "Lunch?")];
                   VDict [("name", VStr "From"); ("value", VStr "ann@example.org")]]);
           ("body", VDict [("data", VStr "Are you free on Friday?")])])].

Definition decoded (data : value) : result string :=
  match data with
  | VStr s => Ok s
  | _ => Raise TypeError
  end.

(** A world in which everything outside the repository works: valid
    credentials, a mailbox that holds [letter], a database that accepts every
    row, a label table with no label. The classifier says yes when asked
    whether to reply and finds no transaction, reminder or meeting; its
    answers on the services and on the reply are [services] and [answer]. *)
Definition mailbox (services answer : reply) : world :=
  mk_world
    (fun p =>
       match p with
       | AskServices _ _ _ => services
       | AskShouldReply _ _ => Text "Yes"
       | AskReply _ _ => answer
       | _ => Text "[]"
       end)
    parse
    (fun _ => None)
    (fun _ => "2025-01-01T09:00:00")
    (fun _ => "0b0e7a1c-5f0d-4c5e-9d57-3a1f2c4e6b88")
    decoded
    (Ok (mk_creds true false true))
    (Ok tt) (Ok tt) (Ok tt) (Ok tt)
    (fun _ => Ok [("messages", VList [VDict [("id", VStr "m1"); ("threadId", VStr "t1")]])])
    (fun _ => Ok letter)
    (fun _ => Ok [("id", VStr "r-1")])
    (Ok tt) (fun _ => Ok tt) (Ok tt)
    (Ok (VList []))
    (fun _ => Ok (VDict [("tagged", VInt 0); ("details", VList [])])).

(** The classifier asks for an automatic reply and writes one. *)
Definition helpful : world := mailbox (Text auto_reply_only) (Text "Friday works.").


(** The classifier answers the question on the services with [[1]]. *)
Definition numeric : world := mailbox (Text "[1]") (Text "Friday works.").

(** token.json exists, the clock was never read, nothing happened yet. *)
Definition start : state := mk_state true 0 [].

(** Income of 100 in currency A, an expense of 50 in currency B. *)
Definition two_currencies : list dict :=
  [[("amount", VInt 100); ("currency", VStr "A"); ("type", VStr "income")];
   [("amount", VInt 50); ("currency", VStr "B"); ("type", VStr "Expense")]].


(** A salary, and a gift whose type is no income and no expense. *)
Definition ledger : list dict :=
  [[("amount", VInt 1200); ("currency", VStr "EUR"); ("type", VStr "Income")];
   [("amount", VInt 30); ("currency", VStr "EUR"); ("type", VStr "gift")]].




(** *** calculate_financial_summary *)


(** The primary currency of [two_currencies] is A, B is in the side table. *)
Example primary_currency_of_two :
  Finance.calculate_financial_summary helpful two_currencies
  = Ok (Finance.mk_summary 100 0 100 (KStr "A") "Recent transactions"
          [(KStr "uncategorized", Finance.mk_bucket 100 0)]
          (Finance.mk_bucket 0 0)
          (Some [(KStr "B", Finance.mk_other 0 50 (-50))])).
Proof. vm_compute. reflexivity. Qed.

(** C5: an item without amount is skipped, and the next one, whose amount is
    None, makes the aggregation raise. *)
Lemma summary_raises_on_amount_none :
  Finance.calculate_financial_summary helpful
    [[("currency", VStr "USD")];
     [("amount", VNone); ("currency", VStr "USD")]]
  = Raise TypeError.
Proof. vm_compute. reflexivity. Qed.

(** C10 on a list whose only item has no currency. *)
Lemma summary_of_item_without_currency :
  existsb Finance.has_amount_and_currency [[("amount", VInt 5)]] = false
  /\ Finance.calculate_financial_summary helpful [[("amount", VInt 5)]]
     = Ok (Finance.mk_summary 0 0 0 (KStr "USD") "Recent transactions" []
             (Finance.mk_bucket 0 0) None).
Proof.
  split; [reflexivity|].
  apply FinanceFacts.calculate_financial_summary_default. reflexivity.
Defined.

(** *** classify_email_type *)

(** C2: an answer that parses to a list whose item is no string is
    returned, with "tagging" appended. *)
Lemma classify_keeps_items_that_are_no_strings :
  fst (Orchestrator.classify_email_type numeric (VStr "Lunch?")
         (VStr "Are you free on Friday?") (VStr "ann@example.org") start)
  = Ok [VInt 1; VStr "tagging"].
Proof. vm_compute. reflexivity. Qed.

(** *** The ordering of the todos *)


(** *** process_email *)

(** With a classifier that writes the reply, the letter gets its draft. *)
Example letter_gets_a_draft :
  FrameFacts.drafts (snd (Orchestrator.process_email helpful letter true start))
  = [DraftRequest
       (mk_draft (VStr "m1") (VStr "t1") (VStr "ann@example.org") (VStr "Lunch?")
          "Friday works.")].
Proof. vm_compute. reflexivity. Qed.


(** *** process_recent_emails *)

(** C4 on the mailbox of one message. *)
Lemma batch_of_one_message_reports_error :
  Mail.recent_messages helpful 10
    = Ok (VList [VDict [("id", VStr "m1"); ("threadId", VStr "t1")]])
  /\ truthy (VList [VDict [("id", VStr "m1"); ("threadId", VStr "t1")]]) = true
  /\ fst (Orchestrator.process_recent_emails helpful 10 true start)
     = Ok (Orchestrator.BatchError "Error processing emails").
Proof.
  split; [reflexivity|]. split; [reflexivity|].
  apply (@OrchestratorFacts.process_recent_emails_error_after_messages helpful
           10 true start (VList [VDict [("id", VStr "m1"); ("threadId", VStr "t1")]]));
    reflexivity.
Defined.

(** C4: the one message of the batch is processed without an error, the
    database, the mail provider and the classifier all answer, and the batch
    still ends as an error: the tagging sweep raises NameError. *)
Lemma batch_fails_though_its_message_succeeds :
  (exists r st',
      Orchestrator.process_message helpful true
        (VDict [("id", VStr "m1"); ("threadId", VStr "t1")]) start
      = (Ok (Orchestrator.Processed r), st'))
  /\ fst (Tagging.tag_emails helpful start) = Raise NameError
  /\ fst (Orchestrator.process_recent_emails helpful 10 true start)
     = Ok (Orchestrator.BatchError "Error processing emails").
Proof.
  split; [do 2 eexists; vm_compute; reflexivity|].
  split; vm_compute; reflexivity.
Qed.

(** *** save_transactions_to_database *)


Example ledger_events :
  PersistenceFacts.warnings PersistenceFacts.skip_warning
    (events (snd (Finance.save_transactions_to_database helpful ledger start))) = 1
  /\ List.length
       (PersistenceFacts.executed
          (events (snd (Finance.save_transactions_to_database helpful ledger start))))
     = 1.
Proof. split; vm_compute; reflexivity. Qed.

(** *** save_reminders_to_database *)



End Scenarios.

(** ** Scenarios: the batch entry points, the routes and the helpers *)
Module MoreScenarios.
Import Py Env Scenarios.
Local Open Scope string_scope.

(** *** get_body and the headers *)

Definition html_part : value :=
  VDict [("mimeType", VStr "text/html"); ("body", VDict [("data", VStr "<p>Hi</p>")])].

Definition plain_part : value :=
  VDict [("mimeType", VStr "text/plain"); ("body", VDict [("data", VStr "Hi")])].

Definition calendar_part : value :=
  VDict [("mimeType", VStr "text/calendar"); ("body", VDict [("data", VStr "BEGIN")])].

Definition three_parts : dict :=
  [("mimeType", VStr "multipart/mixed");
   ("parts", VList [html_part; plain_part; calendar_part])].

(** The plain part is taken, though it comes second. *)
Lemma body_of_three_parts :
  Forall MailFacts.other_part [html_part]
  /\ Mail.get_body helpful (VDict three_parts) = Ok "Hi".
Proof.
  assert (F : Forall MailFacts.other_part [html_part]).
  { repeat constructor. exists (VStr "text/html"). split; reflexivity. }
  split; [exact F|].
  rewrite (proj1 (proj2 (MailFacts.get_body_prefers_plain_text helpful three_parts))
             [html_part] plain_part [calendar_part] eq_refl F eq_refl).
  reflexivity.
Defined.

Definition subject_header : value :=
  VDict [("name", VStr "Subject"); ("value", VStr "Lunch?")].

Definition from_header : value :=
  VDict [("name", VStr "FROM"); ("value", VStr "ann@example.org")].

Definition second_from_header : value :=
  VDict [("name", VStr "From"); ("value", VStr "bob@example.org")].

(** The first header named from, whatever its case, gives the sender. *)
Lemma sender_of_three_headers :
  Forall (MailFacts.other_header "from") [subject_header]
  /\ Mail.find_header [subject_header; from_header; second_from_header] "from"
     = Ok (VStr "ann@example.org").
Proof.
  assert (F : Forall (MailFacts.other_header "from") [subject_header]).
  { repeat constructor. exists "Subject". split; [reflexivity | discriminate]. }
  split; [exact F|].
  apply (proj1 (MailFacts.find_header_first_match "from"
                  [subject_header; from_header; second_from_header])
           [subject_header] from_header [second_from_header] "FROM"
           (VStr "ann@example.org") eq_refl F eq_refl eq_refl eq_refl).
Defined.

(** *** process_email *)

(** The letter is classified for auto_reply alone: that slot is filled,
    the two others are not. *)
Lemma slots_of_the_letter :
  exists r st',
    Orchestrator.process_email helpful letter true start
    = (Ok (Orchestrator.Processed r), st')
    /\ Orchestrator.auto_reply r <> None
    /\ Orchestrator.reminders r = None
    /\ Orchestrator.finance r = None.
Proof.
  destruct (Orchestrator.process_email helpful letter true start)
    as [[[r|m i]|e] st'] eqn:E;
    pose proof E as E'; vm_compute in E'; try discriminate.
  injection E' as Hr Hs. exists r, st'. split; [reflexivity|].
  destruct (@PipelineFacts.process_email_fills_the_slots_of_its_services
              helpful letter true start st' r E) as (_ & _ & A & _).
  subst r. split; [apply A; reflexivity | split; reflexivity].
Defined.

(** *** The order of the meetings and of the todos *)

Definition meeting (title : string) (date : option string) : dict :=
  (("title", VStr title)
     :: match date with Some d => [("date", VStr d)] | None => [] end)%list.

Definition three_meetings : list dict :=
  [meeting "Review" (Some "2025-03-01"); meeting "Retreat" None;
   meeting "Kickoff" (Some "2025-01-15")].

Lemma three_meetings_in_order :
  Forall OrderFacts.dated three_meetings
  /\ Analytics.sort_meetings three_meetings
     = Ok [meeting "Kickoff" (Some "2025-01-15"); meeting "Review" (Some "2025-03-01");
           meeting "Retreat" None]
  /\ exists out,
       Analytics.sort_meetings three_meetings = Ok out
       /\ StronglySorted OrderFacts.by_date out.
Proof.
  assert (D : Forall OrderFacts.dated three_meetings) by (repeat constructor).
  split; [exact D|]. split; [vm_compute; reflexivity|].
  destruct (proj2 (OrderFacts.meetings_sorted_by_date helpful) three_meetings D)
    as (out & E & _ & S & _).
  exists out. now split.
Defined.




(** *** The primary currency *)

(** Two currencies of equal volume, then a third one of larger volume. *)
Definition three_currencies : list dict :=
  [[("amount", VInt 50); ("currency", VStr "A"); ("type", VStr "income")];
   [("amount", VInt 50); ("currency", VStr "B"); ("type", VStr "expense")];
   [("amount", VInt 80); ("currency", VStr "C"); ("type", VStr "bill")]].

Definition three_currencies_readings : list Finance.reading :=
  [Finance.mk_reading 50 (KStr "A") "income" (KStr "uncategorized") false;
   Finance.mk_reading 50 (KStr "B") "expense" (KStr "uncategorized") false;
   Finance.mk_reading 80 (KStr "C") "bill" (KStr "uncategorized") false].

Definition summary_of_three : Finance.summary :=
  Finance.mk_summary 0 80 (-80) (KStr "C") "Recent transactions"
    [(KStr "uncategorized", Finance.mk_bucket 0 80)] (Finance.mk_bucket 0 0)
    (Some [(KStr "A", Finance.mk_other 50 0 50); (KStr "B", Finance.mk_other 0 50 (-50))]).

Lemma volumes_of_three (c : hkey) :
  existsb (Finance.in_currency c) three_currencies_readings = true ->
  PrimFloat.is_nan (Finance.spec_volume c three_currencies_readings) = false.
Proof.
  intros H. apply existsb_exists in H as (r & Hin & Hc).
  unfold Finance.in_currency in Hc. apply PyFacts.hkey_eqb_eq in Hc. subst c.
  simpl in Hin. destruct Hin as [<- | [<- | [<- | []]]]; vm_compute; reflexivity.
Qed.

(** C has the largest volume; A and B, met before it, are below it. *)
Lemma primary_of_three_currencies :
  Finance.calculate_financial_summary helpful three_currencies = Ok summary_of_three
  /\ forall r',
       In r' (firstn 2 three_currencies_readings) ->
       PrimFloat.ltb
         (Finance.spec_volume (Finance.r_currency r') three_currencies_readings)
         (Finance.spec_volume (KStr "C") three_currencies_readings)
       = true.
Proof.
  split; [vm_compute; reflexivity|].
  apply (@PrimaryFacts.primary_currency_first_among_largest helpful three_currencies
           three_currencies_readings (firstn 2 three_currencies_readings) []
           (Finance.mk_reading 80 (KStr "C") "bill" (KStr "uncategorized") false)
           summary_of_three);
    try (vm_compute; reflexivity).
  exact volumes_of_three.
Defined.

(** With equal volumes the currency met first is the primary one. *)
Example primary_of_a_tie :
  Finance.calculate_financial_summary helpful (firstn 2 three_currencies)
  = Ok (Finance.mk_summary 50 0 50 (KStr "A") "Recent transactions"
          [(KStr "uncategorized", Finance.mk_bucket 50 0)] (Finance.mk_bucket 0 0)
          (Some [(KStr "B", Finance.mk_other 0 50 (-50))])).
Proof. vm_compute. reflexivity. Qed.

(** *** The batch entry points *)

(** One message, one reply, one draft. *)
Example one_draft_reported :
  fst (AutoReplyBatch.process_emails helpful 5 start)
  = Ok (AutoReplyBatch.Success "Processed emails" 1 1
          (Some [AutoReplyBatch.mk_detail (VStr "m1") (VStr "Lunch?")
                   (VStr "ann@example.org") (VStr "r-1")])).
Proof. vm_compute. reflexivity. Qed.

(** Without token.json the route answers 500, and the text of the 401. *)
Example single_email_without_token :
  SingleEmail.process_single_email helpful
    (fun r => match r with
              | SingleEmail.RaisedHTTP _ detail => detail
              | SingleEmail.Raised _ => "error"
              end)
    "m1" true (mk_state false 0 [])
  = (Routes.HTTPException 500 "Error processing email: Gmail authentication required",
     mk_state false 0 []).
Proof. vm_compute. reflexivity. Qed.

(** A database that cannot be reached: the route answers 500 and nothing
    is committed. *)
Definition unreachable : world :=
  mk_world (llm helpful) (json_loads helpful) (float_of_str helpful) (now helpful)
    (uuid4 helpful) (b64decode helpful) (load_token helpful) (refresh helpful)
    (run_flow helpful) (write_token helpful) (build_service helpful)
    (messages_list helpful) (messages_get helpful) (drafts_create helpful)
    (Raise (ExternalError "connection refused")) (db_execute helpful) (db_commit helpful)
    (get_all_labels helpful) (label_messages helpful).

Example save_route_without_database :
  Routes.save_transactions unreachable ledger start
  = (Ok (Routes.HTTPException 500 "Failed to save transactions to database"),
     mk_state true 0 SaveFacts.unconnected).
Proof. vm_compute. reflexivity. Qed.

(** *** The name and the initials of a sender *)

(** [str.upper] and [str.capitalize] on the letters a to z. *)
Definition upper_char (c : ascii) : ascii :=
  let n := N_of_ascii c in
  if ((97 <=? n) && (n <=? 122))%N then ascii_of_N (n - 32) else c.

Fixpoint upper (s : string) : string :=
  match s with
  | EmptyString => EmptyString
  | String c rest => String (upper_char c) (upper rest)
  end.

Definition capitalize (s : string) : string :=
  match s with
  | EmptyString => EmptyString
  | String c rest => String (upper_char c) (lower rest)
  end.

Lemma names_of_three_senders :
  RecentEmails.extract_sender_name capitalize "Ann Lee <ann.lee@example.org>"
    = "Ann Lee"
  /\ RecentEmails.extract_sender_name capitalize "ann.lee-smith@example.org"
     = "Ann Lee Smith"
  /\ RecentEmails.extract_sender_name capitalize "mailer daemon" = "mailer daemon".
Proof.
  destruct (RecentEmailsFacts.extract_sender_name_by_shape capitalize) as (N & A & S).
  split; [|split].
  - apply (N "A"%char "nn Lee " "ann.lee@example.org>").
    simpl. repeat split; discriminate.
  - apply (A "a"%char "nn.lee-smith" "example.org");
      simpl; repeat split; discriminate.
  - apply S; simpl; repeat split; discriminate.
Defined.

Example initials_of_three_names :
  RecentEmails.get_sender_initials upper "Ann Lee Smith" = Ok "AL"
  /\ RecentEmails.get_sender_initials upper "  mailer " = Ok "MA"
  /\ RecentEmails.get_sender_initials upper "x" = Ok "??".
Proof. repeat split; vm_compute; reflexivity. Qed.

(** *** The labels of the classifier *)

Definition two_labels : list dict :=
  [[("name", VStr "Work"); ("description", VStr "From colleagues")];
   [("name", VStr "urgent"); ("description", VStr "Needs an answer today")]].

(** The answer names Work: the label comes back as work. *)
Lemma labels_of_an_answer :
  Labels.claude_multi_label (fun _ _ => Text " Work, urgent ,, ") two_labels
    (VStr "Subject: Lunch?")
  = Ok ["work"; "urgent"]
  /\ Forall (fun name => lower name = name) ["work"; "urgent"].
Proof.
  split; [vm_compute; reflexivity|].
  eapply Forall_impl;
    [|apply (proj2 (LabelsFacts.claude_multi_label_names_are_clean
                      (fun _ _ => Text " Work, urgent ,, ") two_labels
                      (VStr "Subject: Lunch?")) ["work"; "urgent"]);
      vm_compute; reflexivity].
  intros name H. apply H.
Defined.

(** *** The date column *)

Definition paid (date : list (string * value)) : dict :=
  (("amount", VInt 10) :: ("type", VStr "payment") :: date)%list.

(** A date, the same date with a newline after it, a date in another shape,
    and no date. *)
Definition four_payments : list dict :=
  [paid [("date", VStr "2024-03-05")];
   paid [("date", VStr (String.append "2024-03-05" (String "010" EmptyString)))];
   paid [("date", VStr "05/03/2024")];
   paid []].

Definition date_columns (new : list event) : list string :=
  flat_map (fun e => match e with
                     | Execute (TransactionRow p) => [tr_date p]
                     | _ => []
                     end) new.

(** The newline stays in the column; the other shape and the missing date
    give the time of the run. *)
Example date_columns_of_four_payments :
  date_columns (events (snd (Finance.save_transactions_to_database helpful
                               four_payments start)))
  = ["2024-03-05T00:00:00";
     String.append "2024-03-05" (String "010" "T00:00:00");
     "2025-01-01T09:00:00";
     "2025-01-01T09:00:00"].
Proof. vm_compute. reflexivity. Qed.

End MoreScenarios.
